(** * flinux socket layer (src/fs/socket.c): a shallow embedding

    The file translates the guest (Linux) socket system calls into calls on
    the host (WinSock2) API.  The embedding below follows socket.c function
    by function.  Effects are explicit:

    - the host is a _script_: the list of replies the native calls will
      give, consumed in call order.  Every native call is also appended to a
      _trace_, together with the sticky readiness mask of the socket file it
      is made on, as that mask stands at the moment of the call;
    - the descriptor table, the guest memory validator and the kernel log
      are fields of the [world];
    - [ExitProcess] and a thread that never resumes are outcomes of their
      own.

    C [int]s are modelled as [Z]; bit operations are the [Z.land], [Z.lor],
    [Z.lnot] of two's complement, which agree with the 32-bit ones on the
    masks used here.  [log_info] lines are pure diagnostics and are left
    out; [log_warning] and [log_error] are recorded. *)

From Stdlib Require Import ZArith Lia Bool.
From stdpp Require Import base option list gmap strings.

Open Scope Z_scope.

(** ** Constants of the headers *)

(** Modelled from the spec: the headers socket.c includes (WinSock2.h,
    errno.h, common/fcntl.h, common/net.h, common/socket.h) are not among
    the sources, and the spec names the host and guest codes without their
    numbers.  The host values below are those of the Windows SDK, the guest
    values those of the Linux i386 ABI. *)

Module Host.
Definition WSA_NOT_ENOUGH_MEMORY := 8.
Definition WSAEINTR := 10004.
Definition WSAEBADF := 10009.
Definition WSAEACCES := 10013.
Definition WSAEFAULT := 10014.
Definition WSAEINVAL := 10022.
Definition WSAEMFILE := 10024.
Definition WSAEWOULDBLOCK := 10035.
Definition WSAEALREADY := 10037.
Definition WSAENOTSOCK := 10038.
Definition WSAEDESTADDRREQ := 10039.
Definition WSAEMSGSIZE := 10040.
Definition WSAEPROTOTYPE := 10041.
Definition WSAENOPROTOOPT := 10042.
Definition WSAEPROTONOSUPPORT := 10043.
Definition WSAESOCKTNOSUPPORT := 10044.
Definition WSAEOPNOTSUPP := 10045.
Definition WSAEPFNOSUPPORT := 10046.
Definition WSAEAFNOSUPPORT := 10047.
Definition WSAEADDRINUSE := 10048.
Definition WSAEADDRNOTAVAIL := 10049.
Definition WSAENETDOWN := 10050.
Definition WSAENETUNREACH := 10051.
Definition WSAENETRESET := 10052.
Definition WSAECONNABORTED := 10053.
Definition WSAECONNRESET := 10054.
Definition WSAENOBUFS := 10055.
Definition WSAEISCONN := 10056.
Definition WSAENOTCONN := 10057.
Definition WSAETIMEDOUT := 10060.
Definition WSAECONNREFUSED := 10061.
Definition WSAELOOP := 10062.
Definition WSAENAMETOOLONG := 10063.
Definition WSAEHOSTDOWN := 10064.
Definition WSAEHOSTUNREACH := 10065.
Definition WSAENOTEMPTY := 10066.
Definition WSAECANCELLED := 10103.

Definition SOCKET_ERROR := -1.
Definition INVALID_SOCKET := 4294967295.
Definition NULL := 0.

(* network event classes *)
Definition FD_READ := 1.
Definition FD_WRITE := 2.
Definition FD_ACCEPT := 8.
Definition FD_CONNECT := 16.
Definition FD_CLOSE := 32.
Definition FD_CONNECT_BIT := 4.

Definition AF_UNSPEC := 0.
Definition AF_UNIX := 1.
Definition AF_INET := 2.
Definition AF_INET6 := 23.
Definition SOCK_STREAM := 1.
Definition SOCK_DGRAM := 2.
Definition SOCK_RAW := 3.
Definition SOCK_RDM := 4.
Definition SOCK_SEQPACKET := 5.
End Host.

Module Guest.
Definition EINTR := 4.
Definition EIO := 5.
Definition EBADF := 9.
Definition EWOULDBLOCK := 11.
Definition ENOMEM := 12.
Definition EACCES := 13.
Definition EFAULT := 14.
Definition EINVAL := 22.
Definition ENFILE := 23.
Definition EMFILE := 24.
Definition ENAMETOOLONG := 36.
Definition ENOTEMPTY := 39.
Definition ELOOP := 40.
Definition ENOTSOCK := 88.
Definition EDESTADDRREQ := 89.
Definition EMSGSIZE := 90.
Definition EPROTOTYPE := 91.
Definition ENOPROTOOPT := 92.
Definition EPROTONOSUPPORT := 93.
Definition EOPNOTSUPP := 95.
Definition EAFNOSUPPORT := 97.
Definition EADDRINUSE := 98.
Definition EADDRNOTAVAIL := 99.
Definition ENETDOWN := 100.
Definition ENETUNREACH := 101.
Definition ENETRESET := 102.
Definition ECONNABORTED := 103.
Definition ECONNRESET := 104.
Definition ENOBUFS := 105.
Definition EISCONN := 106.
Definition ENOTCONN := 107.
Definition ETIMEDOUT := 110.
Definition ECONNREFUSED := 111.
Definition EHOSTUNREACH := 113.
Definition EALREADY := 114.
Definition EINPROGRESS := 115.
Definition ECANCELED := 125.

Definition O_NONBLOCK := 2048.      (* 04000 *)
Definition O_CLOEXEC := 524288.     (* 02000000 *)

Definition LINUX_MSG_PEEK := 2.
Definition LINUX_MSG_DONTWAIT := 64.

Definition LINUX_POLLIN := 1.
Definition LINUX_POLLOUT := 4.

Definition LINUX_AF_UNSPEC := 0.
Definition LINUX_AF_UNIX := 1.
Definition LINUX_AF_INET := 2.
Definition LINUX_AF_INET6 := 10.
Definition LINUX_SOCK_STREAM := 1.
Definition LINUX_SOCK_DGRAM := 2.
Definition LINUX_SOCK_RAW := 3.
Definition LINUX_SOCK_RDM := 4.
Definition LINUX_SOCK_SEQPACKET := 5.
Definition LINUX_SOCK_TYPE_MASK := 15.

(* sizes of the guest structures (i386, the ABI sys_socketcall belongs to) *)
Definition sizeof_sockaddr := 16.
Definition sizeof_iovec := 8.
Definition sizeof_msghdr := 28.
Definition sizeof_mmsghdr := 32.
End Guest.

Export Host Guest.

(** C truth value of an [int]. *)
Definition nonzero (z : Z) : bool := negb (z =? 0).

(** Conversion to [int] and to [size_t] (32 bits). *)
Definition to_int (z : Z) : Z := (z + 2 ^ 31) mod 2 ^ 32 - 2 ^ 31.
Definition to_size_t (z : Z) : Z := z mod 2 ^ 32.

(** ** Data *)

(** [struct socket_file]; [ref] is [base_file.ref], the operation table of
    [base_file] is the constructor of [file] below. *)
Module sock.
Record socket_file := mk {
  ref : Z;
  socket : Z;
  event_handle : Z;
  flags : Z;
  events : Z;
  connect_error : Z;
}.
Definition set_flags (v : Z) (f : socket_file) :=
  mk (ref f) (socket f) (event_handle f) v (events f) (connect_error f).
Definition set_events (v : Z) (f : socket_file) :=
  mk (ref f) (socket f) (event_handle f) (flags f) v (connect_error f).
Definition set_connect_error (v : Z) (f : socket_file) :=
  mk (ref f) (socket f) (event_handle f) (flags f) (events f) v.
End sock.
Abbreviation socket_file := sock.socket_file.

(** A [struct file] is a socket file when its [op_vtable] is [&socket_ops]. *)
Inductive file :=
| SocketFile (sf : socket_file)
| OtherFile.

Record WSANETWORKEVENTS := {
  lNetworkEvents : Z;
  iErrorCode : list Z;
}.

Record iovec := { iov_base : Z; iov_len : Z }.

(** [struct msghdr]: [msg_iov] is the address of the segment array,
    [msg_iov_at] its contents; [msg_iovlen] is the number of segments. *)
Record msghdr := {
  msg_name : Z;
  msg_namelen : Z;
  msg_iov : Z;
  msg_iov_at : list iovec;
  msg_control : Z;
  msg_controllen : Z;
  msg_flags : Z;
}.
Definition msg_iovlen (m : msghdr) : Z := Z.of_nat (length (msg_iov_at m)).

Record mmsghdr := { msg_hdr : msghdr; msg_len : Z }.
Definition set_msg_len (v : Z) (m : mmsghdr) : mmsghdr :=
  {| msg_hdr := msg_hdr m; msg_len := v |}.

Record WSABUF := { len : Z; buf : Z }.
Record WSAMSG := {
  name : Z;
  namelen : Z;
  lpBuffers : list WSABUF;
  dwBufferCount : Z;
  Control : WSABUF;
  dwFlags : Z;
}.

(** ** The host and the world *)

Inductive call :=
| call_WSAStartup
| call_socket (af type protocol : Z)
| call_CreateEventW
| call_WSAEventSelect (s h mask : Z)
| call_closesocket (s : Z)
| call_CloseHandle (h : Z)
| call_connect (s addr addrlen : Z)
| call_WSAEnumNetworkEvents (s h : Z)
| call_WaitForSingleObject (h : Z)
| call_sendto (s buf len flags dest_addr addrlen : Z)
| call_WSASendMsg (s : Z) (msg : WSAMSG)
| call_recvfrom (s buf len flags src_addr addrlen : Z)
| call_vfs_store_file (cloexec : bool).

(** What the host answers to a call. *)
Inductive reply :=
| Ok (v : Z)                       (* success, with the value it yields *)
| Fail (err : Z)                   (* failure; the last error becomes err *)
| Events (ev : WSANETWORKEVENTS).  (* the pending network events *)

Inductive log_entry :=
| log_error (msg : string) (args : list Z)
| log_warning (msg : string) (args : list Z).

Record world := mkWorld {
  socket_inited : Z;
  last_error : Z;                       (* WSAGetLastError() *)
  files : gmap Z file;                  (* the descriptor table *)
  mem_readable : Z → Z → bool;          (* mm_check_read *)
  mem_writable : Z → Z → bool;          (* mm_check_write *)
  script : list reply;
  trace : list (call * option Z);
  klog : list log_entry;
}.

Definition set_socket_inited v w :=
  mkWorld v (last_error w) (files w) (mem_readable w) (mem_writable w)
          (script w) (trace w) (klog w).
Definition set_last_error v w :=
  mkWorld (socket_inited w) v (files w) (mem_readable w) (mem_writable w)
          (script w) (trace w) (klog w).
Definition set_files v w :=
  mkWorld (socket_inited w) (last_error w) v (mem_readable w) (mem_writable w)
          (script w) (trace w) (klog w).
Definition set_script v w :=
  mkWorld (socket_inited w) (last_error w) (files w) (mem_readable w)
          (mem_writable w) v (trace w) (klog w).
Definition set_trace v w :=
  mkWorld (socket_inited w) (last_error w) (files w) (mem_readable w)
          (mem_writable w) (script w) v (klog w).
Definition set_klog v w :=
  mkWorld (socket_inited w) (last_error w) (files w) (mem_readable w)
          (mem_writable w) (script w) (trace w) v.

(** ** The monad of system calls *)

Inductive outcome (A : Type) : Type :=
| Ret (a : A) (w : world)      (* the call returns a *)
| Exit (code : Z) (w : world)  (* ExitProcess(code) *)
| Stuck (w : world).           (* the thread never resumes: the script has
                                  no (fitting) reply left *)
Arguments Ret {A} a w.
Arguments Exit {A} code w.
Arguments Stuck {A} w.

Definition M (A : Type) : Type := world → outcome A.

#[global] Instance M_ret : MRet M := λ A a w, Ret a w.
#[global] Instance M_bind : MBind M := λ A B k m w,
  match m w with
  | Ret a w' => k a w'
  | Exit c w' => Exit c w'
  | Stuck w' => Stuck w'
  end.

Definition stuck {A} : M A := λ w, Stuck w.
Definition ExitProcess {A} (code : Z) : M A := λ w, Exit code w.
Definition get {A} (p : world → A) : M A := λ w, Ret (p w) w.
Definition put (u : world → world) : M unit := λ w, Ret tt (u w).
Definition when (c : bool) (m : M unit) : M unit := if c then m else mret tt.

(** An unbounded C loop, run for as many turns as the script has replies
    (and one more): each turn of the loops below takes at least one reply,
    so the bound is never what stops them (lemmas [socket_wait_event_turns]
    to [socket_sendmsg_turns]). *)
Definition unbounded {A} (loop : nat → M A) : M A := λ w,
  loop (S (length (script w))) w.

Definition log (e : log_entry) : M unit := put (λ w, set_klog (klog w ++ [e]) w).

(** [f->field] and [f->field = v] through a pointer to a socket file; a
    file is identified with its slot in the descriptor table. *)
Definition deref (f : Z) : M socket_file := λ w,
  match files w !! f with
  | Some (SocketFile sf) => Ret sf w
  | _ => Stuck w
  end.
Definition modify (f : Z) (g : socket_file → socket_file) : M unit :=
  sf ← deref f; put (λ w, set_files (<[f := SocketFile (g sf)]> (files w)) w).

Definition sticky (f : Z) (w : world) : option Z :=
  match files w !! f with
  | Some (SocketFile sf) => Some (sock.events sf)
  | _ => None
  end.

(** A native call: it is traced, and the next reply of the script is its
    answer.  [on] is the socket file the call is made for, if any. *)
Definition native (on : option Z) (c : call) : M reply := λ w,
  let w1 := set_trace (trace w ++ [(c, on ≫= λ f, sticky f w)]) w in
  match script w1 with
  | [] => Stuck w1
  | Fail err :: rest => Ret (Fail err) (set_last_error err (set_script rest w1))
  | r :: rest => Ret r (set_script rest w1)
  end.

(** A native call that gives no answer the code looks at. *)
Definition native_ (on : option Z) (c : call) : M unit :=
  put (λ w, set_trace (trace w ++ [(c, on ≫= λ f, sticky f w)]) w).

(** The integer a native call returns: the value on success, [failed] when
    it fails. *)
Definition value_or (failed : Z) (r : reply) : M Z :=
  match r with
  | Ok v => mret v
  | Fail _ => mret failed
  | Events _ => stuck
  end.

Definition WSAGetLastError : M Z := get last_error.
Definition WSASetLastError (e : Z) : M unit := put (set_last_error e).

(** Modelled from the spec: the memory validator (syscall/mm.h) is outside
    socket.c; [can_read(pointer, length)] and [can_write(pointer, length)]
    are answered by the world. *)
Definition mm_check_read (p n : Z) : M bool := get (λ w, mem_readable w p n).
Definition mm_check_write (p n : Z) : M bool := get (λ w, mem_writable w p n).

(** ** socket.c *)

Definition translate_socket_error (error : Z) : M Z :=
  if error =? WSA_NOT_ENOUGH_MEMORY then mret (- ENOMEM)
  else if error =? WSAEINTR then mret (- EINTR)
  else if error =? WSAEBADF then mret (- EBADF)
  else if error =? WSAEACCES then mret (- EACCES)
  else if error =? WSAEFAULT then mret (- EFAULT)
  else if error =? WSAEINVAL then mret (- EINVAL)
  else if error =? WSAEMFILE then mret (- EMFILE)
  else if error =? WSAEWOULDBLOCK then mret (- EWOULDBLOCK)
  else if error =? WSAEALREADY then mret (- EALREADY)
  else if error =? WSAENOTSOCK then mret (- ENOTSOCK)
  else if error =? WSAEDESTADDRREQ then mret (- EDESTADDRREQ)
  else if error =? WSAEMSGSIZE then mret (- EMSGSIZE)
  else if error =? WSAEPROTOTYPE then mret (- EPROTOTYPE)
  else if error =? WSAENOPROTOOPT then mret (- ENOPROTOOPT)
  else if error =? WSAEPROTONOSUPPORT then mret (- EPROTONOSUPPORT)
  else if error =? WSAESOCKTNOSUPPORT then mret (- EPROTONOSUPPORT)
  else if error =? WSAEOPNOTSUPP then mret (- EOPNOTSUPP)
  else if error =? WSAEPFNOSUPPORT then mret (- EAFNOSUPPORT)
  else if error =? WSAEAFNOSUPPORT then mret (- EAFNOSUPPORT)
  else if error =? WSAEADDRINUSE then mret (- EADDRINUSE)
  else if error =? WSAEADDRNOTAVAIL then mret (- EADDRNOTAVAIL)
  else if error =? WSAENETDOWN then mret (- ENETDOWN)
  else if error =? WSAENETUNREACH then mret (- ENETUNREACH)
  else if error =? WSAENETRESET then mret (- ENETRESET)
  else if error =? WSAECONNABORTED then mret (- ECONNABORTED)
  else if error =? WSAECONNRESET then mret (- ECONNRESET)
  else if error =? WSAENOBUFS then mret (- ENOBUFS)
  else if error =? WSAEISCONN then mret (- EISCONN)
  else if error =? WSAENOTCONN then mret (- ENOTCONN)
  else if error =? WSAETIMEDOUT then mret (- ETIMEDOUT)
  else if error =? WSAECONNREFUSED then mret (- ECONNREFUSED)
  else if error =? WSAELOOP then mret (- ELOOP)
  else if error =? WSAENAMETOOLONG then mret (- ENAMETOOLONG)
  else if error =? WSAEHOSTDOWN then mret (- ETIMEDOUT)
  else if error =? WSAEHOSTUNREACH then mret (- EHOSTUNREACH)
  else if error =? WSAENOTEMPTY then mret (- ENOTEMPTY)
  else if error =? WSAECANCELLED then mret (- ECANCELED)
  else
    log (log_error "Unhandled WSA error code: %d" [error]);;
    mret (- EIO).

Definition socket_ensure_initialized : M unit :=
  inited ← get socket_inited;
  if nonzero inited then mret tt
  else
    a ← native None call_WSAStartup;
    r ← match a with
        | Ok v => mret v
        | Fail err => mret err
        | Events _ => stuck
        end;
    if nonzero r then
      log (log_error "WSAStartup() failed, error code: %d" [r]);;
      ExitProcess 1
    else put (set_socket_inited 1).

Definition socket_init : M unit := put (set_socket_inited 0).

(** [f->events |= bit] and [f->events &= ~bit] *)
Definition or_events (bit : Z) (sf : socket_file) : socket_file :=
  sock.set_events (Z.lor (sock.events sf) bit) sf.
Definition clear_events (bit : Z) (sf : socket_file) : socket_file :=
  sock.set_events (Z.land (sock.events sf) (Z.lnot bit)) sf.

Definition WSAEnumNetworkEvents (f s h : Z) : M WSANETWORKEVENTS :=
  a ← native (Some f) (call_WSAEnumNetworkEvents s h);
  match a with
  | Events ev => mret ev
  | _ => stuck
  end.

Definition socket_update_events (f : Z) (error_report_events : Z) : M Z :=
  sf ← deref f;
  events ← WSAEnumNetworkEvents f (sock.socket sf) (sock.event_handle sf);
  when (nonzero (Z.land (lNetworkEvents events) FD_READ))
       (modify f (or_events FD_READ));;
  when (nonzero (Z.land (lNetworkEvents events) FD_WRITE))
       (modify f (or_events FD_WRITE));;
  when (nonzero (Z.land (lNetworkEvents events) FD_ACCEPT))
       (modify f (or_events FD_ACCEPT));;
  when (nonzero (Z.land (lNetworkEvents events) FD_CONNECT))
       (modify f (or_events FD_CONNECT);;
        modify f (sock.set_connect_error
                    (nth (Z.to_nat FD_CONNECT_BIT) (iErrorCode events) 0)));;
  when (nonzero (Z.land (lNetworkEvents events) FD_CLOSE))
       (modify f (or_events FD_CLOSE));;
  sf ← deref f;
  let e := sock.events sf in
  when (nonzero (Z.land (Z.land error_report_events (sock.events sf)) FD_CONNECT))
       (WSASetLastError (sock.connect_error sf);;
        modify f (clear_events FD_CONNECT);;
        modify f (sock.set_connect_error 0));;
  mret e.

Definition socket_get_poll_status (f : Z) : M Z :=
  e ← socket_update_events f 0;
  let ret := 0 in
  let ret := if nonzero (Z.land e FD_READ) then Z.lor ret LINUX_POLLIN else ret in
  let ret := if nonzero (Z.land e FD_WRITE) then Z.lor ret LINUX_POLLOUT else ret in
  mret ret.

(** The [do ... while (1)] of socket_wait_event. *)
Fixpoint socket_wait_event_loop (turns : nat) (f event flags : Z) : M Z :=
  match turns with
  | O => stuck
  | S turns =>
    e ← socket_update_events f event;
    if nonzero (Z.land e event) then mret 0
    else
      sf ← deref f;
      if nonzero (Z.land (sock.flags sf) O_NONBLOCK)
         || nonzero (Z.land flags LINUX_MSG_DONTWAIT)
      then mret (- EWOULDBLOCK)
      else
        native_ (Some f) (call_WaitForSingleObject (sock.event_handle sf));;
        socket_wait_event_loop turns f event flags
  end.

Definition socket_wait_event (f event flags : Z) : M Z :=
  unbounded (λ turns, socket_wait_event_loop turns f event flags).

Fixpoint socket_sendto_loop (turns : nat)
    (f buf len flags dest_addr addrlen : Z) : M Z :=
  match turns with
  | O => stuck
  | S turns =>
    r ← socket_wait_event f FD_WRITE flags;
    if negb (r =? 0) then mret r
    else
      sf ← deref f;
      a ← native (Some f)
            (call_sendto (sock.socket sf) buf len 0 dest_addr addrlen);
      r ← value_or SOCKET_ERROR a;
      if negb (r =? SOCKET_ERROR) then mret r
      else
        err ← WSAGetLastError;
        if negb (err =? WSAEWOULDBLOCK) then
          log (log_warning "sendto() failed, error code: %d" [err]);;
          translate_socket_error err
        else
          modify f (clear_events FD_WRITE);;
          socket_sendto_loop turns f buf len flags dest_addr addrlen
  end.

Definition socket_sendto (f buf len flags dest_addr addrlen : Z) : M Z :=
  when (nonzero (Z.land flags (Z.lnot LINUX_MSG_DONTWAIT)))
       (log (log_error "flags (0x%x) contains unsupported bits." [flags]));;
  unbounded (λ turns,
    socket_sendto_loop turns f buf len flags dest_addr addrlen).

(** [WSASendMsg(s, &wsamsg, 0, &r, NULL, NULL)]: the return code and the
    new value of [r]. *)
Definition WSASendMsg (f s : Z) (wsamsg : WSAMSG) (r : Z) : M (Z * Z) :=
  a ← native (Some f) (call_WSASendMsg s wsamsg);
  match a with
  | Ok sent => mret (0, sent)
  | Fail _ => mret (SOCKET_ERROR, r)
  | Events _ => stuck
  end.

Fixpoint socket_sendmsg_loop (turns : nat) (f : Z) (wsamsg : WSAMSG)
    (flags : Z) : M Z :=
  match turns with
  | O => stuck
  | S turns =>
    r ← socket_wait_event f FD_WRITE flags;
    if negb (r =? 0) then mret r
    else
      sf ← deref f;
      '(rc, r) ← WSASendMsg f (sock.socket sf) wsamsg r;
      if negb (rc =? SOCKET_ERROR) then mret r
      else
        err ← WSAGetLastError;
        if negb (err =? WSAEWOULDBLOCK) then
          log (log_warning "WSASendMsg() failed, error code: %d" [err]);;
          translate_socket_error err
        else
          modify f (λ sf, sock.set_flags
                            (Z.land (sock.flags sf) (Z.lnot FD_WRITE)) sf);;
          socket_sendmsg_loop turns f wsamsg flags
  end.

Definition socket_sendmsg (f : Z) (msg : msghdr) (flags : Z) : M Z :=
  when (nonzero (Z.land flags (Z.lnot LINUX_MSG_DONTWAIT)))
       (log (log_error
               "socket_sendmsg(): flags (0x%x) contains unsupported bits."
               [flags]));;
  let buffers :=
    map (λ v, {| len := iov_len v; buf := iov_base v |}) (msg_iov_at msg) in
  let wsamsg :=
    {| name := msg_name msg;
       namelen := msg_namelen msg;
       lpBuffers := buffers;
       dwBufferCount := msg_iovlen msg;
       Control := {| len := msg_controllen msg; buf := msg_control msg |};
       dwFlags := 0 |} in
  unbounded (λ turns, socket_sendmsg_loop turns f wsamsg flags).

Fixpoint socket_recvfrom_loop (turns : nat)
    (f buf len flags src_addr addrlen : Z) : M Z :=
  match turns with
  | O => stuck
  | S turns =>
    r ← socket_wait_event f FD_READ flags;
    if negb (r =? 0) then mret r
    else
      when (negb (nonzero (Z.land flags LINUX_MSG_PEEK)))
           (modify f (clear_events FD_READ));;
      sf ← deref f;
      a ← native (Some f)
            (call_recvfrom (sock.socket sf) buf len flags src_addr addrlen);
      r ← value_or SOCKET_ERROR a;
      if negb (r =? SOCKET_ERROR) then mret r
      else
        err ← WSAGetLastError;
        if negb (err =? WSAEWOULDBLOCK) then
          log (log_warning "recvfrom() failed, error code: %d" [err]);;
          translate_socket_error err
        else socket_recvfrom_loop turns f buf len flags src_addr addrlen
  end.

Definition socket_recvfrom (f buf len flags src_addr addrlen : Z) : M Z :=
  when (nonzero (Z.land flags
                   (Z.lnot (Z.lor LINUX_MSG_PEEK LINUX_MSG_DONTWAIT))))
       (log (log_error "flags (0x%x) contains unsupported bits." [flags]));;
  unbounded (λ turns,
    socket_recvfrom_loop turns f buf len flags src_addr addrlen).

(** socket_close works on the file itself: it is also run on a file that
    never reached the descriptor table. *)
Definition socket_close (sf : socket_file) : M Z :=
  native_ None (call_closesocket (sock.socket sf));;
  native_ None (call_CloseHandle (sock.event_handle sf));;
  mret 0.


Definition init_socket_event (sock : Z) : M Z :=
  a ← native None call_CreateEventW;
  handle ← value_or NULL a;
  if handle =? NULL then
    e ← WSAGetLastError;
    log (log_error "CreateEventW() failed, error code: %d" [e]);;
    mret NULL
  else
    a ← native None
          (call_WSAEventSelect sock handle
             (Z.lor (Z.lor (Z.lor FD_READ FD_WRITE) FD_ACCEPT) FD_CONNECT));
    r ← value_or SOCKET_ERROR a;
    if r =? SOCKET_ERROR then
      e ← WSAGetLastError;
      log (log_error "WSAEventSelect() failed, error code: %d" [e]);;
      native_ None (call_CloseHandle handle);;
      mret NULL
    else mret handle.

(** Modelled from the spec: the descriptor table (vfs_get, vfs_store_file,
    vfs_release) is outside socket.c.  [resolve(descriptor)] is a lookup in
    [files]; [store(resource, close_on_exec)] yields the descriptor chosen
    by the table (the next reply of the script) and files the resource
    there, or yields a negative error; [release(resource)] drops one
    reference and destroys the resource at zero. *)
Definition vfs_get (fd : Z) : M (option file) := get (λ w, files w !! fd).
Definition vfs_store_file (sf : socket_file) (cloexec : bool) : M Z :=
  a ← native None (call_vfs_store_file cloexec);
  fd ← value_or (- EMFILE) a;
  when (0 <=? fd) (put (λ w, set_files (<[fd := SocketFile sf]> (files w)) w));;
  mret fd.
Definition vfs_release (sf : socket_file) : M unit :=
  if sock.ref sf - 1 =? 0 then socket_close sf;; mret tt else mret tt.

(** get_sockfd: the return code and [*sock]. *)
Definition get_sockfd (fd : Z) : M (Z * Z) :=
  f ← vfs_get fd;
  match f with
  | None => mret (- EBADF, NULL)
  | Some OtherFile => mret (- ENOTSOCK, NULL)
  | Some (SocketFile _) => mret (0, fd)
  end.

Fixpoint mm_check_read_iov (iov : list iovec) : M bool :=
  match iov with
  | [] => mret true
  | v :: iov =>
    ok ← mm_check_read (iov_base v) (iov_len v);
    if negb ok then mret false else mm_check_read_iov iov
  end.

(** mm_check_read_msghdr: [msg] is the address of the header, [msg_at] the
    header found there. *)
Definition mm_check_read_msghdr (msg : Z) (msg_at : msghdr) : M bool :=
  ok ← mm_check_read msg sizeof_msghdr;
  if negb ok then mret false
  else
    ok ← (if nonzero (msg_iovlen msg_at)
          then mm_check_read (msg_iov msg_at)
                 (to_size_t (sizeof_iovec * msg_iovlen msg_at))
          else mret true);
    if negb ok then mret false
    else
      ok ← (if nonzero (msg_controllen msg_at)
            then mm_check_read (msg_control msg_at) (msg_controllen msg_at)
            else mret true);
      if negb ok then mret false
      else mm_check_read_iov (msg_iov_at msg_at).

Definition sys_socket (domain type protocol : Z) : M Z :=
  socket_ensure_initialized;;
  let win32_af :=
    if domain =? LINUX_AF_UNSPEC then Some AF_UNSPEC
    else if domain =? LINUX_AF_UNIX then Some AF_UNIX
    else if domain =? LINUX_AF_INET then Some AF_INET
    else if domain =? LINUX_AF_INET6 then Some AF_INET6
    else None in
  match win32_af with
  | None => mret (- EAFNOSUPPORT)
  | Some win32_af =>
    let kind := Z.land type LINUX_SOCK_TYPE_MASK in
    let win32_type :=
      if kind =? LINUX_SOCK_DGRAM then Some SOCK_DGRAM
      else if kind =? LINUX_SOCK_STREAM then Some SOCK_STREAM
      else if kind =? LINUX_SOCK_RAW then Some SOCK_RAW
      else if kind =? LINUX_SOCK_RDM then Some SOCK_RDM
      else if kind =? LINUX_SOCK_SEQPACKET then Some SOCK_SEQPACKET
      else None in
    match win32_type with
    | None => mret (- EPROTONOSUPPORT)
    | Some win32_type =>
      let win32_protocol := protocol in
      if negb (protocol =? 0) then
        log (log_error "protocol(%d) != 0" [protocol]);;
        mret (- EPROTONOSUPPORT)
      else
        a ← native None (call_socket win32_af win32_type win32_protocol);
        sock ← value_or INVALID_SOCKET a;
        if sock =? INVALID_SOCKET then
          e ← WSAGetLastError;
          log (log_warning "socket() failed, error code: %d" [e]);;
          e ← WSAGetLastError;
          translate_socket_error e
        else
          event_handle ← init_socket_event sock;
          if event_handle =? NULL then
            native_ None (call_closesocket sock);;
            log (log_error "init_socket_event() failed." []);;
            mret (- ENFILE)
          else
            let f := {| sock.ref := 1;
                        sock.socket := sock;
                        sock.event_handle := event_handle;
                        sock.flags := 0;
                        sock.events := 0;
                        sock.connect_error := 0 |} in
            let f := if nonzero (Z.land type O_NONBLOCK)
                     then sock.set_flags (Z.lor (sock.flags f) O_NONBLOCK) f
                     else f in
            fd ← vfs_store_file f (Z.land type O_CLOEXEC >? 0);
            when (fd <? 0) (vfs_release f);;
            mret fd
    end
  end.

Definition sys_connect (sockfd addr addrlen : Z) : M Z :=
  ok ← mm_check_read addr sizeof_sockaddr;
  if negb ok then mret (- EFAULT)
  else
    '(r, f) ← get_sockfd sockfd;
    if nonzero r then mret r
    else
      sf ← deref f;
      a ← native (Some f) (call_connect (sock.socket sf) addr addrlen);
      c ← value_or SOCKET_ERROR a;
      if c =? SOCKET_ERROR then
        err ← WSAGetLastError;
        if negb (err =? WSAEWOULDBLOCK) then
          log (log_warning "connect() failed, error code: %d" [err]);;
          translate_socket_error err
        else if Z.land (sock.flags sf) O_NONBLOCK >? 0 then
          mret (- EINPROGRESS)
        else
          socket_wait_event f FD_CONNECT 0;;
          WSAGetLastError
      else mret 0.

Definition sys_send (sockfd buf len flags : Z) : M Z :=
  ok ← mm_check_read buf len;
  if negb ok then mret (- EFAULT)
  else
    '(r, f) ← get_sockfd sockfd;
    if nonzero r then mret r
    else socket_sendto f buf len flags NULL 0.

Definition sys_recv (sockfd buf len flags : Z) : M Z :=
  ok ← mm_check_write buf len;
  if negb ok then mret (- EFAULT)
  else
    '(r, f) ← get_sockfd sockfd;
    if nonzero r then mret r
    else socket_recvfrom f buf len flags NULL 0.

Definition sys_sendto (sockfd buf len flags dest_addr addrlen : Z) : M Z :=
  ok ← mm_check_read buf len;
  if negb ok then mret (- EFAULT)
  else
    ok ← (if nonzero dest_addr then mm_check_read dest_addr addrlen
          else mret true);
    if negb ok then mret (- EFAULT)
    else
      '(r, f) ← get_sockfd sockfd;
      if nonzero r then mret r
      else socket_sendto f buf len flags dest_addr addrlen.

Definition sys_sendmsg (sockfd msg : Z) (msg_at : msghdr) (flags : Z) : M Z :=
  ok ← mm_check_read_msghdr msg msg_at;
  if negb ok then mret (- EFAULT)
  else
    '(r, f) ← get_sockfd sockfd;
    if nonzero r then mret r
    else socket_sendmsg f msg_at flags.

(** sys_sendmmsg.  [msgvec] is the address of the vector, [msgvec_at] the
    [vlen] entries found there; the vector as the call leaves it is
    returned with the result. *)

(** [total], the sum of the segment lengths, accumulated in an [int]. *)
Definition iov_total (iov : list iovec) : Z :=
  fold_left (λ total v, to_int (total + iov_len v)) iov 0.

(* first loop: every header is validated before anything is sent *)
Fixpoint sendmmsg_check_loop (msgvec : Z) (i : Z) (todo : list mmsghdr)
    : M bool :=
  match todo with
  | [] => mret true
  | m :: todo =>
    ok ← mm_check_read_msghdr (msgvec + sizeof_mmsghdr * i) (msg_hdr m);
    if negb ok then mret false
    else sendmmsg_check_loop msgvec (i + 1) todo
  end.

(* second loop: [todo] are the entries from index [i] on *)
Fixpoint sendmmsg_send_loop (f flags : Z) (todo : list mmsghdr) (i : nat)
    (msgvec_at : list mmsghdr) : M (Z * list mmsghdr) :=
  match todo with
  | [] => mret (Z.of_nat (length msgvec_at), msgvec_at)
  | m :: todo =>
    len ← socket_sendmsg f (msg_hdr m) flags;
    if (Z.of_nat i =? 0) && (len <? 0) then mret (len, msgvec_at)
    else if (Z.of_nat i =? 0) && (len =? 0) then mret (- EWOULDBLOCK, msgvec_at)
    else if len <=? 0 then mret (Z.of_nat i, msgvec_at)
    else
      let msgvec_at := <[i := set_msg_len len m]> msgvec_at in
      let total := iov_total (msg_iov_at (msg_hdr m)) in
      if len <? total then mret (Z.of_nat i + 1, msgvec_at)
      else sendmmsg_send_loop f flags todo (S i) msgvec_at
  end.

Definition sys_sendmmsg (sockfd msgvec : Z) (msgvec_at : list mmsghdr)
    (flags : Z) : M (Z * list mmsghdr) :=
  let vlen := Z.of_nat (length msgvec_at) in
  ok ← mm_check_write msgvec (to_size_t (sizeof_mmsghdr * vlen));
  if negb ok then mret (- EFAULT, msgvec_at)
  else
    ok ← sendmmsg_check_loop msgvec 0 msgvec_at;
    if negb ok then mret (- EFAULT, msgvec_at)
    else
      '(r, f) ← get_sockfd sockfd;
      if nonzero r then mret (r, msgvec_at)
      else sendmmsg_send_loop f flags msgvec_at 0 msgvec_at.

(** ** Concrete worlds for the examples *)

Definition blank_file (fl ev : Z) : socket_file :=
  {| sock.ref := 1; sock.socket := 100; sock.event_handle := 200;
     sock.flags := fl; sock.events := ev; sock.connect_error := 0 |}.

(** A started process with all guest memory accessible, the socket file
    [sf] at descriptor 3, a non-socket file at descriptor 4, and the host
    replies [replies] ahead. *)
Definition a_world (sf : socket_file) (replies : list reply) : world :=
  {| socket_inited := 1; last_error := 0;
     files := <[3 := SocketFile sf]> (<[4 := OtherFile]> ∅);
     mem_readable := λ _ _, true; mem_writable := λ _ _, true;
     script := replies; trace := []; klog := [] |}.

Definition net_events (mask : Z) (connect_err : Z) : reply :=
  Events {| lNetworkEvents := mask; iErrorCode := [0; 0; 0; 0; connect_err] |}.

(** ** Specification-side definitions *)

(** The mapping as a table: one pair per [case] label of the switch. *)
Definition error_mapping_table : list (Z * Z) :=
  [ (WSA_NOT_ENOUGH_MEMORY, - ENOMEM); (WSAEINTR, - EINTR);
    (WSAEBADF, - EBADF); (WSAEACCES, - EACCES); (WSAEFAULT, - EFAULT);
    (WSAEINVAL, - EINVAL); (WSAEMFILE, - EMFILE);
    (WSAEWOULDBLOCK, - EWOULDBLOCK); (WSAEALREADY, - EALREADY);
    (WSAENOTSOCK, - ENOTSOCK); (WSAEDESTADDRREQ, - EDESTADDRREQ);
    (WSAEMSGSIZE, - EMSGSIZE); (WSAEPROTOTYPE, - EPROTOTYPE);
    (WSAENOPROTOOPT, - ENOPROTOOPT);
    (WSAEPROTONOSUPPORT, - EPROTONOSUPPORT);
    (WSAESOCKTNOSUPPORT, - EPROTONOSUPPORT); (WSAEOPNOTSUPP, - EOPNOTSUPP);
    (WSAEPFNOSUPPORT, - EAFNOSUPPORT); (WSAEAFNOSUPPORT, - EAFNOSUPPORT);
    (WSAEADDRINUSE, - EADDRINUSE); (WSAEADDRNOTAVAIL, - EADDRNOTAVAIL);
    (WSAENETDOWN, - ENETDOWN); (WSAENETUNREACH, - ENETUNREACH);
    (WSAENETRESET, - ENETRESET); (WSAECONNABORTED, - ECONNABORTED);
    (WSAECONNRESET, - ECONNRESET); (WSAENOBUFS, - ENOBUFS);
    (WSAEISCONN, - EISCONN); (WSAENOTCONN, - ENOTCONN);
    (WSAETIMEDOUT, - ETIMEDOUT); (WSAECONNREFUSED, - ECONNREFUSED);
    (WSAELOOP, - ELOOP); (WSAENAMETOOLONG, - ENAMETOOLONG);
    (WSAEHOSTDOWN, - ETIMEDOUT); (WSAEHOSTUNREACH, - EHOSTUNREACH);
    (WSAENOTEMPTY, - ENOTEMPTY); (WSAECANCELLED, - ECANCELED) ].

Definition unmapped (host : Z) : Prop :=
  Forall (λ entry, host ≠ entry.1) error_mapping_table.

(** What a run returned, and the world it left. *)
Definition returned {A} (o : outcome A) : option A :=
  match o with
  | Ret a _ => Some a
  | _ => None
  end.
Definition world_of {A} (o : outcome A) : world :=
  match o with
  | Ret _ w | Exit _ w | Stuck w => w
  end.

(** The native sockets opened so far: the [socket()] calls of the trace. *)
Definition is_call_socket (c : call) : bool :=
  match c with
  | call_socket _ _ _ => true
  | _ => false
  end.
Definition native_sockets (w : world) : list call :=
  List.filter is_call_socket (trace w).*1.

(** The domains and kinds that have a [case] in sys_socket. *)
Definition supported_domain (domain : Z) : bool :=
  bool_decide (domain ∈ [LINUX_AF_UNSPEC; LINUX_AF_UNIX; LINUX_AF_INET;
                         LINUX_AF_INET6]).
Definition supported_kind (type : Z) : bool :=
  bool_decide (Z.land type LINUX_SOCK_TYPE_MASK ∈
                 [LINUX_SOCK_DGRAM; LINUX_SOCK_STREAM; LINUX_SOCK_RAW;
                  LINUX_SOCK_RDM; LINUX_SOCK_SEQPACKET]).

(** The world [w] with the socket file [sf] at [f]. *)
Definition with_file (f : Z) (sf : socket_file) (w : world) : world :=
  set_files (<[f := SocketFile sf]> (files w)) w.

(** What socket_update_events does to the socket file, as functions: the
    pending events [ev] are folded into the sticky mask, then a completed
    connect is claimed when the caller asked for it. *)
Definition raise (ev : WSANETWORKEVENTS) (bit : Z) (sf : socket_file)
    : socket_file :=
  if nonzero (Z.land (lNetworkEvents ev) bit) then or_events bit sf else sf.
Definition absorb (ev : WSANETWORKEVENTS) (sf : socket_file) : socket_file :=
  let sf := raise ev FD_READ sf in
  let sf := raise ev FD_WRITE sf in
  let sf := raise ev FD_ACCEPT sf in
  let sf :=
    if nonzero (Z.land (lNetworkEvents ev) FD_CONNECT)
    then sock.set_connect_error
           (nth (Z.to_nat FD_CONNECT_BIT) (iErrorCode ev) 0)
           (or_events FD_CONNECT sf)
    else sf in
  raise ev FD_CLOSE sf.
Definition reports (mask : Z) (sf : socket_file) : bool :=
  nonzero (Z.land (Z.land mask (sock.events sf)) FD_CONNECT).
Definition claim_connect (mask : Z) (sf : socket_file) : socket_file :=
  if reports mask sf
  then sock.set_connect_error 0 (clear_events FD_CONNECT sf)
  else sf.

(** The world after one WSAEnumNetworkEvents on the file [sf]. *)
Definition enumerated (sf : socket_file) (rest : list reply) (w : world)
    : world :=
  set_script rest
    (set_trace
       (trace w ++
          [(call_WSAEnumNetworkEvents (sock.socket sf) (sock.event_handle sf),
            Some (sock.events sf))]) w).

(** The memory validators as functions of the world. *)
Definition readable_iov (w : world) (iov : list iovec) : bool :=
  forallb (λ v, mem_readable w (iov_base v) (iov_len v)) iov.
Definition readable_msghdr (w : world) (msg : Z) (msg_at : msghdr) : bool :=
  mem_readable w msg sizeof_msghdr
  && (negb (nonzero (msg_iovlen msg_at))
      || mem_readable w (msg_iov msg_at)
           (to_size_t (sizeof_iovec * msg_iovlen msg_at)))
  && (negb (nonzero (msg_controllen msg_at))
      || mem_readable w (msg_control msg_at) (msg_controllen msg_at))
  && readable_iov w (msg_iov_at msg_at).
Fixpoint readable_msgvec (w : world) (msgvec i : Z) (todo : list mmsghdr)
    : bool :=
  match todo with
  | [] => true
  | m :: todo =>
    readable_msghdr w (msgvec + sizeof_mmsghdr * i) (msg_hdr m)
    && readable_msgvec w msgvec (i + 1) todo
  end.

(** [sends f flags msgs w lens w']: sending the messages [msgs] one after
    the other with socket_sendmsg, from the world [w], returns the values
    [lens] and leaves the world [w']. *)
Inductive sends (f flags : Z)
    : list mmsghdr → world → list Z → world → Prop :=
| sends_nil w : sends f flags [] w [] w
| sends_cons m msgs w len w1 lens w2 :
    socket_sendmsg f (msg_hdr m) flags w = Ret len w1 →
    sends f flags msgs w1 lens w2 →
    sends f flags (m :: msgs) w (len :: lens) w2.

(** A message sent in full: a positive count, not below the total length
    of its segments. *)
Definition sent_in_full (m : mmsghdr) (len : Z) : Prop :=
  0 < len ∧ iov_total (msg_iov_at (msg_hdr m)) <= len.

(** The vector after the counts [lens] have been stored in the [msg_len]
    fields of its first entries. *)
Fixpoint store_lens (lens : list Z) (v : list mmsghdr) : list mmsghdr :=
  match lens, v with
  | len :: lens, m :: v => set_msg_len len m :: store_lens lens v
  | _, _ => v
  end.

(** A message of one segment of [n] bytes, described at address [base]. *)
Definition a_msg (base n : Z) : mmsghdr :=
  {| msg_hdr := {| msg_name := 0; msg_namelen := 0;
                   msg_iov := base + 32;
                   msg_iov_at := [ {| iov_base := base + 64; iov_len := n |} ];
                   msg_control := 0; msg_controllen := 0; msg_flags := 0 |};
     msg_len := 0 |}.

(** The world [w] where nothing can be read at the address [bad]. *)
Definition unreadable_at (bad : Z) (w : world) : world :=
  mkWorld (socket_inited w) (last_error w) (files w)
          (λ p _, negb (p =? bad)) (mem_writable w)
          (script w) (trace w) (klog w).

(** The world [w] where no guest memory can be written. *)
Definition unwritable (w : world) : world :=
  mkWorld (socket_inited w) (last_error w) (files w)
          (mem_readable w) (λ _ _, false)
          (script w) (trace w) (klog w).

(** The world moves on from [w] to [w']: the trace grows by calls that all
    satisfy [ok], and the script is used up from the front. *)
Definition extends (ok : call * option Z → Prop) (w w' : world) : Prop :=
  (∃ ext, trace w' = trace w ++ ext ∧ Forall ok ext) ∧
  script w' `suffix_of` script w.

Definition is_recvfrom (c : call) : bool :=
  match c with
  | call_recvfrom _ _ _ _ _ _ => true
  | _ => false
  end.

(** The calls made between the worlds [w] and [w']. *)
Definition new_calls (w w' : world) : list (call * option Z) :=
  drop (length (trace w)) (trace w').

(** The sticky read-ready bit of the socket file at [f]. *)
Definition read_ready (f : Z) (w : world) : bool :=
  match sticky f w with
  | Some e => nonzero (Z.land e FD_READ)
  | None => false
  end.

(** The host has no read notification in store. *)
Definition quiet_reads (w : world) : Prop :=
  Forall (λ r, match r with
               | Events ev => nonzero (Z.land (lNetworkEvents ev) FD_READ) = false
               | _ => True
               end) (script w).

(** The calls socket_wait_event makes. *)
Definition is_wait_call (c : call) : bool :=
  match c with
  | call_WSAEnumNetworkEvents _ _ | call_WaitForSingleObject _ => true
  | _ => false
  end.

(** What a receive leaves behind, from the socket file [sf] in the world
    [w] to the outcome [o]; [peek] tells whether LINUX_MSG_PEEK is set.
    - the socket file is still in place;
    - every recvfrom call was made with the read-ready bit equal to [peek]:
      set for a peek, already clear otherwise;
    - a peek does not clear the bit, and leaves it as it was unless the
      host had a read notification in store;
    - a receive without peek that returns leaves the bit clear. *)
Definition received (peek : bool) (f : Z) (sf : socket_file) (w : world)
    (o : outcome Z) : Prop :=
  ∃ sf' w',
    world_of o = with_file f sf' w' ∧
    extends (λ item, is_recvfrom item.1 = true →
                     ∃ e, item.2 = Some e ∧ Z.testbit e 0 = peek) w w' ∧
    (peek = true → Z.testbit (sock.events sf) 0 = true →
                   Z.testbit (sock.events sf') 0 = true) ∧
    (peek = true → quiet_reads w →
       Z.testbit (sock.events sf') 0 = Z.testbit (sock.events sf) 0) ∧
    (peek = false → ∀ r w'', o = Ret r w'' →
       Z.testbit (sock.events sf') 0 = false).

(** The native transfers a receive made between [w] and [w'], each with
    the sticky mask it was made under. *)
Definition recvfrom_calls (w w' : world) : list (call * option Z) :=
  List.filter (λ item, is_recvfrom item.1) (new_calls w w').

(** ** More of socket.c *)

Definition socket_get_poll_handle (f : Z) : M (Z * Z) :=
  sf ← deref f;
  let poll_events := Z.lor LINUX_POLLIN LINUX_POLLOUT in
  mret (sock.event_handle sf, poll_events).

(** sys_recvfrom: [addrlen] is the address of the length, [addrlen_at] the
    [int] found there. *)
Definition sys_recvfrom (sockfd buf len flags src_addr addrlen : Z)
    (addrlen_at : Z) : M Z :=
  ok ← mm_check_write buf len;
  if negb ok then mret (- EFAULT)
  else
    ok ← (if nonzero src_addr then
            ok ← mm_check_write addrlen 4;
            if negb ok then mret false
            else mm_check_write src_addr addrlen_at
          else mret true);
    if negb ok then mret (- EFAULT)
    else
      '(r, f) ← get_sockfd sockfd;
      if nonzero r then mret r
      else socket_recvfrom f buf len flags src_addr addrlen.

(** Modelled from the spec: the call identifiers of sys_socketcall
    (common/net.h) are not among the sources; the values are those of the
    Linux ABI. *)
Definition SYS_SOCKET := 1.
Definition SYS_CONNECT := 3.
Definition SYS_GETSOCKNAME := 6.
Definition SYS_GETPEERNAME := 7.
Definition SYS_SEND := 9.
Definition SYS_RECV := 10.
Definition SYS_SENDTO := 11.
Definition SYS_RECVFROM := 12.
Definition SYS_SENDMSG := 16.
Definition SYS_SENDMMSG := 20.

(** Argument list sizes for sys_socketcall, in bytes; [uintptr_t] has 4. *)
Definition AL (x : Z) : Z := x * 4.
Definition nargs : list Z :=
  [ AL 0; AL 3; AL 3; AL 3; AL 2; AL 3;
    AL 3; AL 3; AL 4; AL 4; AL 4; AL 6;
    AL 6; AL 2; AL 5; AL 5; AL 3; AL 3;
    AL 4; AL 5; AL 4 ].

Section socketcall.

(** What the callees of the dispatcher find in guest memory behind their
    pointer arguments: an [int], a message header, the entries of a message
    vector. *)
Variable int_at : Z → Z.
Variable msghdr_at : Z → msghdr.
Variable mmsghdr_at : Z → nat → mmsghdr.

(** sys_getsockname and sys_getpeername go to natives the host model has no
    call for; the dispatcher is modelled over whatever they do. *)
Variable sys_getsockname : Z → Z → Z → M Z.
Variable sys_getpeername : Z → Z → Z → M Z.

(** sys_socketcall: [args] is the address of the packed arguments,
    [args_at] the words found there.  The result is the return value and,
    for SYS_SENDMMSG, the message vector as the call leaves it. *)
Definition sys_socketcall (call args : Z) (args_at : list Z)
    : M (Z * option (list mmsghdr)) :=
  let arg (i : Z) : Z := nth (Z.to_nat i) args_at 0 in
  let plain (m : M Z) : M (Z * option (list mmsghdr)) :=
    r ← m; mret (r, None) in
  if (call <? 1) || (call >? SYS_SENDMMSG) then mret (- EINVAL, None)
  else
    ok ← mm_check_read args (nth (Z.to_nat call) nargs 0);
    if negb ok then mret (- EFAULT, None)
    else if call =? SYS_SOCKET then
      plain (sys_socket (to_int (arg 0)) (to_int (arg 1)) (to_int (arg 2)))
    else if call =? SYS_CONNECT then
      plain (sys_connect (to_int (arg 0)) (arg 1) (arg 2))
    else if call =? SYS_GETSOCKNAME then
      plain (sys_getsockname (to_int (arg 0)) (arg 1) (arg 2))
    else if call =? SYS_GETPEERNAME then
      plain (sys_getpeername (to_int (arg 0)) (arg 1) (arg 2))
    else if call =? SYS_SEND then
      plain (sys_send (to_int (arg 0)) (arg 1) (arg 2) (to_int (arg 3)))
    else if call =? SYS_RECV then
      plain (sys_recv (to_int (arg 0)) (arg 1) (arg 2) (to_int (arg 3)))
    else if call =? SYS_SENDTO then
      plain (sys_sendto (to_int (arg 0)) (arg 1) (arg 2) (to_int (arg 3))
               (arg 4) (to_int (arg 5)))
    else if call =? SYS_RECVFROM then
      plain (sys_recvfrom (to_int (arg 0)) (arg 1) (arg 2) (to_int (arg 3))
               (arg 4) (arg 5) (int_at (arg 5)))
    else if call =? SYS_SENDMSG then
      plain (sys_sendmsg (to_int (arg 0)) (arg 1) (msghdr_at (arg 1))
               (to_int (arg 2)))
    else if call =? SYS_SENDMMSG then
      '(r, v) ← sys_sendmmsg (to_int (arg 0)) (arg 1)
                  (mmsghdr_at (arg 1) <$> seq 0 (Z.to_nat (arg 2))) (arg 3);
      mret (r, Some v)
    else
      log (log_error "Unimplemented socketcall: %d" [call]);;
      mret (- EINVAL, None).

End socketcall.

(** The domain and kind tables of sys_socket, as association lists. *)
Definition win32_af_table : list (Z * Z) :=
  [ (LINUX_AF_UNSPEC, AF_UNSPEC); (LINUX_AF_UNIX, AF_UNIX);
    (LINUX_AF_INET, AF_INET); (LINUX_AF_INET6, AF_INET6) ].
Definition win32_type_table : list (Z * Z) :=
  [ (LINUX_SOCK_DGRAM, SOCK_DGRAM); (LINUX_SOCK_STREAM, SOCK_STREAM);
    (LINUX_SOCK_RAW, SOCK_RAW); (LINUX_SOCK_RDM, SOCK_RDM);
    (LINUX_SOCK_SEQPACKET, SOCK_SEQPACKET) ].

(** The calls of a trace, without the masks they were made under. *)
Definition calls_since (w w' : world) : list call := (new_calls w w').*1.

(** * Properties *)

(** ** Running the monad *)

Lemma run_bind {A B} (m : M A) (k : A → M B) (w w' : world) (a : A) :
  m w = Ret a w' → (m ≫= k) w = k a w'.
Proof. intros H. unfold mbind, M_bind. now rewrite H. Qed.

Lemma run_bind_stuck {A B} (m : M A) (k : A → M B) (w w' : world) :
  m w = Stuck w' → (m ≫= k) w = Stuck w'.
Proof. intros H. unfold mbind, M_bind. now rewrite H. Qed.

Lemma run_bind_exit {A B} (m : M A) (k : A → M B) (w w' : world) c :
  m w = Exit c w' → (m ≫= k) w = Exit c w'.
Proof. intros H. unfold mbind, M_bind. now rewrite H. Qed.

(** ** The error translator *)

Lemma translate_mapped :
  Forall (λ entry, ∀ w, translate_socket_error entry.1 w = Ret entry.2 w)
         error_mapping_table.
Proof. repeat (constructor; [intros w; reflexivity|]). constructor. Qed.

Lemma translate_unmapped (host : Z) (w : world) :
  unmapped host →
  translate_socket_error host w =
    Ret (- EIO)
        (set_klog (klog w ++ [log_error "Unhandled WSA error code: %d" [host]]) w).
Proof.
  unfold unmapped, error_mapping_table. intros H.
  repeat match type of H with
         | Forall _ (_ :: _) =>
             let H1 := fresh in
             apply Forall_cons in H; destruct H as [H1 H];
             cbn [fst] in H1; apply Z.eqb_neq in H1
         end.
  unfold translate_socket_error.
  repeat match goal with
         | E : (host =? ?k) = false |- _ => rewrite E; clear E
         end.
  reflexivity.
Qed.

(** C7.  The translator is a total function of the host code: on every
    entry of the mapping table it returns that entry's guest code and
    leaves the world as it is; on every code outside the table it returns
    [-EIO] and appends one [log_error] line naming the code. *)
Theorem translate_socket_error_spec (host : Z) (w : world) :
  (∀ guest, (host, guest) ∈ error_mapping_table →
     translate_socket_error host w = Ret guest w) ∧
  (unmapped host →
     translate_socket_error host w =
       Ret (- EIO)
           (set_klog
              (klog w ++ [log_error "Unhandled WSA error code: %d" [host]]) w)) ∧
  (∃ guest w', translate_socket_error host w = Ret guest w').
Proof.
  assert (Hin : ∀ guest, (host, guest) ∈ error_mapping_table →
                  translate_socket_error host w = Ret guest w).
  { intros guest Hin.
    pose proof translate_mapped as Hall.
    rewrite Forall_forall in Hall. apply (Hall (host, guest) Hin w). }
  split; [exact Hin|]. split; [apply translate_unmapped|].
  destruct (decide (host ∈ error_mapping_table.*1)) as [Hm|Hm].
  - apply list_elem_of_fmap in Hm as [[h g] [-> Hm]]. eauto.
  - eexists _, _. apply translate_unmapped.
    apply Forall_forall. intros [h g] Hhg ->. apply Hm.
    apply list_elem_of_fmap. exists (h, g). auto.
Qed.

Lemma translate_socket_error_spec_witness :
  let w := a_world (blank_file 0 0) [] in
  translate_socket_error WSAECONNREFUSED w = Ret (- ECONNREFUSED) w ∧
  translate_socket_error 1 w =
    Ret (- EIO)
        (set_klog (klog w ++ [log_error "Unhandled WSA error code: %d" [1]]) w).
Proof.
  intros w. split.
  - apply (proj1 (translate_socket_error_spec WSAECONNREFUSED w)).
    apply (bool_decide_unpack _). vm_compute. reflexivity.
  - apply (proj1 (proj2 (translate_socket_error_spec 1 w))).
    apply (bool_decide_unpack _). vm_compute. reflexivity.
Defined.

(** ** Creating a socket *)

Lemma socket_ensure_initialized_sockets (w w1 : world) :
  socket_ensure_initialized w = Ret tt w1 →
  native_sockets w1 = native_sockets w ∧ files w1 = files w.
Proof.
  unfold socket_ensure_initialized, mbind, M_bind, get, native.
  destruct (nonzero (socket_inited w)); cbn.
  - intros [= <-]. done.
  - assert (Hs : native_sockets (set_trace (trace w ++ [(call_WSAStartup, None)]) w)
                 = native_sockets w).
    { unfold native_sockets; cbn. rewrite fmap_app, List.filter_app; cbn.
      apply app_nil_r. }
    destruct (script w) as [|[v|err|ev] rest]; cbn; try discriminate.
    + destruct (nonzero v); cbn; [discriminate|]. intros [= <-]. done.
    + destruct (nonzero err); cbn; [discriminate|]. intros [= <-]. done.
Qed.

Lemma supported_domain_af (domain : Z) :
  supported_domain domain = true →
  ∃ af,
    (if domain =? LINUX_AF_UNSPEC then Some AF_UNSPEC
     else if domain =? LINUX_AF_UNIX then Some AF_UNIX
     else if domain =? LINUX_AF_INET then Some AF_INET
     else if domain =? LINUX_AF_INET6 then Some AF_INET6
     else None) = Some af.
Proof.
  unfold supported_domain. intros Hd. apply bool_decide_eq_true in Hd.
  repeat (apply elem_of_cons in Hd as [->|Hd]; [cbn; eauto|]).
  now apply elem_of_nil in Hd.
Qed.

(** C8 (amended).  Once the networking subsystem is up (initialisation
    returns, leaving the world [w1]), sys_socket returns [-EAFNOSUPPORT]
    for an unsupported domain, [-EPROTONOSUPPORT] for a supported domain
    with an unsupported kind, and [-EPROTONOSUPPORT] for a supported domain
    with a non-zero protocol; in each case no native socket is opened and
    the descriptor table is left as it was. *)
Theorem sys_socket_rejects (domain type protocol : Z) (w w1 : world) :
  socket_ensure_initialized w = Ret tt w1 →
  native_sockets w1 = native_sockets w ∧
  (supported_domain domain = false →
     sys_socket domain type protocol w = Ret (- EAFNOSUPPORT) w1) ∧
  (supported_domain domain = true → supported_kind type = false →
     sys_socket domain type protocol w = Ret (- EPROTONOSUPPORT) w1) ∧
  (supported_domain domain = true → protocol ≠ 0 →
     ∃ w', sys_socket domain type protocol w = Ret (- EPROTONOSUPPORT) w' ∧
           trace w' = trace w1 ∧ files w' = files w1).
Proof.
  intros Hinit.
  split; [apply (socket_ensure_initialized_sockets _ _ Hinit)|].
  unfold sys_socket. rewrite (run_bind _ _ _ _ _ Hinit).
  repeat split.
  - unfold supported_domain. intros Hd. apply bool_decide_eq_false in Hd.
    rewrite !not_elem_of_cons in Hd. destruct Hd as (H1 & H2 & H3 & H4 & _).
    apply Z.eqb_neq in H1, H2, H3, H4. rewrite H1, H2, H3, H4. reflexivity.
  - intros Hd Hk. destruct (supported_domain_af _ Hd) as [af ->].
    unfold supported_kind in Hk. apply bool_decide_eq_false in Hk.
    rewrite !not_elem_of_cons in Hk.
    destruct Hk as (H1 & H2 & H3 & H4 & H5 & _).
    apply Z.eqb_neq in H1, H2, H3, H4, H5.
    rewrite H1, H2, H3, H4, H5. reflexivity.
  - intros Hd Hp. apply Z.eqb_neq in Hp.
    destruct (supported_domain_af _ Hd) as [af ->].
    repeat (destruct (Z.land type LINUX_SOCK_TYPE_MASK =? _));
      rewrite ?Hp; cbn; eauto.
Qed.

Lemma sys_socket_rejects_witness :
  let w := a_world (blank_file 0 0) [] in
  sys_socket 99 LINUX_SOCK_STREAM 0 w = Ret (- EAFNOSUPPORT) w ∧
  sys_socket LINUX_AF_INET 9 0 w = Ret (- EPROTONOSUPPORT) w ∧
  ∃ w', sys_socket LINUX_AF_INET LINUX_SOCK_STREAM 6 w
          = Ret (- EPROTONOSUPPORT) w' ∧
        trace w' = trace w ∧ files w' = files w.
Proof.
  intros w.
  assert (Hinit : socket_ensure_initialized w = Ret tt w) by reflexivity.
  split; [|split].
  - apply (sys_socket_rejects 99 LINUX_SOCK_STREAM 0 w w Hinit). reflexivity.
  - apply (sys_socket_rejects LINUX_AF_INET 9 0 w w Hinit); reflexivity.
  - apply (sys_socket_rejects LINUX_AF_INET LINUX_SOCK_STREAM 6 w w Hinit);
      [reflexivity | lia].
Defined.

(** C8 as stated fails: a non-zero protocol together with an unsupported
    domain is answered with [-EAFNOSUPPORT], because the domain is looked
    at first. *)
Lemma sys_socket_protocol_counterexample :
  let w := a_world (blank_file 0 0) [] in
  sys_socket 99 LINUX_SOCK_STREAM 6 w = Ret (- EAFNOSUPPORT) w ∧
  sys_socket 99 LINUX_SOCK_STREAM 6 w ≠ Ret (- EPROTONOSUPPORT) w.
Proof. intros w. split; [reflexivity|]. intros H. discriminate H. Qed.

(** C3.  A successful sys_socket arms the notification object for four
    classes only: the mask handed to WSAEventSelect is
    [FD_READ | FD_WRITE | FD_ACCEPT | FD_CONNECT], without [FD_CLOSE]. *)
Theorem sys_socket_arms_without_FD_CLOSE :
  let w := a_world (blank_file 0 0) [Ok 55; Ok 66; Ok 0; Ok 7] in
  let o := sys_socket LINUX_AF_INET LINUX_SOCK_STREAM 0 w in
  returned o = Some 7 ∧
  trace (world_of o) =
    [ (call_socket AF_INET SOCK_STREAM 0, None);
      (call_CreateEventW, None);
      (call_WSAEventSelect 55 66 27, None);
      (call_vfs_store_file false, None) ] ∧
  27 = Z.lor (Z.lor (Z.lor FD_READ FD_WRITE) FD_ACCEPT) FD_CONNECT ∧
  Z.land 27 FD_CLOSE = 0.
Proof. vm_compute. repeat split. Qed.

(** ** connect *)

(** C1.  On a blocking socket whose native connect would block and then
    completes with WSAECONNREFUSED, sys_connect returns the host code 10061
    itself; its translation would have been [-ECONNREFUSED]. *)
Theorem sys_connect_blocking_returns_host_code :
  let w := a_world (blank_file 0 0)
             [Fail WSAEWOULDBLOCK; net_events 0 0;
              net_events FD_CONNECT WSAECONNREFUSED] in
  returned (sys_connect 3 1000 16 w) = Some WSAECONNREFUSED ∧
  returned (translate_socket_error WSAECONNREFUSED w) = Some (- ECONNREFUSED) ∧
  WSAECONNREFUSED ≠ - ECONNREFUSED.
Proof. vm_compute. repeat split. discriminate. Qed.

(** ** Socket files in the world *)

Lemma with_file_id (f : Z) (sf : socket_file) (w : world) :
  files w !! f = Some (SocketFile sf) → with_file f sf w = w.
Proof.
  intros H. destruct w. unfold with_file, set_files. cbn in *.
  f_equal. now apply insert_id.
Qed.

Lemma with_file_twice (f : Z) (sf sf' : socket_file) (w : world) :
  with_file f sf' (with_file f sf w) = with_file f sf' w.
Proof.
  unfold with_file, set_files. cbn. f_equal. apply insert_insert_eq.
Qed.

Lemma files_with_file (f : Z) (sf : socket_file) (w : world) :
  files (with_file f sf w) !! f = Some (SocketFile sf).
Proof. unfold with_file. cbn. apply lookup_insert_eq. Qed.

Lemma sticky_with_file (f : Z) (sf : socket_file) (w : world) :
  sticky f (with_file f sf w) = Some (sock.events sf).
Proof. unfold sticky. now rewrite files_with_file. Qed.

Lemma deref_with_file (f : Z) (sf : socket_file) (w : world) :
  deref f (with_file f sf w) = Ret sf (with_file f sf w).
Proof. unfold deref. now rewrite files_with_file. Qed.

Lemma modify_with_file (f : Z) (g : socket_file → socket_file)
    (sf : socket_file) (w : world) :
  modify f g (with_file f sf w) = Ret tt (with_file f (g sf) w).
Proof.
  unfold modify. rewrite (run_bind _ _ _ _ _ (deref_with_file f sf w)).
  unfold put. f_equal. apply with_file_twice.
Qed.

Lemma when_modify_with_file (c : bool) (f : Z) (g : socket_file → socket_file)
    (sf : socket_file) (w : world) :
  when c (modify f g) (with_file f sf w)
  = Ret tt (with_file f (if c then g sf else sf) w).
Proof. destruct c; [apply modify_with_file | reflexivity]. Qed.

Lemma WSAEnumNetworkEvents_with_file (f : Z) (sf : socket_file) (w : world)
    (ev : WSANETWORKEVENTS) (rest : list reply) :
  script w = Events ev :: rest →
  WSAEnumNetworkEvents f (sock.socket sf) (sock.event_handle sf)
    (with_file f sf w)
  = Ret ev (with_file f sf (enumerated sf rest w)).
Proof.
  intros Hs. unfold WSAEnumNetworkEvents, native, mbind, M_bind.
  cbn [option_bind]. rewrite sticky_with_file. cbn. now rewrite Hs.
Qed.

Ltac run H := rewrite (run_bind _ _ _ _ _ H); cbv beta.

(** socket_update_events, in one step. *)
Lemma socket_update_events_with_file (f : Z) (sf : socket_file) (w : world)
    (mask : Z) (ev : WSANETWORKEVENTS) (rest : list reply) :
  script w = Events ev :: rest →
  socket_update_events f mask (with_file f sf w)
  = Ret (sock.events (absorb ev sf))
        (with_file f (claim_connect mask (absorb ev sf))
           (if reports mask (absorb ev sf)
            then set_last_error (sock.connect_error (absorb ev sf))
                   (enumerated sf rest w)
            else enumerated sf rest w)).
Proof.
  intros Hs. unfold socket_update_events.
  run (deref_with_file f sf w).
  run (WSAEnumNetworkEvents_with_file f sf w ev rest Hs).
  run (when_modify_with_file
         (nonzero (Z.land (lNetworkEvents ev) FD_READ)) f (or_events FD_READ)
         sf (enumerated sf rest w)).
  fold (raise ev FD_READ sf).
  run (when_modify_with_file
         (nonzero (Z.land (lNetworkEvents ev) FD_WRITE)) f (or_events FD_WRITE)
         (raise ev FD_READ sf) (enumerated sf rest w)).
  fold (raise ev FD_WRITE (raise ev FD_READ sf)).
  run (when_modify_with_file
         (nonzero (Z.land (lNetworkEvents ev) FD_ACCEPT)) f
         (or_events FD_ACCEPT)
         (raise ev FD_WRITE (raise ev FD_READ sf)) (enumerated sf rest w)).
  fold (raise ev FD_ACCEPT (raise ev FD_WRITE (raise ev FD_READ sf))).
  set (sf3 := raise ev FD_ACCEPT (raise ev FD_WRITE (raise ev FD_READ sf))).
  set (w1 := enumerated sf rest w).
  assert (Hc : when (nonzero (Z.land (lNetworkEvents ev) FD_CONNECT))
                 (modify f (or_events FD_CONNECT);;
                  modify f (sock.set_connect_error
                              (nth (Z.to_nat FD_CONNECT_BIT) (iErrorCode ev) 0)))
                 (with_file f sf3 w1)
               = Ret tt
                   (with_file f
                      (if nonzero (Z.land (lNetworkEvents ev) FD_CONNECT)
                       then sock.set_connect_error
                              (nth (Z.to_nat FD_CONNECT_BIT) (iErrorCode ev) 0)
                              (or_events FD_CONNECT sf3)
                       else sf3) w1)).
  { destruct (nonzero _); [|reflexivity]. unfold when.
    run (modify_with_file f (or_events FD_CONNECT) sf3 w1).
    apply modify_with_file. }
  run Hc. clear Hc.
  match goal with
  | |- context [with_file f ?s w1] => set (sf4 := s)
  end.
  run (when_modify_with_file
         (nonzero (Z.land (lNetworkEvents ev) FD_CLOSE)) f (or_events FD_CLOSE)
         sf4 w1).
  fold (raise ev FD_CLOSE sf4).
  replace (raise ev FD_CLOSE sf4) with (absorb ev sf) by reflexivity.
  set (sf5 := absorb ev sf).
  run (deref_with_file f sf5 w1).
  unfold claim_connect. fold (reports mask sf5).
  destruct (reports mask sf5); [|reflexivity].
  unfold when.
  assert (Hclaim :
    (WSASetLastError (sock.connect_error sf5);;
     modify f (clear_events FD_CONNECT);;
     modify f (sock.set_connect_error 0)) (with_file f sf5 w1)
    = Ret tt (with_file f (sock.set_connect_error 0 (clear_events FD_CONNECT sf5))
                (set_last_error (sock.connect_error sf5) w1))).
  { assert (Hput : WSASetLastError (sock.connect_error sf5) (with_file f sf5 w1)
                   = Ret tt (with_file f sf5
                               (set_last_error (sock.connect_error sf5) w1)))
      by reflexivity.
    run Hput.
    run (modify_with_file f (clear_events FD_CONNECT) sf5
           (set_last_error (sock.connect_error sf5) w1)).
    apply modify_with_file. }
  run Hclaim. reflexivity.
Qed.

(** ** Readiness bits *)

Lemma nonzero_land_bit (x k : Z) :
  0 ≤ k → nonzero (Z.land x (2 ^ k)) = Z.testbit x k.
Proof.
  intros Hk. unfold nonzero.
  destruct (Z.testbit x k) eqn:Hb.
  - apply negb_true_iff, Z.eqb_neq. intros H0.
    assert (Hbit : Z.testbit (Z.land x (2 ^ k)) k = true).
    { rewrite Z.land_spec, Hb, Z.pow2_bits_true by lia. reflexivity. }
    rewrite H0, Z.bits_0 in Hbit. discriminate.
  - apply negb_false_iff, Z.eqb_eq. apply Z.bits_inj'. intros n Hn.
    rewrite Z.land_spec, Z.bits_0, Z.pow2_bits_eqb by lia.
    destruct (Z.eqb_spec k n) as [->|]; [now rewrite Hb | apply andb_false_r].
Qed.

Lemma testbit_or_events (i k : Z) (sf : socket_file) :
  0 ≤ i → 0 ≤ k →
  Z.testbit (sock.events (or_events (2 ^ i) sf)) k
  = Z.testbit (sock.events sf) k || (i =? k).
Proof.
  intros Hi Hk. cbn. now rewrite Z.lor_spec, Z.pow2_bits_eqb by lia.
Qed.

Lemma testbit_clear_events (i k : Z) (sf : socket_file) :
  0 ≤ i → 0 ≤ k →
  Z.testbit (sock.events (clear_events (2 ^ i) sf)) k
  = Z.testbit (sock.events sf) k && negb (i =? k).
Proof.
  intros Hi Hk. cbn.
  now rewrite Z.land_spec, Z.lnot_spec, Z.pow2_bits_eqb by lia.
Qed.

Lemma testbit_raise (ev : WSANETWORKEVENTS) (i k : Z) (sf : socket_file) :
  0 ≤ i → 0 ≤ k →
  Z.testbit (sock.events (raise ev (2 ^ i) sf)) k
  = Z.testbit (sock.events sf) k
    || (Z.testbit (lNetworkEvents ev) i && (i =? k)).
Proof.
  intros Hi Hk. unfold raise. rewrite nonzero_land_bit by lia.
  destruct (Z.testbit (lNetworkEvents ev) i).
  - now rewrite testbit_or_events.
  - now rewrite orb_false_r.
Qed.

(** The sticky mask after folding the pending events: a bit is set when it
    was set, or when it is one of the five classes and is pending. *)
Lemma testbit_absorb (ev : WSANETWORKEVENTS) (sf : socket_file) (k : Z) :
  0 ≤ k →
  Z.testbit (sock.events (absorb ev sf)) k
  = Z.testbit (sock.events sf) k
    || (Z.testbit (lNetworkEvents ev) k
        && bool_decide (k ∈ [0; 1; 3; 4; 5])).
Proof.
  intros Hk. unfold absorb.
  change FD_READ with (2 ^ 0). change FD_WRITE with (2 ^ 1).
  change FD_ACCEPT with (2 ^ 3). change FD_CONNECT with (2 ^ 4).
  change FD_CLOSE with (2 ^ 5).
  rewrite testbit_raise by lia.
  rewrite (nonzero_land_bit _ 4) by lia.
  assert (H4 : ∀ s,
    Z.testbit
      (sock.events
         (if Z.testbit (lNetworkEvents ev) 4
          then sock.set_connect_error
                 (nth (Z.to_nat FD_CONNECT_BIT) (iErrorCode ev) 0)
                 (or_events (2 ^ 4) s)
          else s)) k
    = Z.testbit (sock.events s) k
      || (Z.testbit (lNetworkEvents ev) 4 && (4 =? k))).
  { intros s. destruct (Z.testbit (lNetworkEvents ev) 4).
    - change (sock.events (sock.set_connect_error ?e ?s'))
        with (sock.events s').
      now rewrite testbit_or_events.
    - now rewrite orb_false_r. }
  rewrite H4, !testbit_raise by lia. clear H4.
  destruct (Z.testbit (sock.events sf) k); [reflexivity|]. cbn [orb].
  destruct (decide (k ∈ [0; 1; 3; 4; 5])) as [Hin|Hout].
  - rewrite (bool_decide_eq_true_2 _ Hin), andb_true_r.
    repeat (apply elem_of_cons in Hin as [->|Hin];
            [cbn; now rewrite ?andb_false_r, ?orb_false_r, ?andb_true_r|]).
    now apply elem_of_nil in Hin.
  - rewrite (bool_decide_eq_false_2 _ Hout), andb_false_r.
    rewrite !not_elem_of_cons in Hout.
    destruct Hout as (H0 & H1 & H3 & H4 & H5 & _).
    rewrite (proj2 (Z.eqb_neq 0 k)), (proj2 (Z.eqb_neq 1 k)),
      (proj2 (Z.eqb_neq 3 k)), (proj2 (Z.eqb_neq 4 k)),
      (proj2 (Z.eqb_neq 5 k)) by congruence.
    now rewrite !andb_false_r.
Qed.

Lemma connect_error_absorb (ev : WSANETWORKEVENTS) (sf : socket_file) :
  sock.connect_error (absorb ev sf)
  = if nonzero (Z.land (lNetworkEvents ev) FD_CONNECT)
    then nth (Z.to_nat FD_CONNECT_BIT) (iErrorCode ev) 0
    else sock.connect_error sf.
Proof.
  unfold absorb, raise.
  repeat (destruct (nonzero _)); reflexivity.
Qed.

Lemma flags_absorb (ev : WSANETWORKEVENTS) (sf : socket_file) :
  sock.flags (absorb ev sf) = sock.flags sf.
Proof. unfold absorb, raise. repeat (destruct (nonzero _)); reflexivity. Qed.

Lemma handles_absorb (ev : WSANETWORKEVENTS) (sf : socket_file) :
  sock.socket (absorb ev sf) = sock.socket sf ∧
  sock.event_handle (absorb ev sf) = sock.event_handle sf.
Proof. unfold absorb, raise. repeat (destruct (nonzero _)); split; reflexivity. Qed.

Lemma reports_testbit (mask : Z) (sf : socket_file) :
  reports mask sf = Z.testbit mask 4 && Z.testbit (sock.events sf) 4.
Proof.
  unfold reports. change FD_CONNECT with (2 ^ 4).
  rewrite nonzero_land_bit by lia. apply Z.land_spec.
Qed.

Lemma testbit_claim_connect (mask : Z) (sf : socket_file) (k : Z) :
  0 ≤ k →
  Z.testbit (sock.events (claim_connect mask sf)) k
  = Z.testbit (sock.events sf) k && negb (reports mask sf && (4 =? k)).
Proof.
  intros Hk. unfold claim_connect. destruct (reports mask sf).
  - change (sock.events (sock.set_connect_error 0 ?s)) with (sock.events s).
    change FD_CONNECT with (2 ^ 4). now rewrite testbit_clear_events.
  - now rewrite andb_true_r.
Qed.

Lemma socket_update_events_run (f : Z) (sf : socket_file) (w : world)
    (mask : Z) (ev : WSANETWORKEVENTS) (rest : list reply) :
  files w !! f = Some (SocketFile sf) →
  script w = Events ev :: rest →
  socket_update_events f mask w
  = Ret (sock.events (absorb ev sf))
        (with_file f (claim_connect mask (absorb ev sf))
           (if reports mask (absorb ev sf)
            then set_last_error (sock.connect_error (absorb ev sf))
                   (enumerated sf rest w)
            else enumerated sf rest w)).
Proof.
  intros Hf Hs.
  pose proof (socket_update_events_with_file f sf w mask ev rest Hs) as H.
  now rewrite (with_file_id _ _ _ Hf) in H.
Qed.

(** ** The connect completion *)

(** C6.  When socket_update_events is asked to report the connect class
    and the connect-completed bit is set (it was already, or the host has
    just notified it), the call returns a mask with the bit, makes the
    captured connect error the current error, and clears both the bit and
    the stored error.  A second such call, the host having notified no
    connect completion in between, returns a mask without the bit and
    leaves the current error alone. *)
Theorem connect_completion_surfaced_once (f mask : Z) (sf : socket_file)
    (w : world) (ev1 ev2 : WSANETWORKEVENTS) (rest : list reply) :
  files w !! f = Some (SocketFile sf) →
  script w = Events ev1 :: Events ev2 :: rest →
  nonzero (Z.land mask FD_CONNECT) = true →
  nonzero (Z.land (sock.events sf) FD_CONNECT)
    || nonzero (Z.land (lNetworkEvents ev1) FD_CONNECT) = true →
  nonzero (Z.land (lNetworkEvents ev2) FD_CONNECT) = false →
  ∃ e1 w1 sf1 e2 w2 sf2,
    socket_update_events f mask w = Ret e1 w1 ∧
    nonzero (Z.land e1 FD_CONNECT) = true ∧
    last_error w1
      = (if nonzero (Z.land (lNetworkEvents ev1) FD_CONNECT)
         then nth (Z.to_nat FD_CONNECT_BIT) (iErrorCode ev1) 0
         else sock.connect_error sf) ∧
    files w1 !! f = Some (SocketFile sf1) ∧
    nonzero (Z.land (sock.events sf1) FD_CONNECT) = false ∧
    sock.connect_error sf1 = 0 ∧
    socket_update_events f mask w1 = Ret e2 w2 ∧
    nonzero (Z.land e2 FD_CONNECT) = false ∧
    last_error w2 = last_error w1 ∧
    files w2 !! f = Some (SocketFile sf2) ∧
    nonzero (Z.land (sock.events sf2) FD_CONNECT) = false ∧
    sock.connect_error sf2 = 0.
Proof.
  change FD_CONNECT with (2 ^ 4). rewrite !nonzero_land_bit by lia.
  intros Hf Hs Hmask Hset Hquiet.
  set (sf0 := absorb ev1 sf).
  assert (Hbit0 : Z.testbit (sock.events sf0) 4 = true).
  { unfold sf0. rewrite testbit_absorb by lia.
    apply orb_true_iff in Hset as [H|H]; rewrite H;
      [reflexivity | apply orb_true_r]. }
  assert (Hrep : reports mask sf0 = true)
    by (rewrite reports_testbit, Hmask, Hbit0; reflexivity).
  set (sf1 := claim_connect mask sf0).
  assert (Hbit1 : Z.testbit (sock.events sf1) 4 = false).
  { unfold sf1. rewrite testbit_claim_connect, Hrep, Hbit0 by lia.
    reflexivity. }
  assert (Herr1 : sock.connect_error sf1 = 0).
  { unfold sf1, claim_connect. rewrite Hrep. reflexivity. }
  set (w1' := set_last_error (sock.connect_error sf0)
                (enumerated sf (Events ev2 :: rest) w)).
  set (sf2 := absorb ev2 sf1).
  assert (Hbit2 : Z.testbit (sock.events sf2) 4 = false).
  { unfold sf2. rewrite testbit_absorb, Hbit1, Hquiet by lia. reflexivity. }
  assert (Hrep2 : reports mask sf2 = false)
    by (rewrite reports_testbit, Hbit2; apply andb_false_r).
  assert (Herr2 : sock.connect_error sf2 = 0).
  { unfold sf2. rewrite connect_error_absorb.
    change FD_CONNECT with (2 ^ 4). rewrite nonzero_land_bit, Hquiet by lia.
    exact Herr1. }
  exists (sock.events sf0), (with_file f sf1 w1'), sf1,
         (sock.events sf2), (with_file f sf2 (enumerated sf1 rest w1')), sf2.
  rewrite !nonzero_land_bit by lia.
  repeat split; try assumption.
  - rewrite (socket_update_events_run f sf w mask ev1 _ Hf Hs).
    fold sf0. rewrite Hrep. reflexivity.
  - unfold w1', sf0. cbn [last_error set_last_error with_file set_files].
    rewrite connect_error_absorb. change FD_CONNECT with (2 ^ 4).
    now rewrite nonzero_land_bit by lia.
  - apply files_with_file.
  - rewrite (socket_update_events_with_file f sf1 w1' mask ev2 rest)
      by reflexivity.
    fold sf2. rewrite Hrep2. unfold claim_connect. rewrite Hrep2.
    reflexivity.
  - apply files_with_file.
Qed.

Lemma connect_completion_surfaced_once_witness :
  let w := a_world (blank_file 0 0)
             [net_events FD_CONNECT WSAECONNREFUSED; net_events FD_WRITE 0] in
  ∃ e1 w1 sf1 e2 w2 sf2,
    socket_update_events 3 FD_CONNECT w = Ret e1 w1 ∧
    nonzero (Z.land e1 FD_CONNECT) = true ∧
    last_error w1 = WSAECONNREFUSED ∧
    files w1 !! 3 = Some (SocketFile sf1) ∧
    nonzero (Z.land (sock.events sf1) FD_CONNECT) = false ∧
    sock.connect_error sf1 = 0 ∧
    socket_update_events 3 FD_CONNECT w1 = Ret e2 w2 ∧
    nonzero (Z.land e2 FD_CONNECT) = false ∧
    last_error w2 = last_error w1 ∧
    files w2 !! 3 = Some (SocketFile sf2) ∧
    nonzero (Z.land (sock.events sf2) FD_CONNECT) = false ∧
    sock.connect_error sf2 = 0.
Proof.
  intros w.
  apply (connect_completion_surfaced_once 3 FD_CONNECT (blank_file 0 0) w
           {| lNetworkEvents := FD_CONNECT;
              iErrorCode := [0; 0; 0; 0; WSAECONNREFUSED] |}
           {| lNetworkEvents := FD_WRITE; iErrorCode := [0; 0; 0; 0; 0] |} []);
    reflexivity.
Defined.

(** ** sendmmsg *)

Lemma mm_check_read_iov_run (iov : list iovec) (w : world) :
  mm_check_read_iov iov w = Ret (readable_iov w iov) w.
Proof.
  induction iov as [|v iov IH]; [reflexivity|].
  cbn [mm_check_read_iov readable_iov forallb].
  unfold mbind, M_bind, mm_check_read, get.
  destruct (mem_readable w (iov_base v) (iov_len v)); cbn; [exact IH|reflexivity].
Qed.

Lemma mm_check_read_msghdr_run (msg : Z) (msg_at : msghdr) (w : world) :
  mm_check_read_msghdr msg msg_at w = Ret (readable_msghdr w msg msg_at) w.
Proof.
  unfold mm_check_read_msghdr, readable_msghdr, mbind, M_bind,
    mm_check_read, get.
  destruct (mem_readable w msg sizeof_msghdr); cbn; [|reflexivity].
  destruct (nonzero (msg_iovlen msg_at)); cbn;
    [destruct (mem_readable w (msg_iov msg_at) _); cbn; [|reflexivity]|];
    (destruct (nonzero (msg_controllen msg_at)); cbn;
     [destruct (mem_readable w (msg_control msg_at) _); cbn; [|reflexivity]|]);
    apply mm_check_read_iov_run.
Qed.

Lemma sendmmsg_check_loop_run (msgvec i : Z) (todo : list mmsghdr) (w : world) :
  sendmmsg_check_loop msgvec i todo w = Ret (readable_msgvec w msgvec i todo) w.
Proof.
  revert i. induction todo as [|m todo IH]; intros i; [reflexivity|].
  cbn [sendmmsg_check_loop readable_msgvec].
  run (mm_check_read_msghdr_run (msgvec + sizeof_mmsghdr * i) (msg_hdr m) w).
  destruct (readable_msghdr w _ _); cbn; [apply IH|reflexivity].
Qed.

(** A segment that cannot be read makes the whole vector fail validation. *)
Lemma readable_msgvec_segment (w : world) (msgvec i : Z) (todo : list mmsghdr)
    (m : mmsghdr) (seg : iovec) :
  m ∈ todo → seg ∈ msg_iov_at (msg_hdr m) →
  mem_readable w (iov_base seg) (iov_len seg) = false →
  readable_msgvec w msgvec i todo = false.
Proof.
  intros Hm Hseg Hbad. revert i.
  induction Hm as [m todo|m m' todo Hm IH]; intros i; cbn.
  - unfold readable_msghdr, readable_iov.
    assert (forallb (λ v, mem_readable w (iov_base v) (iov_len v))
              (msg_iov_at (msg_hdr m)) = false) as ->.
    { apply not_true_is_false. intros Hall.
      rewrite forallb_forall in Hall.
      rewrite (Hall seg) in Hbad; [discriminate|].
      now apply list_elem_of_In. }
    now rewrite andb_false_r.
  - rewrite (IH Hseg). apply andb_false_r.
Qed.

Lemma store_lens_app (lens : list Z) (pre rest : list mmsghdr) :
  length lens = length pre →
  store_lens lens (pre ++ rest) = store_lens lens pre ++ rest.
Proof.
  revert pre. induction lens as [|len lens IH]; intros [|m pre] Hl;
    try discriminate; cbn in *.
  - now destruct rest.
  - f_equal. apply IH. lia.
Qed.

Lemma store_lens_snoc (lens : list Z) (len : Z) (pre post : list mmsghdr)
    (m : mmsghdr) :
  length lens = length pre →
  store_lens (lens ++ [len]) (pre ++ m :: post)
  = store_lens lens pre ++ set_msg_len len m :: post.
Proof.
  revert pre. induction lens as [|l lens IH]; intros [|m' pre] Hl;
    try discriminate; cbn in *.
  - now destruct post.
  - f_equal. apply IH. lia.
Qed.

Lemma sends_length (f flags : Z) msgs w lens w' :
  sends f flags msgs w lens w' → length lens = length msgs.
Proof. induction 1; cbn; congruence. Qed.

(** One turn of the second loop of sys_sendmmsg on a message sent in full. *)
Lemma send_loop_step (f flags : Z) (m : mmsghdr) (todo done : list mmsghdr)
    (w w1 : world) (len : Z) :
  socket_sendmsg f (msg_hdr m) flags w = Ret len w1 →
  sent_in_full m len →
  sendmmsg_send_loop f flags (m :: todo) (length done) (done ++ m :: todo) w
  = sendmmsg_send_loop f flags todo (length (done ++ [set_msg_len len m]))
      ((done ++ [set_msg_len len m]) ++ todo) w1.
Proof.
  intros Hsend [Hpos Hfull]. cbn [sendmmsg_send_loop]. run Hsend.
  replace (len <? 0) with false by (symmetry; apply Z.ltb_ge; lia).
  replace (len =? 0) with false by (symmetry; apply Z.eqb_neq; lia).
  replace (len <=? 0) with false by (symmetry; apply Z.leb_gt; lia).
  rewrite !andb_false_r. cbv zeta.
  replace (len <? iov_total (msg_iov_at (msg_hdr m))) with false
    by (symmetry; apply Z.ltb_ge; lia).
  rewrite length_app, Nat.add_1_r.
  rewrite insert_app_r_alt, Nat.sub_diag by lia. cbn [insert list_insert].
  now rewrite <- app_assoc.
Qed.

Lemma send_loop_full (f flags : Z) (todo : list mmsghdr) (w w' : world)
    (lens : list Z) :
  sends f flags todo w lens w' →
  Forall2 sent_in_full todo lens →
  ∀ done,
    sendmmsg_send_loop f flags todo (length done) (done ++ todo) w
    = Ret (Z.of_nat (length (done ++ todo)), done ++ store_lens lens todo) w'.
Proof.
  induction 1 as [w|m msgs w len w1 lens w2 Hsend Hrest IH]; intros Hfull done.
  - reflexivity.
  - apply Forall2_cons in Hfull as [Hm Hfull].
    rewrite (send_loop_step _ _ _ _ _ _ _ _ Hsend Hm).
    rewrite (IH Hfull). do 2 f_equal.
    + rewrite !length_app. cbn. lia.
    + now rewrite <- app_assoc.
Qed.

Lemma send_loop_fails (f flags : Z) (pre post : list mmsghdr) (m : mmsghdr)
    (w w1 w2 : world) (lens : list Z) (len : Z) :
  sends f flags pre w lens w1 →
  Forall2 sent_in_full pre lens →
  socket_sendmsg f (msg_hdr m) flags w1 = Ret len w2 →
  len <= 0 →
  ∀ done, (0 < length done + length pre)%nat →
    sendmmsg_send_loop f flags (pre ++ m :: post) (length done)
      (done ++ pre ++ m :: post) w
    = Ret (Z.of_nat (length done + length pre),
           done ++ store_lens lens pre ++ m :: post) w2.
Proof.
  intros Hpre Hfull Hsend Hlen.
  induction Hpre as [w|m' msgs w len' w1 lens w1' Hsend' Hrest IH];
    intros done Hk.
  - cbn [app sendmmsg_send_loop length] in *. run Hsend.
    replace (Z.of_nat (length done) =? 0) with false
      by (symmetry; apply Z.eqb_neq; lia).
    cbn [andb].
    replace (len <=? 0) with true by (symmetry; apply Z.leb_le; lia).
    now rewrite Nat.add_0_r.
  - apply Forall2_cons in Hfull as [Hm Hfull].
    cbn [app]. rewrite (send_loop_step _ _ _ _ _ _ _ _ Hsend' Hm).
    rewrite (IH Hfull Hsend) by (rewrite length_app; cbn; lia).
    rewrite length_app. cbn [length store_lens].
    rewrite <- !app_assoc. cbn [app]. do 2 f_equal. lia.
Qed.

Lemma send_loop_partial (f flags : Z) (pre post : list mmsghdr) (m : mmsghdr)
    (w w1 w2 : world) (lens : list Z) (len : Z) :
  sends f flags pre w lens w1 →
  Forall2 sent_in_full pre lens →
  socket_sendmsg f (msg_hdr m) flags w1 = Ret len w2 →
  0 < len < iov_total (msg_iov_at (msg_hdr m)) →
  ∀ done,
    sendmmsg_send_loop f flags (pre ++ m :: post) (length done)
      (done ++ pre ++ m :: post) w
    = Ret (Z.of_nat (length done + length pre) + 1,
           done ++ store_lens lens pre ++ set_msg_len len m :: post) w2.
Proof.
  intros Hpre Hfull Hsend Hlen.
  induction Hpre as [w|m' msgs w len' w1 lens w1' Hsend' Hrest IH];
    intros done.
  - cbn [app sendmmsg_send_loop length] in *. run Hsend.
    replace (len <? 0) with false by (symmetry; apply Z.ltb_ge; lia).
    replace (len =? 0) with false by (symmetry; apply Z.eqb_neq; lia).
    replace (len <=? 0) with false by (symmetry; apply Z.leb_gt; lia).
    rewrite !andb_false_r. cbv zeta.
    replace (len <? iov_total (msg_iov_at (msg_hdr m))) with true
      by (symmetry; apply Z.ltb_lt; lia).
    rewrite insert_app_r_alt, Nat.sub_diag, Nat.add_0_r by lia.
    reflexivity.
  - apply Forall2_cons in Hfull as [Hm Hfull].
    cbn [app]. rewrite (send_loop_step _ _ _ _ _ _ _ _ Hsend' Hm).
    rewrite (IH Hfull Hsend).
    rewrite length_app. cbn [length store_lens].
    rewrite <- !app_assoc. cbn [app]. do 2 f_equal. lia.
Qed.

(** sys_sendmmsg up to its second loop: the vector is writable, every
    header validates and the descriptor is a socket file. *)
Lemma sys_sendmmsg_enters_loop (sockfd msgvec flags : Z) (sf : socket_file)
    (v : list mmsghdr) (w : world) :
  files w !! sockfd = Some (SocketFile sf) →
  mem_writable w msgvec (to_size_t (sizeof_mmsghdr * Z.of_nat (length v)))
    = true →
  readable_msgvec w msgvec 0 v = true →
  sys_sendmmsg sockfd msgvec v flags w
  = sendmmsg_send_loop sockfd flags v 0 v w.
Proof.
  intros Hf Hw Hr. unfold sys_sendmmsg. cbv zeta.
  unfold mbind at 1, M_bind at 1, mm_check_write, get. rewrite Hw. cbn [negb].
  run (sendmmsg_check_loop_run msgvec 0 v w). rewrite Hr. cbn [negb].
  unfold get_sockfd, vfs_get, get, mbind, M_bind. rewrite Hf. reflexivity.
Qed.

(** C2 (amended).  On a vector that is writable and a descriptor that is a
    socket file: (a) a message with a segment that cannot be read makes
    sys_sendmmsg return [-EFAULT] before anything is sent, wherever the
    message stands in the vector; when every header validates, (b) if all
    the messages are sent in full the call returns their number, three for
    three messages; (c) if a message beyond the first fails or sends
    nothing, the call returns the number of messages before it; (d) if a
    message sends fewer bytes than its total length, the call returns the
    number of messages before it plus one: the partly sent message is
    counted. *)
Theorem sendmmsg_counts (sockfd msgvec flags : Z) (sf : socket_file)
    (v : list mmsghdr) (w : world) :
  files w !! sockfd = Some (SocketFile sf) →
  mem_writable w msgvec (to_size_t (sizeof_mmsghdr * Z.of_nat (length v)))
    = true →
  (∀ m seg,
     m ∈ v → seg ∈ msg_iov_at (msg_hdr m) →
     mem_readable w (iov_base seg) (iov_len seg) = false →
     sys_sendmmsg sockfd msgvec v flags w = Ret (- EFAULT, v) w) ∧
  (readable_msgvec w msgvec 0 v = true →
   (∀ lens w',
      sends sockfd flags v w lens w' →
      Forall2 sent_in_full v lens →
      sys_sendmmsg sockfd msgvec v flags w
      = Ret (Z.of_nat (length v), store_lens lens v) w') ∧
   (∀ pre m post lens w1 len w2,
      v = pre ++ m :: post → pre ≠ [] →
      sends sockfd flags pre w lens w1 →
      Forall2 sent_in_full pre lens →
      socket_sendmsg sockfd (msg_hdr m) flags w1 = Ret len w2 →
      len <= 0 →
      sys_sendmmsg sockfd msgvec v flags w
      = Ret (Z.of_nat (length pre), store_lens lens v) w2) ∧
   (∀ pre m post lens w1 len w2,
      v = pre ++ m :: post →
      sends sockfd flags pre w lens w1 →
      Forall2 sent_in_full pre lens →
      socket_sendmsg sockfd (msg_hdr m) flags w1 = Ret len w2 →
      0 < len < iov_total (msg_iov_at (msg_hdr m)) →
      sys_sendmmsg sockfd msgvec v flags w
      = Ret (Z.of_nat (length pre) + 1, store_lens (lens ++ [len]) v) w2)).
Proof.
  intros Hf Hw. split.
  - intros m seg Hm Hseg Hbad. unfold sys_sendmmsg. cbv zeta.
    unfold mbind at 1, M_bind at 1, mm_check_write, get. rewrite Hw.
    cbn [negb].
    run (sendmmsg_check_loop_run msgvec 0 v w).
    now rewrite (readable_msgvec_segment w msgvec 0 v m seg Hm Hseg Hbad).
  - intros Hr.
    rewrite (sys_sendmmsg_enters_loop sockfd msgvec flags sf v w Hf Hw Hr).
    repeat split.
    + intros lens w' Hsends Hfull.
      apply (send_loop_full _ _ _ _ _ _ Hsends Hfull []).
    + intros pre m post lens w1 len w2 -> Hpre Hsends Hfull Hsend Hlen.
      pose proof (send_loop_fails _ _ pre post m _ _ _ _ _
                    Hsends Hfull Hsend Hlen []) as H.
      cbn [app length Nat.add] in H. rewrite H.
      * do 2 f_equal. symmetry.
        apply store_lens_app, (sends_length _ _ _ _ _ _ Hsends).
      * destruct pre; [congruence | cbn; lia].
    + intros pre m post lens w1 len w2 -> Hsends Hfull Hsend Hlen.
      pose proof (send_loop_partial _ _ pre post m _ _ _ _ _
                    Hsends Hfull Hsend Hlen []) as H.
      cbn [app length Nat.add] in H. rewrite H.
      do 2 f_equal. symmetry.
      apply store_lens_snoc, (sends_length _ _ _ _ _ _ Hsends).
Qed.

Lemma sendmmsg_counts_witness :
  let v := [a_msg 5000 5; a_msg 6000 6; a_msg 7000 7] in
  let ready := blank_file 0 FD_WRITE in
  let quiet := net_events 0 0 in
  (* three messages sent in full *)
  returned (sys_sendmmsg 3 9000 v 0
              (a_world ready [quiet; Ok 5; quiet; Ok 6; quiet; Ok 7]))
    = Some (3, store_lens [5; 6; 7] v) ∧
  (* the second message cannot be read *)
  returned (sys_sendmmsg 3 9000 v 0
              (unreadable_at 6064
                 (a_world ready [quiet; Ok 5; quiet; Ok 6; quiet; Ok 7])))
    = Some (- EFAULT, v) ∧
  (* the second message fails *)
  returned (sys_sendmmsg 3 9000 v 0
              (a_world ready [quiet; Ok 5; quiet; Fail WSAECONNRESET]))
    = Some (1, store_lens [5] v) ∧
  (* the second message is sent in part *)
  returned (sys_sendmmsg 3 9000 v 0
              (a_world ready [quiet; Ok 5; quiet; Ok 4]))
    = Some (2, store_lens [5; 4] v).
Proof.
  intros v ready quiet.
  split; [|split; [|split]].
  - pose (w := a_world ready [quiet; Ok 5; quiet; Ok 6; quiet; Ok 7]).
    destruct (sendmmsg_counts 3 9000 0 ready v w eq_refl eq_refl)
      as [_ Hloop].
    subst v.
    destruct (Hloop eq_refl) as (Hall & _ & _).
    fold w.
    erewrite (Hall [5; 6; 7]); [reflexivity| |].
    + repeat (eapply sends_cons; [vm_compute; reflexivity|]). apply sends_nil.
    + repeat (apply Forall2_cons_2; [split; vm_compute; congruence|]).
      apply Forall2_nil_2.
  - pose (w := unreadable_at 6064
                 (a_world ready [quiet; Ok 5; quiet; Ok 6; quiet; Ok 7])).
    destruct (sendmmsg_counts 3 9000 0 ready v w eq_refl eq_refl)
      as [Hbad _].
    subst v.
    fold w.
    rewrite (Hbad (a_msg 6000 6) {| iov_base := 6064; iov_len := 6 |});
      [reflexivity| | |reflexivity].
    + do 2 constructor.
    + cbn. constructor.
  - pose (w := a_world ready [quiet; Ok 5; quiet; Fail WSAECONNRESET]).
    destruct (sendmmsg_counts 3 9000 0 ready v w eq_refl eq_refl)
      as [_ Hloop].
    subst v.
    destruct (Hloop eq_refl) as (_ & Hfail & _).
    fold w.
    eassert (Hs : sends 3 0 [a_msg 5000 5] w [5] _).
    { eapply sends_cons; [vm_compute; reflexivity|]. apply sends_nil. }
    assert (Hfull : Forall2 sent_in_full [a_msg 5000 5] [5]).
    { apply Forall2_cons_2; [split; vm_compute; congruence|].
      apply Forall2_nil_2. }
    match type of Hs with
    | sends _ _ _ _ _ ?w1 =>
        eassert (Hm : socket_sendmsg 3 (msg_hdr (a_msg 6000 6)) 0 w1 = Ret _ _)
          by (vm_compute; reflexivity)
    end.
    rewrite (Hfail [a_msg 5000 5] (a_msg 6000 6) [a_msg 7000 7] [5] _ _ _
               eq_refl ltac:(discriminate) Hs Hfull Hm ltac:(vm_compute; congruence)).
    reflexivity.
  - pose (w := a_world ready [quiet; Ok 5; quiet; Ok 4]).
    destruct (sendmmsg_counts 3 9000 0 ready v w eq_refl eq_refl)
      as [_ Hloop].
    subst v.
    destruct (Hloop eq_refl) as (_ & _ & Hpart).
    fold w.
    eassert (Hs : sends 3 0 [a_msg 5000 5] w [5] _).
    { eapply sends_cons; [vm_compute; reflexivity|]. apply sends_nil. }
    assert (Hfull : Forall2 sent_in_full [a_msg 5000 5] [5]).
    { apply Forall2_cons_2; [split; vm_compute; congruence|].
      apply Forall2_nil_2. }
    match type of Hs with
    | sends _ _ _ _ _ ?w1 =>
        eassert (Hm : socket_sendmsg 3 (msg_hdr (a_msg 6000 6)) 0 w1 = Ret _ _)
          by (vm_compute; reflexivity)
    end.
    rewrite (Hpart [a_msg 5000 5] (a_msg 6000 6) [a_msg 7000 7] [5] _ _ _
               eq_refl Hs Hfull Hm ltac:(split; vm_compute; reflexivity)).
    reflexivity.
Defined.

(** C2 as stated fails: with an unreadable buffer in the second of three
    messages, sys_sendmmsg returns [-EFAULT], not 1, and nothing is sent:
    every header is validated before the first send. *)
Lemma sendmmsg_unreadable_counterexample :
  let v := [a_msg 5000 5; a_msg 6000 6; a_msg 7000 7] in
  let w := unreadable_at 6064
             (a_world (blank_file 0 FD_WRITE)
                [net_events 0 0; Ok 5; net_events 0 0; Ok 6;
                 net_events 0 0; Ok 7]) in
  sys_sendmmsg 3 9000 v 0 w = Ret (- EFAULT, v) w ∧
  returned (sys_sendmmsg 3 9000 v 0 w) ≠ Some (1, store_lens [5] v) ∧
  (∀ v', returned (sys_sendmmsg 3 9000 v 0 w) ≠ Some (1, v')).
Proof.
  intros v w.
  assert (H : sys_sendmmsg 3 9000 v 0 w = Ret (- EFAULT, v) w) by reflexivity.
  rewrite H. cbn [returned]. repeat split; intros; discriminate.
Qed.

Lemma store_lens_lookup (lens : list Z) (v : list mmsghdr) (j : nat)
    (len : Z) (m : mmsghdr) :
  lens !! j = Some len → v !! j = Some m →
  store_lens lens v !! j = Some {| msg_hdr := msg_hdr m; msg_len := len |}.
Proof.
  revert v j. induction lens as [|l lens IH]; intros [|m' v] [|j] Hl Hv;
    try discriminate; cbn in *.
  - injection Hl as ->. injection Hv as ->. reflexivity.
  - now apply IH.
Qed.

Lemma store_lens_headers (lens : list Z) (v : list mmsghdr) :
  msg_hdr <$> store_lens lens v = msg_hdr <$> v.
Proof.
  revert v. induction lens as [|l lens IH]; intros [|m v]; cbn; try reflexivity.
  f_equal. apply IH.
Qed.

Lemma store_lens_lookup_ge (lens : list Z) (v : list mmsghdr) (j : nat) :
  (length lens ≤ j)%nat → store_lens lens v !! j = v !! j.
Proof.
  revert v j. induction lens as [|l lens IH]; intros [|m v] [|j] Hj;
    cbn in *; try reflexivity; try lia.
  apply IH. lia.
Qed.

(** What the second loop has stored when it returns a count. *)
Lemma send_loop_counted (f flags : Z) (todo : list mmsghdr) :
  ∀ (done : list mmsghdr) (w : world) (k : nat) (v' : list mmsghdr)
    (w' : world),
    sendmmsg_send_loop f flags todo (length done) (done ++ todo) w
      = Ret (Z.of_nat k, v') w' →
    ∃ lens w1,
      (length done ≤ k ≤ length done + length todo)%nat ∧
      sends f flags (take (k - length done) todo) w lens w1 ∧
      Forall (λ len, 0 < len) lens ∧
      v' = done ++ store_lens lens todo.
Proof.
  induction todo as [|m todo IH]; intros done w k v' w' Hrun.
  - cbn in Hrun. injection Hrun as Hk <- <-.
    exists [], w. rewrite length_app in Hk. cbn in Hk.
    repeat split; try lia.
    + rewrite take_nil. constructor.
    + constructor.
  - cbn [sendmmsg_send_loop] in Hrun.
    unfold mbind at 1, M_bind at 1 in Hrun.
    destruct (socket_sendmsg f (msg_hdr m) flags w) as [len w1| |] eqn:Hsend;
      try discriminate.
    destruct ((Z.of_nat (length done) =? 0) && (len <? 0)) eqn:E1.
    { injection Hrun as Hk _ _. apply andb_true_iff in E1 as [_ E1].
      apply Z.ltb_lt in E1. lia. }
    destruct ((Z.of_nat (length done) =? 0) && (len =? 0)) eqn:E2.
    { injection Hrun as Hk _ _. unfold EWOULDBLOCK in Hk. lia. }
    destruct (len <=? 0) eqn:E3.
    { injection Hrun as Hk <- <-. apply Nat2Z.inj in Hk. subst k.
      exists [], w. rewrite Nat.sub_diag. cbn [length].
      repeat split; try lia; constructor. }
    apply Z.leb_gt in E3. cbv zeta in Hrun.
    rewrite insert_app_r_alt, Nat.sub_diag in Hrun by lia.
    cbn [insert list_insert] in Hrun.
    destruct (len <? iov_total (msg_iov_at (msg_hdr m))) eqn:E4.
    { injection Hrun as Hk <- <-.
      assert (k = S (length done)) as -> by lia.
      exists [len], w1.
      replace (S (length done) - length done)%nat with 1%nat by lia.
      cbn [length take store_lens].
      repeat split; try lia.
      - econstructor; [exact Hsend | constructor].
      - repeat constructor. exact E3. }
    change (done ++ set_msg_len len m :: todo)
      with (done ++ [set_msg_len len m] ++ todo) in Hrun.
    rewrite app_assoc in Hrun.
    replace (S (length done)) with (length (done ++ [set_msg_len len m]))
      in Hrun by (rewrite length_app; cbn; lia).
    destruct (IH _ _ _ _ _ Hrun) as (lens & w2 & Hk & Hsends & Hpos & ->).
    rewrite length_app in Hk, Hsends. cbn [length] in Hk, Hsends.
    exists (len :: lens), w2.
    replace (k - length done)%nat with (S (k - (length done + 1)))%nat by lia.
    cbn [take store_lens length].
    repeat split; try lia.
    + econstructor; eassumption.
    + constructor; assumption.
    + now rewrite <- app_assoc.
Qed.

(** C9.  sys_sendmmsg writes to the guest's vector.  (a) The whole vector
    must be writable: otherwise the call returns [-EFAULT] and does nothing
    else.  (b) Whenever the call returns a count [k], the first [k]
    messages were handed to socket_sendmsg one after the other, each
    returned a positive byte count, and that count is what the [msg_len]
    field of its entry now holds; nothing else in the vector has changed,
    the message headers in particular. *)
Theorem sendmmsg_stores_msg_len (sockfd msgvec flags : Z) (v : list mmsghdr)
    (w : world) :
  (sizeof_mmsghdr * Z.of_nat (length v) < 2 ^ 32 →
   mem_writable w msgvec (sizeof_mmsghdr * Z.of_nat (length v)) = false →
   sys_sendmmsg sockfd msgvec v flags w = Ret (- EFAULT, v) w) ∧
  (∀ (k : nat) (v' : list mmsghdr) (w' : world),
     sys_sendmmsg sockfd msgvec v flags w = Ret (Z.of_nat k, v') w' →
     ∃ lens w1,
       (k ≤ length v)%nat ∧
       sends sockfd flags (take k v) w lens w1 ∧
       Forall (λ len, 0 < len) lens ∧
       v' = store_lens lens v ∧
       (∀ j len m, lens !! j = Some len → v !! j = Some m →
          v' !! j = Some {| msg_hdr := msg_hdr m; msg_len := len |}) ∧
       (∀ j, (k ≤ j)%nat → v' !! j = v !! j) ∧
       msg_hdr <$> v' = msg_hdr <$> v).
Proof.
  split.
  - intros Hsmall Hw. unfold sys_sendmmsg. cbv zeta.
    unfold mbind at 1, M_bind at 1, mm_check_write, get.
    unfold to_size_t. rewrite Z.mod_small by (unfold sizeof_mmsghdr in *; lia).
    now rewrite Hw.
  - intros k v' w' Hrun. unfold sys_sendmmsg in Hrun. cbv zeta in Hrun.
    unfold mbind at 1, M_bind at 1, mm_check_write, get in Hrun.
    destruct (mem_writable w msgvec _); cbn [negb] in Hrun;
      [|injection Hrun as Hk _ _; unfold EFAULT in Hk; lia].
    rewrite (run_bind _ _ _ _ _ (sendmmsg_check_loop_run msgvec 0 v w)) in Hrun.
    destruct (readable_msgvec w msgvec 0 v); cbn [negb] in Hrun;
      [|injection Hrun as Hk _ _; unfold EFAULT in Hk; lia].
    unfold get_sockfd, vfs_get, get in Hrun.
    unfold mbind at 1 2, M_bind at 1 2 in Hrun.
    destruct (files w !! sockfd) as [[sf|]|]; cbn in Hrun;
      try (injection Hrun as Hk _ _; unfold ENOTSOCK, EBADF in Hk; lia).
    destruct (send_loop_counted sockfd flags v [] w k v' w' Hrun)
      as (lens & w1 & Hk & Hsends & Hpos & ->).
    cbn [length app] in *. rewrite Nat.sub_0_r in Hsends.
    exists lens, w1.
    assert (Hlen : length lens = k).
    { rewrite (sends_length _ _ _ _ _ _ Hsends), length_take. lia. }
    repeat split; try assumption; try lia.
    + intros j len m. apply store_lens_lookup.
    + intros j Hj. apply store_lens_lookup_ge. lia.
    + apply store_lens_headers.
Qed.

Lemma sendmmsg_stores_msg_len_witness :
  let v := [a_msg 5000 5; a_msg 6000 6; a_msg 7000 7] in
  let w := a_world (blank_file 0 FD_WRITE)
             [net_events 0 0; Ok 5; net_events 0 0; Ok 4] in
  sys_sendmmsg 3 9000 v 0 (unwritable w) = Ret (- EFAULT, v) (unwritable w) ∧
  ∃ v' lens w1,
    returned (sys_sendmmsg 3 9000 v 0 w) = Some (2, v') ∧
    sends 3 0 (take 2 v) w lens w1 ∧
    Forall (λ len, 0 < len) lens ∧
    v' = store_lens lens v ∧
    (∀ j len m, lens !! j = Some len → v !! j = Some m →
       v' !! j = Some {| msg_hdr := msg_hdr m; msg_len := len |}) ∧
    (∀ j, (2 ≤ j)%nat → v' !! j = v !! j) ∧
    msg_hdr <$> v' = msg_hdr <$> v.
Proof.
  intros v w. split.
  - apply (proj1 (sendmmsg_stores_msg_len 3 9000 0 v (unwritable w)));
      reflexivity.
  - pose (o := sys_sendmmsg 3 9000 v 0 w).
    assert (Hrun : o = Ret (Z.of_nat 2,
                            [set_msg_len 5 (a_msg 5000 5);
                             set_msg_len 4 (a_msg 6000 6); a_msg 7000 7])
                         (world_of o)) by (vm_compute; reflexivity).
    destruct (proj2 (sendmmsg_stores_msg_len 3 9000 0 v w) _ _ _ Hrun)
      as (lens & w1 & _ & Hsends & Hpos & Hv & Hstored & Hrest & Hhdr).
    eexists _, lens, w1. fold o. rewrite Hrun.
    repeat split; eassumption.
Defined.

(** C10.  When the first message of the vector is sent successfully and
    transfers zero bytes (socket_sendmsg returns 0), sys_sendmmsg returns
    [-EWOULDBLOCK], not the count 1, and stores nothing in the vector: the
    same return value, and the same untouched vector, as when the first
    send would block. *)
Theorem sendmmsg_zero_byte_first_send (sockfd msgvec flags : Z)
    (sf : socket_file) (m : mmsghdr) (more : list mmsghdr) (w w' : world) :
  files w !! sockfd = Some (SocketFile sf) →
  mem_writable w msgvec
    (to_size_t (sizeof_mmsghdr * Z.of_nat (length (m :: more)))) = true →
  readable_msgvec w msgvec 0 (m :: more) = true →
  (socket_sendmsg sockfd (msg_hdr m) flags w = Ret 0 w' →
   sys_sendmmsg sockfd msgvec (m :: more) flags w
   = Ret (- EWOULDBLOCK, m :: more) w') ∧
  (socket_sendmsg sockfd (msg_hdr m) flags w = Ret (- EWOULDBLOCK) w' →
   sys_sendmmsg sockfd msgvec (m :: more) flags w
   = Ret (- EWOULDBLOCK, m :: more) w').
Proof.
  intros Hf Hw Hr.
  rewrite (sys_sendmmsg_enters_loop sockfd msgvec flags sf _ w Hf Hw Hr).
  cbn [sendmmsg_send_loop].
  split; intros Hsend; run Hsend; reflexivity.
Qed.

Lemma sendmmsg_zero_byte_first_send_witness :
  let empty := a_msg 5000 0 in
  let v := [empty; a_msg 6000 6] in
  (* a ready socket, a zero-length datagram that the host accepts *)
  let w := a_world (blank_file 0 FD_WRITE)
             [net_events 0 0; Ok 0; net_events 0 0; Ok 6] in
  (* a non-blocking socket that is not ready *)
  let w_busy := a_world (blank_file O_NONBLOCK 0) [net_events 0 0] in
  returned (socket_sendmsg 3 (msg_hdr empty) 0 w) = Some 0 ∧
  returned (sys_sendmmsg 3 9000 v 0 w) = Some (- EWOULDBLOCK, v) ∧
  returned (sys_sendmmsg 3 9000 v 0 w_busy) = Some (- EWOULDBLOCK, v).
Proof.
  intros empty v w w_busy. split; [reflexivity|]. unfold v. split.
  - pose (o := socket_sendmsg 3 (msg_hdr empty) 0 w).
    assert (Hsend : o = Ret 0 (world_of o)) by (vm_compute; reflexivity).
    rewrite (proj1 (sendmmsg_zero_byte_first_send 3 9000 0
                      (blank_file 0 FD_WRITE) empty [a_msg 6000 6] w
                      (world_of o) eq_refl eq_refl eq_refl) Hsend).
    reflexivity.
  - pose (o := socket_sendmsg 3 (msg_hdr empty) 0 w_busy).
    assert (Hsend : o = Ret (- EWOULDBLOCK) (world_of o))
      by (vm_compute; reflexivity).
    rewrite (proj2 (sendmmsg_zero_byte_first_send 3 9000 0
                      (blank_file O_NONBLOCK 0) empty [a_msg 6000 6] w_busy
                      (world_of o) eq_refl eq_refl eq_refl) Hsend).
    reflexivity.
Defined.

(** ** Waiting for readiness *)

Lemma extends_refl (ok : call * option Z → Prop) (w : world) : extends ok w w.
Proof.
  split; [exists []; split; [now rewrite app_nil_r | constructor] | reflexivity].
Qed.

Lemma extends_trans (ok : call * option Z → Prop) (w1 w2 w3 : world) :
  extends ok w1 w2 → extends ok w2 w3 → extends ok w1 w3.
Proof.
  intros [(e1 & Ht1 & Hok1) Hs1] [(e2 & Ht2 & Hok2) Hs2]. split.
  - exists (e1 ++ e2). rewrite Ht2, Ht1, app_assoc. split; [reflexivity|].
    now apply Forall_app.
  - now transitivity (script w2).
Qed.

Lemma extends_weaken (ok ok' : call * option Z → Prop) (w w' : world) :
  (∀ item, ok item → ok' item) → extends ok w w' → extends ok' w w'.
Proof.
  intros Himp [(e & Ht & Hok) Hs]. split; [|exact Hs].
  exists e. split; [exact Ht|]. eapply Forall_impl; eauto.
Qed.

(** One native call made for a socket file: the trace grows by the call,
    the script loses its first reply. *)
Lemma extends_call (ok : call * option Z → Prop) (w w' : world)
    (item : call * option Z) :
  ok item →
  trace w' = trace w ++ [item] →
  script w' `suffix_of` script w →
  extends ok w w'.
Proof.
  intros Hok Ht Hs. split; [|exact Hs].
  exists [item]. split; [exact Ht | now constructor].
Qed.

Lemma quiet_reads_suffix (w w' : world) :
  script w' `suffix_of` script w → quiet_reads w → quiet_reads w'.
Proof.
  intros [pre Hs] Hq. unfold quiet_reads in *. rewrite Hs in Hq.
  now apply Forall_app in Hq as [_ Hq].
Qed.

Lemma native_with_file (f : Z) (sf : socket_file) (w : world) (c : call) :
  native (Some f) c (with_file f sf w)
  = let w1 := set_trace (trace w ++ [(c, Some (sock.events sf))]) w in
    match script w with
    | [] => Stuck (with_file f sf w1)
    | Fail err :: rest =>
        Ret (Fail err) (with_file f sf (set_last_error err (set_script rest w1)))
    | r :: rest => Ret r (with_file f sf (set_script rest w1))
    end.
Proof.
  unfold native. cbn [option_bind mbind]. rewrite sticky_with_file.
  cbn. destruct (script w) as [|[v|err|ev] rest]; reflexivity.
Qed.

Lemma reports_FD_READ (sf : socket_file) : reports FD_READ sf = false.
Proof. rewrite reports_testbit. reflexivity. Qed.

Lemma reports_FD_WRITE (sf : socket_file) : reports FD_WRITE sf = false.
Proof. rewrite reports_testbit. reflexivity. Qed.

Lemma WSAEnumNetworkEvents_stuck (f : Z) (sf : socket_file) (w : world) :
  (∀ ev rest, script w ≠ Events ev :: rest) →
  ∃ w',
    WSAEnumNetworkEvents f (sock.socket sf) (sock.event_handle sf)
      (with_file f sf w) = Stuck (with_file f sf w') ∧
    trace w' = trace w ++
                 [(call_WSAEnumNetworkEvents (sock.socket sf)
                     (sock.event_handle sf), Some (sock.events sf))] ∧
    script w' `suffix_of` script w.
Proof.
  intros Hs. unfold WSAEnumNetworkEvents, mbind, M_bind.
  rewrite native_with_file. cbv zeta.
  destruct (script w) as [|[v|err|ev] rest] eqn:E.
  - eexists. split; [reflexivity|]. split; [reflexivity|]. cbn. now rewrite E.
  - eexists. split; [reflexivity|]. split; [reflexivity|]. cbn.
    now apply suffix_cons_r.
  - eexists. split; [reflexivity|]. split; [reflexivity|]. cbn.
    now apply suffix_cons_r.
  - now destruct (Hs ev rest).
Qed.

(** socket_update_events for a class other than connect: either the host
    answers with the pending events, which are folded into the mask, or
    the thread is stuck in the call. *)
Lemma socket_update_events_plain (f mask : Z) (sf : socket_file) (w : world) :
  (∀ s, reports mask s = false) →
  (∃ ev rest,
     script w = Events ev :: rest ∧
     socket_update_events f mask (with_file f sf w)
     = Ret (sock.events (absorb ev sf))
           (with_file f (absorb ev sf) (enumerated sf rest w))) ∨
  (∃ w',
     socket_update_events f mask (with_file f sf w)
     = Stuck (with_file f sf w') ∧
     trace w' = trace w ++
                  [(call_WSAEnumNetworkEvents (sock.socket sf)
                      (sock.event_handle sf), Some (sock.events sf))] ∧
     script w' `suffix_of` script w).
Proof.
  intros Hmask.
  destruct (script w) as [|[v|err|ev] rest] eqn:Hs.
  4: { left. exists ev, rest. split; [reflexivity|].
       rewrite (socket_update_events_with_file f sf w mask ev rest Hs).
       unfold claim_connect. now rewrite Hmask. }
  all: right;
    destruct (WSAEnumNetworkEvents_stuck f sf w) as (w' & Hrun & Ht & Hsuf);
    [intros ev' rest'; rewrite Hs; discriminate|];
    exists w'; rewrite <- Hs; split; [|split; assumption];
    unfold socket_update_events;
    run (deref_with_file f sf w);
    apply (run_bind_stuck _ _ _ _ Hrun).
Qed.

Lemma native__with_file (f : Z) (sf : socket_file) (w : world) (c : call) :
  native_ (Some f) c (with_file f sf w)
  = Ret tt (with_file f sf
              (set_trace (trace w ++ [(c, Some (sock.events sf))]) w)).
Proof.
  unfold native_, put. cbn [option_bind mbind]. now rewrite sticky_with_file.
Qed.

Lemma testbit_absorb_mono (ev : WSANETWORKEVENTS) (sf : socket_file) (k : Z) :
  0 ≤ k → Z.testbit (sock.events sf) k = true →
  Z.testbit (sock.events (absorb ev sf)) k = true.
Proof. intros Hk Hb. now rewrite testbit_absorb, Hb by lia. Qed.

Lemma testbit_absorb_quiet (ev : WSANETWORKEVENTS) (sf : socket_file) :
  nonzero (Z.land (lNetworkEvents ev) FD_READ) = false →
  Z.testbit (sock.events (absorb ev sf)) 0 = Z.testbit (sock.events sf) 0.
Proof.
  change FD_READ with (2 ^ 0). rewrite nonzero_land_bit by lia. intros Hq.
  rewrite testbit_absorb, Hq by lia. apply orb_false_r.
Qed.

(** socket_wait_event for a class other than connect, whatever the host
    does: the socket file stays in place, only waiting calls are made, no
    bit of the sticky mask is cleared, the read-ready bit moves only on a
    read notification, and the call returns 0 with the awaited bit set or
    [-EWOULDBLOCK] with the bit clear. *)
Lemma socket_wait_event_loop_spec (f event flags : Z) :
  (∀ s, reports event s = false) →
  ∀ (turns : nat) (sf : socket_file) (w : world),
  ∃ sf' w',
    world_of (socket_wait_event_loop turns f event flags (with_file f sf w))
      = with_file f sf' w' ∧
    extends (λ item, is_wait_call item.1 = true) w w' ∧
    (∀ k, 0 ≤ k → Z.testbit (sock.events sf) k = true →
          Z.testbit (sock.events sf') k = true) ∧
    (quiet_reads w →
       Z.testbit (sock.events sf') 0 = Z.testbit (sock.events sf) 0) ∧
    (∀ r w'',
       socket_wait_event_loop turns f event flags (with_file f sf w)
         = Ret r w'' →
       nonzero (Z.land (sock.events sf') event) = (r =? 0)).
Proof.
  intros Hev. induction turns as [|turns IH]; intros sf w.
  { exists sf, w. split; [reflexivity|]. split; [apply extends_refl|].
    repeat split; auto. intros r w'' H. discriminate H. }
  cbn [socket_wait_event_loop].
  destruct (socket_update_events_plain f event sf w Hev)
    as [(ev & rest & Hs & Hrun) | (w' & Hrun & Ht & Hsuf)].
  2: { rewrite (run_bind_stuck _ _ _ _ Hrun).
       exists sf, w'. split; [reflexivity|]. split.
       - eapply extends_call; [| exact Ht | exact Hsuf]. reflexivity.
       - repeat split; auto. intros r w'' H. discriminate H. }
  run Hrun.
  set (sf1 := absorb ev sf). set (w1 := enumerated sf rest w).
  assert (Hext1 : extends (λ item, is_wait_call item.1 = true) w w1).
  { eapply extends_call; [| reflexivity |].
    - reflexivity.
    - cbn. rewrite Hs. now apply suffix_cons_r. }
  assert (Hmono1 : ∀ k, 0 ≤ k → Z.testbit (sock.events sf) k = true →
                        Z.testbit (sock.events sf1) k = true)
    by (intros; now apply testbit_absorb_mono).
  assert (Hquiet1 : quiet_reads w →
                    Z.testbit (sock.events sf1) 0
                    = Z.testbit (sock.events sf) 0).
  { intros Hq. apply testbit_absorb_quiet.
    unfold quiet_reads in Hq. rewrite Hs in Hq.
    now apply Forall_cons in Hq as [Hq _]. }
  destruct (nonzero (Z.land (sock.events sf1) event)) eqn:Ebit.
  { exists sf1, w1. split; [reflexivity|]. split; [exact Hext1|].
    repeat split; auto. intros r w'' [= <- _]. exact Ebit. }
  run (deref_with_file f sf1 w1).
  destruct (nonzero (Z.land (sock.flags sf1) O_NONBLOCK)
            || nonzero (Z.land flags LINUX_MSG_DONTWAIT)).
  { exists sf1, w1. split; [reflexivity|]. split; [exact Hext1|].
    repeat split; auto. intros r w'' [= <- _]. exact Ebit. }
  run (native__with_file f sf1 w1
         (call_WaitForSingleObject (sock.event_handle sf1))).
  set (w2 := set_trace _ w1).
  destruct (IH sf1 w2) as (sf' & w' & Hw & Hext & Hmono & Hquiet & Hret).
  exists sf', w'. split; [exact Hw|]. split.
  - eapply extends_trans; [exact Hext1|].
    eapply extends_trans; [|exact Hext].
    eapply extends_call; [| reflexivity | reflexivity]. reflexivity.
  - repeat split; auto.
    intros Hq. rewrite Hquiet, Hquiet1; auto.
    eapply quiet_reads_suffix; [|exact Hq]. apply Hext1.
Qed.

Lemma socket_wait_event_spec (f event flags : Z) (sf : socket_file)
    (w : world) :
  (∀ s, reports event s = false) →
  ∃ sf' w',
    world_of (socket_wait_event f event flags (with_file f sf w))
      = with_file f sf' w' ∧
    extends (λ item, is_wait_call item.1 = true) w w' ∧
    (∀ k, 0 ≤ k → Z.testbit (sock.events sf) k = true →
          Z.testbit (sock.events sf') k = true) ∧
    (quiet_reads w →
       Z.testbit (sock.events sf') 0 = Z.testbit (sock.events sf) 0) ∧
    (∀ r w'',
       socket_wait_event f event flags (with_file f sf w) = Ret r w'' →
       nonzero (Z.land (sock.events sf') event) = (r =? 0)).
Proof.
  intros Hev. unfold socket_wait_event, unbounded.
  apply socket_wait_event_loop_spec, Hev.
Qed.

(** ** Receiving *)

Lemma translate_socket_error_frame (host f : Z) (sf : socket_file)
    (w : world) :
  ∃ guest w',
    translate_socket_error host (with_file f sf w)
      = Ret guest (with_file f sf w') ∧
    trace w' = trace w ∧ script w' = script w.
Proof.
  destruct (decide (host ∈ error_mapping_table.*1)) as [Hm|Hm].
  - apply list_elem_of_fmap in Hm as [[h g] [-> Hm]].
    pose proof translate_mapped as Hall. rewrite Forall_forall in Hall.
    exists g, w. now rewrite (Hall (h, g) Hm).
  - eexists _, (set_klog _ w). rewrite translate_unmapped.
    + split; [reflexivity|]. split; reflexivity.
    + apply Forall_forall. intros [h g] Hhg ->. apply Hm.
      apply list_elem_of_fmap. exists (h, g). auto.
Qed.

Lemma received_here (peek : bool) (f : Z) (sf : socket_file) (w : world)
    (o : outcome Z) :
  world_of o = with_file f sf w →
  (peek = false → ∀ r w'', o = Ret r w'' → Z.testbit (sock.events sf) 0 = false) →
  received peek f sf w o.
Proof.
  intros Hw Hret. exists sf, w. split; [exact Hw|].
  split; [apply extends_refl|]. repeat split; auto.
Qed.

Lemma received_after (peek : bool) (f : Z) (sf sf1 : socket_file)
    (w w1 : world) (o : outcome Z) :
  extends (λ item, is_recvfrom item.1 = true →
                   ∃ e, item.2 = Some e ∧ Z.testbit e 0 = peek) w w1 →
  (peek = true → Z.testbit (sock.events sf) 0 = true →
                 Z.testbit (sock.events sf1) 0 = true) →
  (peek = true → quiet_reads w →
     Z.testbit (sock.events sf1) 0 = Z.testbit (sock.events sf) 0) →
  received peek f sf1 w1 o →
  received peek f sf w o.
Proof.
  intros Hext Hmono Hquiet (sf' & w' & Hw & Hext' & Hmono' & Hquiet' & Hret).
  exists sf', w'. split; [exact Hw|].
  split; [eapply extends_trans; eassumption|].
  repeat split; auto.
  intros Hp Hq. rewrite Hquiet', Hquiet; auto.
  eapply quiet_reads_suffix; [|exact Hq]. apply Hext.
Qed.

Lemma socket_recvfrom_loop_spec (f buf len flags src_addr addrlen : Z)
    (peek : bool) :
  nonzero (Z.land flags LINUX_MSG_PEEK) = peek →
  ∀ (turns : nat) (sf : socket_file) (w : world),
    received peek f sf w
      (socket_recvfrom_loop turns f buf len flags src_addr addrlen
         (with_file f sf w)).
Proof.
  intros Hpeek. induction turns as [|turns IH]; intros sf w.
  { apply received_here; [reflexivity|]. intros _ r w'' H. discriminate H. }
  cbn [socket_recvfrom_loop].
  destruct (socket_wait_event_spec f FD_READ flags sf w reports_FD_READ)
    as (sf1 & w1 & Hw & Hext & Hmono & Hquiet & Hret).
  assert (Hext1 : extends (λ item, is_recvfrom item.1 = true →
                     ∃ e, item.2 = Some e ∧ Z.testbit e 0 = peek) w w1).
  { eapply extends_weaken; [|exact Hext].
    intros [c st] Hc Hr. cbn in *. destruct c; discriminate. }
  destruct (socket_wait_event f FD_READ flags (with_file f sf w))
    as [r W1|c W1|W1] eqn:Hwait; cbn [world_of] in Hw; subst W1.
  2: { rewrite (run_bind_exit _ _ _ _ _ Hwait).
       eapply received_after; [exact Hext1| | |];
         [intros _; apply Hmono; lia | intros _; exact Hquiet |].
       apply received_here; [reflexivity|]. intros _ r w'' H. discriminate H. }
  2: { rewrite (run_bind_stuck _ _ _ _ Hwait).
       eapply received_after; [exact Hext1| | |];
         [intros _; apply Hmono; lia | intros _; exact Hquiet |].
       apply received_here; [reflexivity|]. intros _ r w'' H. discriminate H. }
  run Hwait. specialize (Hret r _ eq_refl).
  change FD_READ with (2 ^ 0) in Hret. rewrite nonzero_land_bit in Hret by lia.
  eapply received_after; [exact Hext1| | |];
    [intros _; apply Hmono; lia | intros _; exact Hquiet |].
  clear Hext Hext1 Hmono Hquiet Hwait.
  destruct (r =? 0) eqn:Er; cbn [negb].
  2: { apply received_here; [reflexivity|]. intros _ r' w'' _. exact Hret. }
  run (when_modify_with_file (negb (nonzero (Z.land flags LINUX_MSG_PEEK))) f
         (clear_events FD_READ) sf1 w1).
  rewrite Hpeek.
  set (sf2 := if negb peek then clear_events FD_READ sf1 else sf1).
  assert (Hbit2 : Z.testbit (sock.events sf2) 0 = peek).
  { unfold sf2. destruct peek; cbn [negb]; [exact Hret|].
    change FD_READ with (2 ^ 0). rewrite testbit_clear_events by lia.
    apply andb_false_r. }
  assert (Hpeek2 : peek = true → sf2 = sf1)
    by (intros ->; reflexivity).
  run (deref_with_file f sf2 w1).
  set (item := (call_recvfrom (sock.socket sf2) buf len flags src_addr addrlen,
                Some (sock.events sf2))).
  assert (Hgood : is_recvfrom item.1 = true →
                  ∃ e, item.2 = Some e ∧ Z.testbit e 0 = peek)
    by (intros _; exists (sock.events sf2); split; [reflexivity|exact Hbit2]).
  (* what follows the transfer *)
  assert (Htail : ∀ (r : Z) (w2 : world),
    received peek f sf2 w2
      ((if negb (r =? SOCKET_ERROR) then mret r
        else
          err ← WSAGetLastError;
          if negb (err =? WSAEWOULDBLOCK) then
            log (log_warning "recvfrom() failed, error code: %d" [err]);;
            translate_socket_error err
          else socket_recvfrom_loop turns f buf len flags src_addr addrlen)
         (with_file f sf2 w2))).
  { intros r' w2. destruct (negb (r' =? SOCKET_ERROR)).
    { apply received_here; [reflexivity|]. intros Hp _ _ _.
      now rewrite Hp in Hbit2. }
    unfold mbind at 1, M_bind at 1, WSAGetLastError, get.
    cbn [last_error with_file set_files].
    destruct (negb (last_error w2 =? WSAEWOULDBLOCK)); [|apply IH].
    unfold mbind at 1, M_bind at 1, log, put.
    set (w3 := set_klog _ _).
    destruct (translate_socket_error_frame (last_error w2) f sf2
                (set_klog (klog w2 ++
                   [log_warning "recvfrom() failed, error code: %d"
                      [last_error w2]]) w2))
      as (g & w4 & Hrun & Ht & Hsc).
    change w3 with (with_file f sf2
      (set_klog (klog w2 ++
         [log_warning "recvfrom() failed, error code: %d" [last_error w2]])
         w2)).
    rewrite Hrun.
    exists sf2, w4. split; [reflexivity|]. split.
    - split; [exists []; rewrite Ht, app_nil_r; split; [reflexivity|constructor]|].
      rewrite Hsc. reflexivity.
    - repeat split; auto. intros Hp _ _ _. now rewrite Hp in Hbit2. }
  unfold mbind at 1, M_bind at 1. rewrite native_with_file. cbv zeta.
  fold item.
  assert (Hstep : ∀ w2 o,
    trace w2 = trace w1 ++ [item] →
    script w2 `suffix_of` script w1 →
    received peek f sf2 w2 o → received peek f sf1 w1 o).
  { intros w2 o Ht Hsuf Hrec.
    eapply received_after; [| | |exact Hrec].
    - eapply extends_call; [exact Hgood|exact Ht|exact Hsuf].
    - intros Hp _. now rewrite Hbit2.
    - intros Hp _. now rewrite (Hpeek2 Hp). }
  pose (wA := set_trace (trace w1 ++ [item]) w1).
  destruct (script w1) as [|[v|err|ev] rest] eqn:Hs1.
  - apply (Hstep wA); [reflexivity| |].
    + unfold wA. cbn. now rewrite Hs1.
    + apply received_here; [reflexivity|]. intros _ r' w'' H. discriminate H.
  - apply (Hstep (set_script rest wA)); [reflexivity| |apply (Htail v)].
    cbn. now apply suffix_cons_r.
  - apply (Hstep (set_last_error err (set_script rest wA)));
      [reflexivity| |apply (Htail SOCKET_ERROR)].
    cbn. now apply suffix_cons_r.
  - apply (Hstep (set_script rest wA)); [reflexivity| |].
    + cbn. now apply suffix_cons_r.
    + apply received_here; [reflexivity|]. intros _ r' w'' H. discriminate H.
Qed.

Lemma read_ready_with_file (f : Z) (sf : socket_file) (w : world) :
  read_ready f (with_file f sf w) = Z.testbit (sock.events sf) 0.
Proof.
  unfold read_ready. rewrite sticky_with_file.
  change FD_READ with (2 ^ 0). now rewrite nonzero_land_bit by lia.
Qed.

Lemma socket_recvfrom_received (f buf len flags src_addr addrlen : Z)
    (sf : socket_file) (w : world) :
  received (nonzero (Z.land flags LINUX_MSG_PEEK)) f sf w
    (socket_recvfrom f buf len flags src_addr addrlen (with_file f sf w)).
Proof.
  unfold socket_recvfrom, unbounded.
  set (unsupported := nonzero (Z.land flags (Z.lnot _))).
  set (entry := log_error "flags (0x%x) contains unsupported bits." [flags]).
  pose (w0 := if unsupported then set_klog (klog w ++ [entry]) w else w).
  assert (Hlog : when unsupported (log entry) (with_file f sf w)
                 = Ret tt (with_file f sf w0))
    by (unfold w0; destruct unsupported; reflexivity).
  run Hlog.
  assert (Hext : extends (λ item, is_recvfrom item.1 = true →
                   ∃ e, item.2 = Some e
                        ∧ Z.testbit e 0 = nonzero (Z.land flags LINUX_MSG_PEEK))
                   w w0)
    by (split;
        [exists []; split;
           [unfold w0; destruct unsupported; cbn; now rewrite app_nil_r
           |constructor]
        |unfold w0; destruct unsupported; reflexivity]).
  apply (received_after _ f sf sf w w0); [exact Hext|auto|auto|].
  apply socket_recvfrom_loop_spec. reflexivity.
Qed.

(** C5 (amended).  socket_recvfrom and the sticky read-ready bit, whatever
    the host answers.  Without LINUX_MSG_PEEK, every native recvfrom the
    operation makes is made with the bit already cleared, and when the
    operation returns the bit is clear.  With LINUX_MSG_PEEK, every native
    recvfrom is made with the bit set, the operation never clears the bit,
    and it leaves the bit exactly as it was unless the host had a fresh
    read notification in store (which the readiness update inside the wait
    folds in). *)
Theorem recvfrom_read_ready_bit (f buf len flags src_addr addrlen : Z)
    (sf : socket_file) (w : world) :
  files w !! f = Some (SocketFile sf) →
  let o := socket_recvfrom f buf len flags src_addr addrlen w in
  (nonzero (Z.land flags LINUX_MSG_PEEK) = false →
     Forall (λ item, ∃ e, item.2 = Some e ∧ nonzero (Z.land e FD_READ) = false)
            (recvfrom_calls w (world_of o)) ∧
     (∀ r w', o = Ret r w' → read_ready f w' = false)) ∧
  (nonzero (Z.land flags LINUX_MSG_PEEK) = true →
     Forall (λ item, ∃ e, item.2 = Some e ∧ nonzero (Z.land e FD_READ) = true)
            (recvfrom_calls w (world_of o)) ∧
     (read_ready f w = true → read_ready f (world_of o) = true) ∧
     (quiet_reads w → read_ready f (world_of o) = read_ready f w)).
Proof.
  intros Hf o.
  pose proof (socket_recvfrom_received f buf len flags src_addr addrlen sf w)
    as Hrec.
  rewrite (with_file_id _ _ _ Hf) in Hrec. fold o in Hrec.
  destruct Hrec as (sf' & w' & Hw & [(ext & Ht & Hgood) Hsuf]
                    & Hmono & Hquiet & Hret).
  assert (Hready : read_ready f w = Z.testbit (sock.events sf) 0).
  { rewrite <- (with_file_id _ _ _ Hf) at 1. apply read_ready_with_file. }
  assert (Hcalls : ∀ peek,
    nonzero (Z.land flags LINUX_MSG_PEEK) = peek →
    Forall (λ item, ∃ e, item.2 = Some e ∧ nonzero (Z.land e FD_READ) = peek)
           (recvfrom_calls w (world_of o))).
  { intros peek Hp. unfold recvfrom_calls, new_calls. rewrite Hw.
    cbn [trace with_file set_files]. rewrite Ht, drop_app_length.
    apply Forall_forall. intros item Hin.
    apply list_elem_of_In, filter_In in Hin as [Hin Hr].
    apply list_elem_of_In in Hin. rewrite Forall_forall in Hgood.
    destruct (Hgood item Hin Hr) as (e & He & Hbit).
    exists e. split; [exact He|].
    change FD_READ with (2 ^ 0). rewrite nonzero_land_bit by lia.
    congruence. }
  split; intros Hp.
  - split; [now apply Hcalls|].
    intros r w'' Ho. rewrite Ho in Hw. cbn [world_of] in Hw. subst w''.
    rewrite read_ready_with_file. eapply Hret; eauto.
  - split; [now apply Hcalls|]. rewrite Hw, read_ready_with_file, Hready.
    split; [now apply Hmono | now apply Hquiet].
Qed.

Lemma recvfrom_read_ready_bit_witness :
  let w := a_world (blank_file 0 0) [net_events FD_READ 0; Ok 10] in
  let o := socket_recvfrom 3 7000 64 0 0 0 w in
  let wp := a_world (blank_file 0 FD_READ) [net_events 0 0; Ok 10] in
  let op := socket_recvfrom 3 7000 64 LINUX_MSG_PEEK 0 0 wp in
  (returned o = Some 10 ∧
   recvfrom_calls w (world_of o) = [(call_recvfrom 100 7000 64 0 0 0, Some 0)] ∧
   Forall (λ item, ∃ e, item.2 = Some e ∧ nonzero (Z.land e FD_READ) = false)
          (recvfrom_calls w (world_of o)) ∧
   (∀ r w', o = Ret r w' → read_ready 3 w' = false)) ∧
  (returned op = Some 10 ∧
   recvfrom_calls wp (world_of op)
     = [(call_recvfrom 100 7000 64 LINUX_MSG_PEEK 0 0, Some FD_READ)] ∧
   Forall (λ item, ∃ e, item.2 = Some e ∧ nonzero (Z.land e FD_READ) = true)
          (recvfrom_calls wp (world_of op)) ∧
   read_ready 3 (world_of op) = true ∧
   read_ready 3 (world_of op) = read_ready 3 wp).
Proof.
  intros w o wp op. split.
  - split; [reflexivity|]. split; [reflexivity|].
    apply (proj1 (recvfrom_read_ready_bit 3 7000 64 0 0 0 (blank_file 0 0) w
                    eq_refl) eq_refl).
  - split; [reflexivity|]. split; [reflexivity|].
    destruct (proj2 (recvfrom_read_ready_bit 3 7000 64 LINUX_MSG_PEEK 0 0
                       (blank_file 0 FD_READ) wp eq_refl) eq_refl)
      as (Hcalls & Hkeep & Hsame).
    split; [exact Hcalls|]. split; [exact (Hkeep eq_refl)|].
    apply Hsame. repeat constructor.
Defined.

(** C5 as stated fails for the peek half: a peek receive on a socket whose
    read-ready bit is clear, the host having a read notification pending,
    returns the data and leaves the bit set.  The bit is raised by the
    readiness update inside the wait; the receive does not clear it. *)
Lemma recvfrom_peek_counterexample :
  let w := a_world (blank_file 0 0) [net_events FD_READ 0; Ok 10] in
  let o := socket_recvfrom 3 7000 64 LINUX_MSG_PEEK 0 0 w in
  returned o = Some 10 ∧
  read_ready 3 w = false ∧
  read_ready 3 (world_of o) = true.
Proof. vm_compute. repeat split. Qed.

(** ** Sending *)

(** C4.  In socket_sendmsg a would-block failure of the native transfer
    does not clear the sticky write-ready bit: the statement that should
    do it works on [f->flags].  After the failure the wait still sees the
    bit, and WSASendMsg is called again under the same mask without any
    WaitForSingleObject in between.  On the same kind of host answers
    socket_sendto clears the bit and waits for the next notification. *)
Theorem socket_sendmsg_keeps_write_bit :
  let ready := blank_file 0 FD_WRITE in
  let quiet := net_events 0 0 in
  let msg := msg_hdr (a_msg 5000 5) in
  let wsamsg := {| name := 0; namelen := 0;
                   lpBuffers := [{| len := 5; buf := 5064 |}];
                   dwBufferCount := 1;
                   Control := {| len := 0; buf := 0 |}; dwFlags := 0 |} in
  let o := socket_sendmsg 3 msg 0
             (a_world ready [quiet; Fail WSAEWOULDBLOCK; quiet; Ok 5]) in
  let o' := socket_sendto 3 5064 5 0 0 0
              (a_world ready [quiet; Fail WSAEWOULDBLOCK; quiet;
                              net_events FD_WRITE 0; Ok 5]) in
  (returned o = Some 5 ∧
   trace (world_of o) =
     [ (call_WSAEnumNetworkEvents 100 200, Some FD_WRITE);
       (call_WSASendMsg 100 wsamsg, Some FD_WRITE);
       (call_WSAEnumNetworkEvents 100 200, Some FD_WRITE);
       (call_WSASendMsg 100 wsamsg, Some FD_WRITE) ] ∧
   files (world_of o) !! 3 = Some (SocketFile ready)) ∧
  (returned o' = Some 5 ∧
   trace (world_of o') =
     [ (call_WSAEnumNetworkEvents 100 200, Some FD_WRITE);
       (call_sendto 100 5064 5 0 0 0, Some FD_WRITE);
       (call_WSAEnumNetworkEvents 100 200, Some 0);
       (call_WaitForSingleObject 200, Some 0);
       (call_WSAEnumNetworkEvents 100 200, Some 0);
       (call_sendto 100 5064 5 0 0 0, Some FD_WRITE) ]).
Proof. vm_compute. repeat split. Qed.

(** ** The loops are not cut short

    A loop is run for one turn more than the script has replies.  Every
    turn that goes on to the next one has taken a reply from the script, so
    more turns would change nothing: what stops a loop is the host, never
    the number of turns. *)

Lemma deref_world (f : Z) (w w' : world) (sf : socket_file) :
  deref f w = Ret sf w' → w' = w.
Proof.
  unfold deref. destruct (files w !! f) as [[s|]|]; intros [=]; congruence.
Qed.

Lemma modify_script (f : Z) (g : socket_file → socket_file) (w w' : world) :
  modify f g w = Ret tt w' → script w' = script w.
Proof.
  unfold modify, mbind, M_bind, deref, put.
  destruct (files w !! f) as [[s|]|]; intros [=]; subst; reflexivity.
Qed.

Lemma native_script (on : option Z) (c : call) (w w' : world) (a : reply) :
  native on c w = Ret a w' → (length (script w') < length (script w))%nat.
Proof.
  unfold native. cbn. destruct (script w) as [|[v|err|ev] rest];
    intros [=]; subst; cbn; lia.
Qed.

Lemma socket_update_events_script (f mask : Z) (w w' : world) (e : Z) :
  socket_update_events f mask w = Ret e w' →
  (length (script w') < length (script w))%nat.
Proof.
  intros Hrun.
  destruct (files w !! f) as [[sf|]|] eqn:Hf.
  2,3: unfold socket_update_events, mbind, M_bind, deref in Hrun;
       rewrite Hf in Hrun; discriminate.
  rewrite <- (with_file_id _ _ _ Hf) in Hrun.
  destruct (script w) as [|[v|err|ev] rest] eqn:Hs.
  4: { rewrite (socket_update_events_with_file f sf w mask ev rest Hs) in Hrun.
       injection Hrun as _ <-. destruct (reports mask _); cbn; lia. }
  all: destruct (WSAEnumNetworkEvents_stuck f sf w) as (w1 & Hstuck & _);
    [intros ev' rest'; rewrite Hs; discriminate|];
    unfold socket_update_events in Hrun;
    rewrite (run_bind _ _ _ _ _ (deref_with_file f sf w)) in Hrun;
    rewrite (run_bind_stuck _ _ _ _ Hstuck) in Hrun; discriminate.
Qed.

Lemma socket_wait_event_loop_script (f event flags : Z) (turns : nat) :
  ∀ (w w' : world) (r : Z),
    socket_wait_event_loop turns f event flags w = Ret r w' →
    (length (script w') < length (script w))%nat.
Proof.
  induction turns as [|turns IH]; intros w w' r Hrun; [discriminate|].
  cbn [socket_wait_event_loop] in Hrun. unfold mbind, M_bind in Hrun.
  destruct (socket_update_events f event w) as [e w1| |] eqn:Hup;
    try discriminate.
  apply socket_update_events_script in Hup.
  destruct (nonzero (Z.land e event)); [injection Hrun as _ <-; exact Hup|].
  destruct (deref f w1) as [sf w2| |] eqn:Hd; try discriminate.
  apply deref_world in Hd. subst w2.
  destruct (_ || _); [injection Hrun as _ <-; exact Hup|].
  unfold native_, put in Hrun. apply IH in Hrun. cbn in Hrun. lia.
Qed.

Lemma socket_wait_event_script (f event flags : Z) (w w' : world) (r : Z) :
  socket_wait_event f event flags w = Ret r w' →
  (length (script w') < length (script w))%nat.
Proof. apply socket_wait_event_loop_script. Qed.

Lemma socket_wait_event_turns (f event flags : Z) (turns : nat) :
  ∀ (w : world) (more : nat),
    (length (script w) < turns)%nat →
    socket_wait_event_loop (turns + more) f event flags w
    = socket_wait_event_loop turns f event flags w.
Proof.
  induction turns as [|turns IH]; intros w more Hlen; [lia|].
  cbn [Nat.add socket_wait_event_loop]. unfold mbind, M_bind.
  destruct (socket_update_events f event w) as [e w1| |] eqn:Hup;
    try reflexivity.
  apply socket_update_events_script in Hup.
  destruct (nonzero (Z.land e event)); [reflexivity|].
  destruct (deref f w1) as [sf w2| |] eqn:Hd; try reflexivity.
  apply deref_world in Hd. subst w2.
  destruct (_ || _); [reflexivity|].
  unfold native_, put. apply IH. cbn. lia.
Qed.

Lemma bind_cong {A B} (m : M A) (k1 k2 : A → M B) (w : world) :
  (∀ a w', m w = Ret a w' → k1 a w' = k2 a w') →
  (m ≫= k1) w = (m ≫= k2) w.
Proof. intros H. unfold mbind, M_bind. destruct (m w); auto. Qed.

Lemma value_or_world (failed r : Z) (a : reply) (w w' : world) :
  value_or failed a w = Ret r w' → w' = w.
Proof. destruct a; cbn; intros [=]; congruence. Qed.

Lemma socket_recvfrom_turns (f buf len flags src_addr addrlen : Z)
    (turns : nat) :
  ∀ (w : world) (more : nat),
    (length (script w) < turns)%nat →
    socket_recvfrom_loop (turns + more) f buf len flags src_addr addrlen w
    = socket_recvfrom_loop turns f buf len flags src_addr addrlen w.
Proof.
  induction turns as [|turns IH]; intros w more Hlen; [lia|].
  cbn [Nat.add socket_recvfrom_loop].
  apply bind_cong. intros r w1 Hwait. apply socket_wait_event_script in Hwait.
  destruct (negb (r =? 0)); [reflexivity|].
  apply bind_cong. intros [] w2 Hclear.
  assert (Hs2 : script w2 = script w1).
  { unfold when in Hclear. destruct (negb _).
    - now apply modify_script in Hclear.
    - now injection Hclear as <-. }
  apply bind_cong. intros sf w3 Hd. apply deref_world in Hd. subst w3.
  apply bind_cong. intros a w3 Hn. apply native_script in Hn.
  apply bind_cong. intros r' w4 Hv. apply value_or_world in Hv. subst w4.
  destruct (negb (r' =? SOCKET_ERROR)); [reflexivity|].
  apply bind_cong. intros err w4 [= <- <-].
  destruct (negb (_ =? WSAEWOULDBLOCK)); [reflexivity|].
  apply IH. rewrite Hs2 in Hn. lia.
Qed.

Lemma socket_sendto_turns (f buf len flags dest_addr addrlen : Z)
    (turns : nat) :
  ∀ (w : world) (more : nat),
    (length (script w) < turns)%nat →
    socket_sendto_loop (turns + more) f buf len flags dest_addr addrlen w
    = socket_sendto_loop turns f buf len flags dest_addr addrlen w.
Proof.
  induction turns as [|turns IH]; intros w more Hlen; [lia|].
  cbn [Nat.add socket_sendto_loop].
  apply bind_cong. intros r w1 Hwait. apply socket_wait_event_script in Hwait.
  destruct (negb (r =? 0)); [reflexivity|].
  apply bind_cong. intros sf w2 Hd. apply deref_world in Hd. subst w2.
  apply bind_cong. intros a w3 Hn. apply native_script in Hn.
  apply bind_cong. intros r' w4 Hv. apply value_or_world in Hv. subst w4.
  destruct (negb (r' =? SOCKET_ERROR)); [reflexivity|].
  apply bind_cong. intros err w4 [= <- <-].
  destruct (negb (_ =? WSAEWOULDBLOCK)); [reflexivity|].
  apply bind_cong. intros [] w5 Hm. apply modify_script in Hm.
  apply IH. rewrite Hm. lia.
Qed.

Lemma socket_sendmsg_turns (f flags : Z) (wsamsg : WSAMSG) (turns : nat) :
  ∀ (w : world) (more : nat),
    (length (script w) < turns)%nat →
    socket_sendmsg_loop (turns + more) f wsamsg flags w
    = socket_sendmsg_loop turns f wsamsg flags w.
Proof.
  induction turns as [|turns IH]; intros w more Hlen; [lia|].
  cbn [Nat.add socket_sendmsg_loop].
  apply bind_cong. intros r w1 Hwait. apply socket_wait_event_script in Hwait.
  destruct (negb (r =? 0)); [reflexivity|].
  apply bind_cong. intros sf w2 Hd. apply deref_world in Hd. subst w2.
  apply bind_cong. intros [rc r'] w3 Hn.
  assert (Hs3 : (length (script w3) < length (script w1))%nat).
  { unfold WSASendMsg, mbind, M_bind in Hn.
    destruct (native _ _ w1) as [a w4| |] eqn:Hn'; try discriminate.
    apply native_script in Hn'.
    destruct a; cbn in Hn; try discriminate; injection Hn as _ _ <-; exact Hn'. }
  destruct (negb (rc =? SOCKET_ERROR)); [reflexivity|].
  apply bind_cong. intros err w4 [= <- <-].
  destruct (negb (_ =? WSAEWOULDBLOCK)); [reflexivity|].
  apply bind_cong. intros [] w5 Hm. apply modify_script in Hm.
  apply IH. rewrite Hm. lia.
Qed.

(** * Further properties of socket.c *)

(** ** The readiness engine *)

Lemma claim_connect_fields (mask : Z) (sf : socket_file) :
  sock.flags (claim_connect mask sf) = sock.flags sf ∧
  sock.socket (claim_connect mask sf) = sock.socket sf ∧
  sock.event_handle (claim_connect mask sf) = sock.event_handle sf.
Proof. unfold claim_connect. destruct (reports mask sf); repeat split. Qed.

Lemma trace_enumerated (sf : socket_file) (rest : list reply) (w : world) :
  new_calls w (enumerated sf rest w)
  = [(call_WSAEnumNetworkEvents (sock.socket sf) (sock.event_handle sf),
      Some (sock.events sf))].
Proof. unfold new_calls, enumerated. cbn. apply drop_app_length. Qed.



Lemma reports_0 (sf : socket_file) : reports 0 sf = false.
Proof. rewrite reports_testbit. reflexivity. Qed.

Lemma socket_get_poll_status_with_file (f : Z) (sf : socket_file) (w : world)
    (ev : WSANETWORKEVENTS) (rest : list reply) :
  script w = Events ev :: rest →
  ∃ ret,
    socket_get_poll_status f (with_file f sf w)
    = Ret ret (with_file f (absorb ev sf) (enumerated sf rest w)) ∧
    nonzero (Z.land ret LINUX_POLLIN) = Z.testbit (sock.events (absorb ev sf)) 0 ∧
    nonzero (Z.land ret LINUX_POLLOUT) = Z.testbit (sock.events (absorb ev sf)) 1 ∧
    Z.land ret (Z.lnot (Z.lor LINUX_POLLIN LINUX_POLLOUT)) = 0.
Proof.
  intros Hs. unfold socket_get_poll_status.
  pose proof (socket_update_events_with_file f sf w 0 ev rest Hs) as Hrun.
  unfold claim_connect in Hrun. rewrite reports_0 in Hrun.
  run Hrun. cbv zeta.
  change FD_READ with (2 ^ 0). change FD_WRITE with (2 ^ 1).
  rewrite !nonzero_land_bit by lia.
  eexists. split; [reflexivity|].
  destruct (Z.testbit _ 0), (Z.testbit _ 1); repeat split.
Qed.

(** X2.  socket_get_poll_status over two successive polls: it reports
    POLLIN / POLLOUT exactly for the read and write bits of the mask after
    the update, never a bit that socket_get_poll_handle does not
    advertise; what one poll reports the next one still reports, whatever
    the host notifies in between; and a poll never consumes a connect
    completion nor touches the current error. *)
Theorem socket_get_poll_status_sticky (f : Z) (sf : socket_file) (w : world)
    (ev1 ev2 : WSANETWORKEVENTS) (rest : list reply) :
  files w !! f = Some (SocketFile sf) →
  script w = Events ev1 :: Events ev2 :: rest →
  ∃ r1 w1 r2 w2 sf2 h advertised,
    socket_get_poll_status f w = Ret r1 w1 ∧
    socket_get_poll_status f w1 = Ret r2 w2 ∧
    socket_get_poll_handle f w = Ret (h, advertised) w ∧
    h = sock.event_handle sf ∧
    nonzero (Z.land r1 LINUX_POLLIN)
      = Z.testbit (sock.events sf) 0 || Z.testbit (lNetworkEvents ev1) 0 ∧
    nonzero (Z.land r1 LINUX_POLLOUT)
      = Z.testbit (sock.events sf) 1 || Z.testbit (lNetworkEvents ev1) 1 ∧
    Z.land r1 (Z.lnot advertised) = 0 ∧
    Z.land r2 (Z.lnot advertised) = 0 ∧
    (nonzero (Z.land r1 LINUX_POLLIN) = true →
     nonzero (Z.land r2 LINUX_POLLIN) = true) ∧
    (nonzero (Z.land r1 LINUX_POLLOUT) = true →
     nonzero (Z.land r2 LINUX_POLLOUT) = true) ∧
    last_error w2 = last_error w ∧
    files w2 !! f = Some (SocketFile sf2) ∧
    (Z.testbit (sock.events sf) 4 = true →
     Z.testbit (sock.events sf2) 4 = true ∧
     (Z.testbit (lNetworkEvents ev1) 4 = false →
      Z.testbit (lNetworkEvents ev2) 4 = false →
      sock.connect_error sf2 = sock.connect_error sf)).
Proof.
  intros Hf Hs.
  destruct (socket_get_poll_status_with_file f sf w ev1 _ Hs)
    as (r1 & Hrun1 & Hin1 & Hout1 & Hadv1).
  rewrite (with_file_id _ _ _ Hf) in Hrun1.
  set (sf1 := absorb ev1 sf) in *.
  set (w1 := enumerated sf (Events ev2 :: rest) w) in *.
  destruct (socket_get_poll_status_with_file f sf1 w1 ev2 rest eq_refl)
    as (r2 & Hrun2 & Hin2 & Hout2 & Hadv2).
  exists r1, (with_file f sf1 w1), r2,
    (with_file f (absorb ev2 sf1) (enumerated sf1 rest w1)),
    (absorb ev2 sf1), (sock.event_handle sf),
    (Z.lor LINUX_POLLIN LINUX_POLLOUT).
  split; [exact Hrun1|]. split; [exact Hrun2|].
  split; [unfold socket_get_poll_handle, mbind, M_bind, deref;
          now rewrite Hf|].
  split; [reflexivity|].
  unfold sf1 in Hin1, Hout1. rewrite testbit_absorb in Hin1, Hout1 by lia.
  cbn [bool_decide decide_rel] in Hin1, Hout1.
  split; [rewrite Hin1; f_equal; apply andb_true_r|].
  split; [rewrite Hout1; f_equal; apply andb_true_r|].
  split; [exact Hadv1|]. split; [exact Hadv2|].
  split; [|split].
  - rewrite Hin2. intros H1. apply testbit_absorb_mono; [lia|].
    unfold sf1. rewrite testbit_absorb by lia. rewrite <- Hin1. exact H1.
  - rewrite Hout2. intros H1. apply testbit_absorb_mono; [lia|].
    unfold sf1. rewrite testbit_absorb by lia. rewrite <- Hout1. exact H1.
  - split; [reflexivity|]. split; [apply files_with_file|].
    intros Hc. split.
    + apply testbit_absorb_mono; [lia|].
      apply testbit_absorb_mono; [lia|exact Hc].
    + intros Hq1 Hq2. rewrite connect_error_absorb.
      change FD_CONNECT with (2 ^ 4). rewrite nonzero_land_bit, Hq2 by lia.
      unfold sf1. rewrite connect_error_absorb.
      change FD_CONNECT with (2 ^ 4). now rewrite nonzero_land_bit, Hq1 by lia.
Qed.

Lemma socket_get_poll_status_sticky_witness :
  let w := a_world (blank_file 0 0)
             [net_events FD_READ 0; net_events FD_WRITE 0] in
  ∃ r1 w1 r2 w2,
    socket_get_poll_status 3 w = Ret r1 w1 ∧
    socket_get_poll_status 3 w1 = Ret r2 w2 ∧
    r1 = LINUX_POLLIN ∧
    nonzero (Z.land r2 LINUX_POLLIN) = true ∧
    last_error w2 = last_error w.
Proof.
  intros w.
  destruct (socket_get_poll_status_sticky 3 (blank_file 0 0) w
              {| lNetworkEvents := FD_READ; iErrorCode := [0; 0; 0; 0; 0] |}
              {| lNetworkEvents := FD_WRITE; iErrorCode := [0; 0; 0; 0; 0] |}
              [] eq_refl eq_refl)
    as (r1 & w1 & r2 & w2 & sf2 & h & adv & Hrun1 & Hrun2 & _ & _ & Hin & _
        & _ & _ & Hkeep & _ & Herr & _).
  exists r1, w1, r2, w2. split; [exact Hrun1|]. split; [exact Hrun2|].
  split; [injection Hrun1 as <- _; reflexivity|].
  split; [apply Hkeep; rewrite Hin; reflexivity | exact Herr].
Defined.

(** X3.  socket_wait_event on a socket that must not block (O_NONBLOCK on
    the file, or LINUX_MSG_DONTWAIT in the call): it is one readiness
    update and nothing more.  It returns 0 when the awaited class is in
    the updated mask and [-EWOULDBLOCK] otherwise, and the only native call
    is one WSAEnumNetworkEvents: the thread never waits. *)
Theorem socket_wait_event_nonblocking (f event flags : Z) (sf : socket_file)
    (w : world) (ev : WSANETWORKEVENTS) (rest : list reply) :
  files w !! f = Some (SocketFile sf) →
  script w = Events ev :: rest →
  nonzero (Z.land (sock.flags sf) O_NONBLOCK)
    || nonzero (Z.land flags LINUX_MSG_DONTWAIT) = true →
  ∃ e w1,
    socket_update_events f event w = Ret e w1 ∧
    socket_wait_event f event flags w
    = Ret (if nonzero (Z.land e event) then 0 else - EWOULDBLOCK) w1 ∧
    calls_since w w1
    = [call_WSAEnumNetworkEvents (sock.socket sf) (sock.event_handle sf)].
Proof.
  intros Hf Hs Hnb.
  pose proof (socket_update_events_run f sf w event ev rest Hf Hs) as Hup.
  eexists _, _. split; [exact Hup|].
  split.
  - unfold socket_wait_event, unbounded. cbn [socket_wait_event_loop].
    run Hup. destruct (nonzero (Z.land _ event)); [reflexivity|].
    run (deref_with_file f (claim_connect event (absorb ev sf))
           (if reports event (absorb ev sf)
            then set_last_error (sock.connect_error (absorb ev sf))
                   (enumerated sf rest w)
            else enumerated sf rest w)).
    destruct (claim_connect_fields event (absorb ev sf)) as (-> & _ & _).
    now rewrite flags_absorb, Hnb.
  - unfold calls_since, new_calls.
    destruct (reports event _); cbn; now rewrite drop_app_length.
Qed.

Lemma socket_wait_event_nonblocking_witness :
  let w := a_world (blank_file O_NONBLOCK 0) [net_events FD_WRITE 0] in
  ∃ w1,
    socket_wait_event 3 FD_READ 0 w = Ret (- EWOULDBLOCK) w1 ∧
    calls_since w w1 = [call_WSAEnumNetworkEvents 100 200].
Proof.
  intros w.
  destruct (socket_wait_event_nonblocking 3 FD_READ 0 (blank_file O_NONBLOCK 0)
              w {| lNetworkEvents := FD_WRITE; iErrorCode := [0; 0; 0; 0; 0] |}
              [] eq_refl eq_refl eq_refl)
    as (e & w1 & Hup & Hwait & Hcalls).
  exists w1. split; [|exact Hcalls].
  rewrite Hwait. injection Hup as <- _. reflexivity.
Defined.





(** ** Sending and receiving *)

Lemma when_log_with_file (c : bool) (e : log_entry) (f : Z)
    (sf : socket_file) (w : world) :
  when c (log e) (with_file f sf w)
  = Ret tt (with_file f sf (if c then set_klog (klog w ++ [e]) w else w)).
Proof. destruct c; reflexivity. Qed.

Lemma script_logged (c : bool) (e : log_entry) (w : world) :
  script (if c then set_klog (klog w ++ [e]) w else w) = script w ∧
  trace (if c then set_klog (klog w ++ [e]) w else w) = trace w.
Proof. destruct c; split; reflexivity. Qed.

(** The wait succeeds at once when the class is in the updated mask. *)
Lemma socket_wait_event_ready (f event flags : Z) (sf : socket_file)
    (w : world) (ev : WSANETWORKEVENTS) (rest : list reply) :
  (∀ s, reports event s = false) →
  script w = Events ev :: rest →
  nonzero (Z.land (sock.events (absorb ev sf)) event) = true →
  socket_wait_event f event flags (with_file f sf w)
  = Ret 0 (with_file f (absorb ev sf) (enumerated sf rest w)).
Proof.
  intros Hrep Hs Hbit. unfold socket_wait_event, unbounded.
  cbn [socket_wait_event_loop].
  pose proof (socket_update_events_with_file f sf w event ev rest Hs) as Hup.
  unfold claim_connect in Hup. rewrite Hrep in Hup. run Hup.
  now rewrite Hbit.
Qed.

(** The wait gives up at once when the class is not there and the call
    must not block. *)
Lemma socket_wait_event_busy (f event flags : Z) (sf : socket_file)
    (w : world) (ev : WSANETWORKEVENTS) (rest : list reply) :
  (∀ s, reports event s = false) →
  script w = Events ev :: rest →
  nonzero (Z.land (sock.events (absorb ev sf)) event) = false →
  nonzero (Z.land (sock.flags sf) O_NONBLOCK)
    || nonzero (Z.land flags LINUX_MSG_DONTWAIT) = true →
  socket_wait_event f event flags (with_file f sf w)
  = Ret (- EWOULDBLOCK) (with_file f (absorb ev sf) (enumerated sf rest w)).
Proof.
  intros Hrep Hs Hbit Hnb. unfold socket_wait_event, unbounded.
  cbn [socket_wait_event_loop].
  pose proof (socket_update_events_with_file f sf w event ev rest Hs) as Hup.
  unfold claim_connect in Hup. rewrite Hrep in Hup. run Hup.
  rewrite Hbit.
  run (deref_with_file f (absorb ev sf) (enumerated sf rest w)).
  now rewrite flags_absorb, Hnb.
Qed.

Lemma write_ready_absorb (ev : WSANETWORKEVENTS) (sf : socket_file) :
  nonzero (Z.land (sock.events (absorb ev sf)) FD_WRITE)
  = Z.testbit (sock.events sf) 1 || Z.testbit (lNetworkEvents ev) 1.
Proof.
  change FD_WRITE with (2 ^ 1).
  rewrite nonzero_land_bit, testbit_absorb by lia.
  cbn [bool_decide decide_rel]. now rewrite andb_true_r.
Qed.

Lemma read_ready_absorb (ev : WSANETWORKEVENTS) (sf : socket_file) :
  nonzero (Z.land (sock.events (absorb ev sf)) FD_READ)
  = Z.testbit (sock.events sf) 0 || Z.testbit (lNetworkEvents ev) 0.
Proof.
  change FD_READ with (2 ^ 0).
  rewrite nonzero_land_bit, testbit_absorb by lia.
  cbn [bool_decide decide_rel]. now rewrite andb_true_r.
Qed.

(** One turn of the loop of socket_sendto on a write-ready socket, up to
    the answer of the native sendto. *)
Lemma socket_sendto_loop_turn (turns : nat) (f buf len flags dest_addr addrlen : Z)
    (sf : socket_file) (w : world) (ev : WSANETWORKEVENTS) (a : reply)
    (rest : list reply) :
  script w = Events ev :: a :: rest →
  Z.testbit (sock.events sf) 1 || Z.testbit (lNetworkEvents ev) 1 = true →
  let sf1 := absorb ev sf in
  let w1 := set_script rest
              (set_trace
                 (trace (enumerated sf (a :: rest) w) ++
                    [(call_sendto (sock.socket sf) buf len 0 dest_addr addrlen,
                      Some (sock.events sf1))])
                 (enumerated sf (a :: rest) w)) in
  socket_sendto_loop (S turns) f buf len flags dest_addr addrlen
    (with_file f sf w)
  = match a with
    | Ok n =>
        if negb (n =? SOCKET_ERROR) then Ret n (with_file f sf1 w1)
        else
          (if negb (last_error w =? WSAEWOULDBLOCK) then
             log (log_warning "sendto() failed, error code: %d" [last_error w]);;
             translate_socket_error (last_error w)
           else
             modify f (clear_events FD_WRITE);;
             socket_sendto_loop turns f buf len flags dest_addr addrlen)
            (with_file f sf1 w1)
    | Fail err =>
        (if negb (err =? WSAEWOULDBLOCK) then
           log (log_warning "sendto() failed, error code: %d" [err]);;
           translate_socket_error err
         else
           modify f (clear_events FD_WRITE);;
           socket_sendto_loop turns f buf len flags dest_addr addrlen)
          (with_file f sf1 (set_last_error err w1))
    | Events _ => Stuck (with_file f sf1 w1)
    end.
Proof.
  intros Hs Hbit sf1 w1. cbn [socket_sendto_loop].
  rewrite <- write_ready_absorb in Hbit.
  run (socket_wait_event_ready f FD_WRITE flags sf w ev (a :: rest)
         reports_FD_WRITE Hs Hbit).
  cbn [Z.eqb negb].
  run (deref_with_file f sf1 (enumerated sf (a :: rest) w)).
  unfold mbind at 1, M_bind at 1. rewrite native_with_file. cbv zeta.
  cbn [script enumerated set_script set_trace].
  destruct (handles_absorb ev sf) as [Hso _]. fold sf1 in Hso. rewrite Hso.
  destruct a as [n|err|ev']; cbn [value_or].
  - unfold mbind at 1, M_bind at 1. cbn [mret M_ret].
    destruct (negb (n =? SOCKET_ERROR)); reflexivity.
  - unfold mbind at 1, M_bind at 1. cbn [mret M_ret].
    reflexivity.
  - reflexivity.
Qed.

Lemma translate_socket_error_value (host : Z) :
  ∃ guest, ∀ w, returned (translate_socket_error host w) = Some guest.
Proof.
  destruct (decide (host ∈ error_mapping_table.*1)) as [Hm|Hm].
  - apply list_elem_of_fmap in Hm as [[h g] [-> Hm]].
    pose proof translate_mapped as Hall. rewrite Forall_forall in Hall.
    exists g. intros w. now rewrite (Hall (h, g) Hm).
  - exists (- EIO). intros w. rewrite translate_unmapped; [reflexivity|].
    apply Forall_forall. intros [h g] Hhg ->. apply Hm.
    apply list_elem_of_fmap. exists (h, g). auto.
Qed.

(** X5.  socket_sendto on a socket that is write-ready (the bit is set, or
    the host notifies it now), by the answer of the native sendto.
    Success: the byte count is returned.  A failure other than
    WSAEWOULDBLOCK: the translated guest code is returned, after a warning
    in the log.  In both cases the native call is made with flags 0 (the
    guest flags are not handed to the host), it is the only transfer, and
    the write-ready bit is still set afterwards: a send that works does not
    consume the readiness. *)
Theorem socket_sendto_answers (f buf len flags dest_addr addrlen : Z)
    (sf : socket_file) (w : world) (ev : WSANETWORKEVENTS) (a : reply)
    (rest : list reply) :
  files w !! f = Some (SocketFile sf) →
  script w = Events ev :: a :: rest →
  Z.testbit (sock.events sf) 1 || Z.testbit (lNetworkEvents ev) 1 = true →
  let made := [ call_WSAEnumNetworkEvents (sock.socket sf)
                  (sock.event_handle sf);
                call_sendto (sock.socket sf) buf len 0 dest_addr addrlen ] in
  (∀ n, a = Ok n → n ≠ SOCKET_ERROR →
     ∃ w' e,
       socket_sendto f buf len flags dest_addr addrlen w = Ret n w' ∧
       script w' = rest ∧ calls_since w w' = made ∧
       sticky f w' = Some e ∧ Z.testbit e 1 = true) ∧
  (∀ err, a = Fail err → err ≠ WSAEWOULDBLOCK →
     ∃ guest w' e,
       socket_sendto f buf len flags dest_addr addrlen w = Ret guest w' ∧
       returned (translate_socket_error err w) = Some guest ∧
       log_warning "sendto() failed, error code: %d" [err] ∈ klog w' ∧
       script w' = rest ∧ calls_since w w' = made ∧
       sticky f w' = Some e ∧ Z.testbit e 1 = true).
Proof.
  intros Hf Hs Hbit made.
  assert (Hset : Z.testbit (sock.events (absorb ev sf)) 1 = true).
  { rewrite testbit_absorb by lia. cbn [bool_decide decide_rel].
    now rewrite andb_true_r. }
  assert (Hw : socket_sendto f buf len flags dest_addr addrlen w
               = socket_sendto f buf len flags dest_addr addrlen
                   (with_file f sf w))
    by now rewrite (with_file_id _ _ _ Hf).
  rewrite Hw. clear Hw.
  unfold socket_sendto.
  set (c := nonzero (Z.land flags (Z.lnot LINUX_MSG_DONTWAIT))).
  set (entry := log_error "flags (0x%x) contains unsupported bits." [flags]).
  rewrite !(run_bind _ _ _ _ _ (when_log_with_file c entry f sf w)).
  set (w0 := if c then set_klog (klog w ++ [entry]) w else w).
  destruct (script_logged c entry w) as [Hs0 Ht0]. fold w0 in Hs0, Ht0.
  unfold unbounded.
  rewrite (socket_sendto_loop_turn _ f buf len flags dest_addr addrlen sf w0 ev
             a rest) by (rewrite ?Hs0; assumption).
  split.
  - intros n -> Hn.
    rewrite (proj2 (Z.eqb_neq n SOCKET_ERROR) Hn). cbn [negb].
    eexists _, _. split; [reflexivity|]. split; [reflexivity|].
    split; [|split; [apply sticky_with_file|exact Hset]].
    unfold calls_since, new_calls. cbn. rewrite Ht0, <- app_assoc.
    now rewrite drop_app_length.
  - intros err -> Herr.
    rewrite (proj2 (Z.eqb_neq err WSAEWOULDBLOCK) Herr). cbn [negb].
    destruct (translate_socket_error_value err) as [guest Hguest].
    unfold mbind at 1, M_bind at 1, log, put.
    match goal with
    | |- context [translate_socket_error err (?u (with_file f ?s ?x))] =>
        change (u (with_file f s x))
          with (with_file f s
                  (set_klog (klog x ++
                     [log_warning "sendto() failed, error code: %d" [err]]) x));
        destruct (translate_socket_error_frame err f s
                    (set_klog (klog x ++
                       [log_warning "sendto() failed, error code: %d" [err]]) x))
          as (g & w4 & Hrun & Ht & Hsc)
    end.
    rewrite Hrun.
    pose proof (Hguest w) as Hg.
    assert (g = guest) as ->.
    { pose proof (f_equal returned Hrun) as Hr. rewrite Hguest in Hr.
      now injection Hr. }
    exists guest, (with_file f (absorb ev sf) w4), (sock.events (absorb ev sf)).
    split; [reflexivity|]. split; [exact Hg|].
    assert (Hlog : log_warning "sendto() failed, error code: %d" [err]
                   ∈ klog w4).
    { clear -Hrun.
      destruct (decide (err ∈ error_mapping_table.*1)) as [Hm|Hm].
      - apply list_elem_of_fmap in Hm as [[h g'] [-> Hm]].
        pose proof translate_mapped as Hall. rewrite Forall_forall in Hall.
        rewrite (Hall (h, g') Hm) in Hrun.
        apply (f_equal (λ o, klog (world_of o))) in Hrun. cbn in Hrun.
        rewrite <- Hrun. apply elem_of_app. right. constructor.
      - rewrite translate_unmapped in Hrun.
        + apply (f_equal (λ o, klog (world_of o))) in Hrun. cbn in Hrun.
          rewrite <- Hrun. apply elem_of_app. left.
          apply elem_of_app. right. constructor.
        + apply Forall_forall. intros [h g'] Hhg ->. apply Hm.
          apply list_elem_of_fmap. exists (h, g'). auto. }
    split; [exact Hlog|].
    split; [cbn [script with_file set_files]; rewrite Hsc; reflexivity|].
    split; [|split; [apply sticky_with_file|exact Hset]].
    unfold calls_since, new_calls. cbn. rewrite Ht. cbn.
    rewrite Ht0, <- app_assoc. now rewrite drop_app_length.
Qed.

Lemma socket_sendto_answers_witness :
  let ready := blank_file 0 FD_WRITE in
  (∃ w', socket_sendto 3 5064 5 0 0 0
           (a_world ready [net_events 0 0; Ok 5]) = Ret 5 w') ∧
  (∃ w', socket_sendto 3 5064 5 0 0 0
           (a_world ready [net_events 0 0; Fail WSAECONNRESET])
         = Ret (- ECONNRESET) w').
Proof.
  intros ready. split.
  - destruct (socket_sendto_answers 3 5064 5 0 0 0 ready
                (a_world ready [net_events 0 0; Ok 5])
                {| lNetworkEvents := 0; iErrorCode := [0; 0; 0; 0; 0] |}
                (Ok 5) [] eq_refl eq_refl eq_refl) as [Hok _].
    destruct (Hok 5 eq_refl) as (w' & e & Hrun & _); [discriminate|].
    exists w'. exact Hrun.
  - destruct (socket_sendto_answers 3 5064 5 0 0 0 ready
                (a_world ready [net_events 0 0; Fail WSAECONNRESET])
                {| lNetworkEvents := 0; iErrorCode := [0; 0; 0; 0; 0] |}
                (Fail WSAECONNRESET) [] eq_refl eq_refl eq_refl) as [_ Hfail].
    destruct (Hfail WSAECONNRESET eq_refl) as (g & w' & e & Hrun & Hg & _);
      [discriminate|].
    exists w'. rewrite Hrun. injection Hg as <-. reflexivity.
Defined.

(** X6.  socket_sendto on a non-blocking socket whose send buffer is full:
    the native sendto fails with WSAEWOULDBLOCK, the write-ready bit is
    cleared, the readiness is looked at once more, and when the host has no
    write notification the call returns [-EWOULDBLOCK] at once: the thread
    never waits, and the socket is left not write-ready. *)
Theorem socket_sendto_full_buffer (f buf len flags dest_addr addrlen : Z)
    (sf : socket_file) (w : world) (ev1 ev2 : WSANETWORKEVENTS)
    (rest : list reply) :
  files w !! f = Some (SocketFile sf) →
  script w = Events ev1 :: Fail WSAEWOULDBLOCK :: Events ev2 :: rest →
  nonzero (Z.land (sock.flags sf) O_NONBLOCK)
    || nonzero (Z.land flags LINUX_MSG_DONTWAIT) = true →
  Z.testbit (sock.events sf) 1 || Z.testbit (lNetworkEvents ev1) 1 = true →
  Z.testbit (lNetworkEvents ev2) 1 = false →
  ∃ w' e,
    socket_sendto f buf len flags dest_addr addrlen w = Ret (- EWOULDBLOCK) w' ∧
    script w' = rest ∧
    calls_since w w'
    = [ call_WSAEnumNetworkEvents (sock.socket sf) (sock.event_handle sf);
        call_sendto (sock.socket sf) buf len 0 dest_addr addrlen;
        call_WSAEnumNetworkEvents (sock.socket sf) (sock.event_handle sf) ] ∧
    sticky f w' = Some e ∧ Z.testbit e 1 = false.
Proof.
  intros Hf Hs Hnb Hbit Hquiet.
  assert (Hw : socket_sendto f buf len flags dest_addr addrlen w
               = socket_sendto f buf len flags dest_addr addrlen
                   (with_file f sf w))
    by now rewrite (with_file_id _ _ _ Hf).
  rewrite Hw. clear Hw.
  unfold socket_sendto.
  set (c := nonzero (Z.land flags (Z.lnot LINUX_MSG_DONTWAIT))).
  set (entry := log_error "flags (0x%x) contains unsupported bits." [flags]).
  run (when_log_with_file c entry f sf w).
  set (w0 := if c then set_klog (klog w ++ [entry]) w else w).
  destruct (script_logged c entry w) as [Hs0 Ht0]. fold w0 in Hs0, Ht0.
  unfold unbounded. cbn [script with_file set_files]. rewrite Hs0, Hs.
  cbn [length].
  rewrite (socket_sendto_loop_turn _ f buf len flags dest_addr addrlen sf w0 ev1
             (Fail WSAEWOULDBLOCK) (Events ev2 :: rest))
    by (rewrite ?Hs0; assumption).
  cbn [Z.eqb Pos.eqb negb WSAEWOULDBLOCK].
  match goal with
  | |- context [(modify f _;; _) (with_file f ?s ?x)] =>
      run (modify_with_file f (clear_events FD_WRITE) s x);
      set (sf2 := clear_events FD_WRITE s); set (w2 := x)
  end.
  cbn [socket_sendto_loop].
  assert (Hclear : Z.testbit (sock.events (absorb ev2 sf2)) 1 = false).
  { rewrite testbit_absorb by lia. unfold sf2.
    change FD_WRITE with (2 ^ 1). rewrite testbit_clear_events by lia.
    rewrite Hquiet. cbn. now rewrite andb_false_r. }
  assert (Hbusy : nonzero (Z.land (sock.events (absorb ev2 sf2)) FD_WRITE)
                  = false).
  { change FD_WRITE with (2 ^ 1). now rewrite nonzero_land_bit by lia. }
  assert (Hnb2 : nonzero (Z.land (sock.flags sf2) O_NONBLOCK)
                 || nonzero (Z.land flags LINUX_MSG_DONTWAIT) = true).
  { replace (sock.flags sf2) with (sock.flags sf); [exact Hnb|].
    unfold sf2, clear_events. cbn. now rewrite flags_absorb. }
  run (socket_wait_event_busy f FD_WRITE flags sf2 w2 ev2 rest
         reports_FD_WRITE eq_refl Hbusy Hnb2).
  cbn [Z.eqb negb EWOULDBLOCK Z.opp].
  eexists _, _. split; [reflexivity|]. split; [reflexivity|].
  split; [|split; [apply sticky_with_file|exact Hclear]].
  unfold calls_since, new_calls, w2. cbn. rewrite Ht0, <- !app_assoc.
  rewrite drop_app_length. cbn.
  destruct (handles_absorb ev1 sf) as [-> ->]. reflexivity.
Qed.

Lemma socket_sendto_full_buffer_witness :
  ∃ w' e,
    socket_sendto 3 5064 5 0 0 0
      (a_world (blank_file O_NONBLOCK FD_WRITE)
         [net_events 0 0; Fail WSAEWOULDBLOCK; net_events 0 0])
    = Ret (- EWOULDBLOCK) w' ∧
    sticky 3 w' = Some e ∧ Z.testbit e 1 = false.
Proof.
  destruct (socket_sendto_full_buffer 3 5064 5 0 0 0
              (blank_file O_NONBLOCK FD_WRITE)
              (a_world (blank_file O_NONBLOCK FD_WRITE)
                 [net_events 0 0; Fail WSAEWOULDBLOCK; net_events 0 0])
              {| lNetworkEvents := 0; iErrorCode := [0; 0; 0; 0; 0] |}
              {| lNetworkEvents := 0; iErrorCode := [0; 0; 0; 0; 0] |}
              [] eq_refl eq_refl eq_refl eq_refl eq_refl)
    as (w' & e & Hrun & _ & _ & Hst & Hbit).
  exists w', e. auto.
Defined.

Lemma WSASendMsg_with_file (f : Z) (sf : socket_file) (w : world) (s : Z)
    (wsamsg : WSAMSG) (r n : Z) (rest : list reply) :
  script w = Ok n :: rest →
  WSASendMsg f s wsamsg r (with_file f sf w)
  = Ret (0, n)
        (with_file f sf
           (set_script rest
              (set_trace
                 (trace w ++ [(call_WSASendMsg s wsamsg, Some (sock.events sf))])
                 w))).
Proof.
  intros Hs. unfold WSASendMsg, mbind, M_bind.
  rewrite native_with_file. cbv zeta. now rewrite Hs.
Qed.

(** X7.  socket_sendmsg on a write-ready socket hands the message to
    WSASendMsg as it is: the same address, the segments in the same order
    with the same bases and lengths, the same control buffer, flags 0; and
    it returns the byte count the host reports, whatever it is. *)
Theorem socket_sendmsg_hands_over_segments (f flags : Z) (msg : msghdr)
    (sf : socket_file) (w : world) (ev : WSANETWORKEVENTS) (n : Z)
    (rest : list reply) :
  files w !! f = Some (SocketFile sf) →
  script w = Events ev :: Ok n :: rest →
  Z.testbit (sock.events sf) 1 || Z.testbit (lNetworkEvents ev) 1 = true →
  ∃ w' wsamsg st,
    socket_sendmsg f msg flags w = Ret n w' ∧
    script w' = rest ∧
    last (trace w') = Some (call_WSASendMsg (sock.socket sf) wsamsg, st) ∧
    name wsamsg = msg_name msg ∧
    namelen wsamsg = msg_namelen msg ∧
    buf <$> lpBuffers wsamsg = iov_base <$> msg_iov_at msg ∧
    len <$> lpBuffers wsamsg = iov_len <$> msg_iov_at msg ∧
    dwBufferCount wsamsg = Z.of_nat (length (msg_iov_at msg)) ∧
    Control wsamsg = {| len := msg_controllen msg; buf := msg_control msg |} ∧
    dwFlags wsamsg = 0.
Proof.
  intros Hf Hs Hbit.
  rewrite <- write_ready_absorb in Hbit.
  assert (Hw : socket_sendmsg f msg flags w
               = socket_sendmsg f msg flags (with_file f sf w))
    by now rewrite (with_file_id _ _ _ Hf).
  rewrite Hw. clear Hw. unfold socket_sendmsg.
  set (c := nonzero (Z.land flags (Z.lnot LINUX_MSG_DONTWAIT))).
  set (entry := log_error _ [flags]).
  run (when_log_with_file c entry f sf w).
  set (w0 := if c then set_klog (klog w ++ [entry]) w else w).
  destruct (script_logged c entry w) as [Hs0 Ht0]. fold w0 in Hs0, Ht0.
  cbv zeta. unfold unbounded. cbn [socket_sendmsg_loop].
  rewrite Hs in Hs0.
  run (socket_wait_event_ready f FD_WRITE flags sf w0 ev (Ok n :: rest)
         reports_FD_WRITE Hs0 Hbit).
  cbn [Z.eqb negb].
  run (deref_with_file f (absorb ev sf) (enumerated sf (Ok n :: rest) w0)).
  destruct (handles_absorb ev sf) as [-> _].
  match goal with
  | |- context [(WSASendMsg f ?s ?m ?r ≫= _) (with_file f ?sf1 ?x)] =>
      run (WSASendMsg_with_file f sf1 x s m r n rest eq_refl)
  end.
  cbn [Z.eqb negb SOCKET_ERROR].
  eexists _, _, _. split; [reflexivity|]. split; [reflexivity|].
  split; [cbn; apply last_snoc|].
  cbn. rewrite <- !list_fmap_compose. repeat split; reflexivity.
Qed.

Lemma socket_sendmsg_hands_over_segments_witness :
  let msg := {| msg_name := 800; msg_namelen := 16; msg_iov := 5032;
                msg_iov_at := [ {| iov_base := 6000; iov_len := 3 |};
                                {| iov_base := 7000; iov_len := 4 |} ];
                msg_control := 0; msg_controllen := 0; msg_flags := 0 |} in
  ∃ w' wsamsg st,
    socket_sendmsg 3 msg 0
      (a_world (blank_file 0 0) [net_events FD_WRITE 0; Ok 7]) = Ret 7 w' ∧
    last (trace w') = Some (call_WSASendMsg 100 wsamsg, st) ∧
    lpBuffers wsamsg = [ {| len := 3; buf := 6000 |};
                         {| len := 4; buf := 7000 |} ].
Proof.
  intros msg.
  destruct (socket_sendmsg_hands_over_segments 3 0 msg (blank_file 0 0)
              (a_world (blank_file 0 0) [net_events FD_WRITE 0; Ok 7])
              {| lNetworkEvents := FD_WRITE; iErrorCode := [0; 0; 0; 0; 0] |}
              7 [] eq_refl eq_refl eq_refl)
    as (w' & wsamsg & st & Hrun & _ & Hlast & _ & _ & Hbuf & Hlen & _).
  exists w', wsamsg, st. split; [exact Hrun|]. split; [exact Hlast|].
  destruct (lpBuffers wsamsg) as [|[l1 b1] [|[l2 b2] [|? ?]]];
    try discriminate.
  injection Hbuf as -> ->. injection Hlen as -> ->. reflexivity.
Defined.

(** X8.  socket_recvfrom on a socket that is read-ready (the bit is set, or
    the host notifies it now) when the native recvfrom succeeds: the byte
    count is returned, the guest flags are handed to the host unchanged,
    one transfer is made, and afterwards the read-ready bit is set exactly
    when LINUX_MSG_PEEK was given: a plain receive consumes the readiness,
    a peek keeps it. *)
Theorem socket_recvfrom_returns_count (f buf len flags src_addr addrlen : Z)
    (sf : socket_file) (w : world) (ev : WSANETWORKEVENTS) (n : Z)
    (rest : list reply) :
  files w !! f = Some (SocketFile sf) →
  script w = Events ev :: Ok n :: rest →
  Z.testbit (sock.events sf) 0 || Z.testbit (lNetworkEvents ev) 0 = true →
  n ≠ SOCKET_ERROR →
  ∃ w',
    socket_recvfrom f buf len flags src_addr addrlen w = Ret n w' ∧
    script w' = rest ∧
    calls_since w w'
    = [ call_WSAEnumNetworkEvents (sock.socket sf) (sock.event_handle sf);
        call_recvfrom (sock.socket sf) buf len flags src_addr addrlen ] ∧
    read_ready f w' = nonzero (Z.land flags LINUX_MSG_PEEK).
Proof.
  intros Hf Hs Hbit Hn.
  assert (Hset : Z.testbit (sock.events (absorb ev sf)) 0 = true).
  { rewrite testbit_absorb by lia. cbn [bool_decide decide_rel].
    now rewrite andb_true_r. }
  rewrite <- read_ready_absorb in Hbit.
  assert (Hw : socket_recvfrom f buf len flags src_addr addrlen w
               = socket_recvfrom f buf len flags src_addr addrlen
                   (with_file f sf w))
    by now rewrite (with_file_id _ _ _ Hf).
  rewrite Hw. clear Hw. unfold socket_recvfrom.
  set (c := nonzero (Z.land flags (Z.lnot _))).
  set (entry := log_error _ [flags]).
  run (when_log_with_file c entry f sf w).
  set (w0 := if c then set_klog (klog w ++ [entry]) w else w).
  destruct (script_logged c entry w) as [Hs0 Ht0]. fold w0 in Hs0, Ht0.
  unfold unbounded. cbn [socket_recvfrom_loop].
  rewrite Hs in Hs0.
  run (socket_wait_event_ready f FD_READ flags sf w0 ev (Ok n :: rest)
         reports_FD_READ Hs0 Hbit).
  cbn [Z.eqb negb].
  run (when_modify_with_file (negb (nonzero (Z.land flags LINUX_MSG_PEEK))) f
         (clear_events FD_READ) (absorb ev sf)
         (enumerated sf (Ok n :: rest) w0)).
  set (sf2 := if negb (nonzero (Z.land flags LINUX_MSG_PEEK)) then _ else _).
  run (deref_with_file f sf2 (enumerated sf (Ok n :: rest) w0)).
  unfold mbind at 1, M_bind at 1. rewrite native_with_file. cbv zeta.
  cbn [script enumerated set_script value_or].
  unfold mbind at 1, M_bind at 1. cbn [mret M_ret].
  rewrite (proj2 (Z.eqb_neq n SOCKET_ERROR) Hn). cbn [negb].
  assert (Hso : sock.socket sf2 = sock.socket sf).
  { unfold sf2. destruct (negb _); cbn; apply handles_absorb. }
  rewrite Hso.
  eexists. split; [reflexivity|]. split; [reflexivity|]. split.
  - unfold calls_since, new_calls. cbn. rewrite Ht0, <- app_assoc.
    now rewrite drop_app_length.
  - rewrite read_ready_with_file. unfold sf2.
    destruct (nonzero (Z.land flags LINUX_MSG_PEEK)); cbn [negb];
      [exact Hset|].
    change FD_READ with (2 ^ 0). rewrite testbit_clear_events by lia.
    apply andb_false_r.
Qed.

Lemma socket_recvfrom_returns_count_witness :
  (∃ w', socket_recvfrom 3 7000 64 0 0 0
           (a_world (blank_file 0 0) [net_events FD_READ 0; Ok 10])
         = Ret 10 w' ∧ read_ready 3 w' = false) ∧
  (∃ w', socket_recvfrom 3 7000 64 LINUX_MSG_PEEK 0 0
           (a_world (blank_file 0 0) [net_events FD_READ 0; Ok 10])
         = Ret 10 w' ∧ read_ready 3 w' = true).
Proof.
  split.
  - destruct (socket_recvfrom_returns_count 3 7000 64 0 0 0 (blank_file 0 0)
                (a_world (blank_file 0 0) [net_events FD_READ 0; Ok 10])
                {| lNetworkEvents := FD_READ; iErrorCode := [0; 0; 0; 0; 0] |}
                10 [] eq_refl eq_refl eq_refl)
      as (w' & Hrun & _ & _ & Hready); [discriminate|].
    exists w'. split; [exact Hrun | exact Hready].
  - destruct (socket_recvfrom_returns_count 3 7000 64 LINUX_MSG_PEEK 0 0
                (blank_file 0 0)
                (a_world (blank_file 0 0) [net_events FD_READ 0; Ok 10])
                {| lNetworkEvents := FD_READ; iErrorCode := [0; 0; 0; 0; 0] |}
                10 [] eq_refl eq_refl eq_refl)
      as (w' & Hrun & _ & _ & Hready); [discriminate|].
    exists w'. split; [exact Hrun | exact Hready].
Defined.

(** ** Creating a socket, continued *)

Lemma native_run (on : option Z) (c : call) (w : world) (a : reply)
    (rest : list reply) :
  script w = a :: rest →
  native on c w
  = Ret a
      (let w1 := set_script rest
                   (set_trace (trace w ++ [(c, on ≫= λ f, sticky f w)]) w) in
       match a with
       | Fail err => set_last_error err w1
       | _ => w1
       end).
Proof. intros Hs. unfold native. cbn. rewrite Hs. now destruct a. Qed.

Lemma win32_af_lookup (domain af : Z) :
  (domain, af) ∈ win32_af_table →
  (if domain =? LINUX_AF_UNSPEC then Some AF_UNSPEC
   else if domain =? LINUX_AF_UNIX then Some AF_UNIX
   else if domain =? LINUX_AF_INET then Some AF_INET
   else if domain =? LINUX_AF_INET6 then Some AF_INET6
   else None) = Some af.
Proof.
  unfold win32_af_table. rewrite !elem_of_cons, elem_of_nil.
  intros [H|[H|[H|[H|[]]]]]; injection H as -> ->; reflexivity.
Qed.

Lemma win32_type_lookup (kind ty : Z) :
  (kind, ty) ∈ win32_type_table →
  (if kind =? LINUX_SOCK_DGRAM then Some SOCK_DGRAM
   else if kind =? LINUX_SOCK_STREAM then Some SOCK_STREAM
   else if kind =? LINUX_SOCK_RAW then Some SOCK_RAW
   else if kind =? LINUX_SOCK_RDM then Some SOCK_RDM
   else if kind =? LINUX_SOCK_SEQPACKET then Some SOCK_SEQPACKET
   else None) = Some ty.
Proof.
  unfold win32_type_table. rewrite !elem_of_cons, elem_of_nil.
  intros [H|[H|[H|[H|[H|[]]]]]]; injection H as -> ->; reflexivity.
Qed.

Lemma translate_socket_error_only_logs (host : Z) (w w' : world) (g : Z) :
  translate_socket_error host w = Ret g w' →
  trace w' = trace w ∧ files w' = files w ∧ script w' = script w ∧
  last_error w' = last_error w.
Proof.
  intros Hrun. apply (f_equal world_of) in Hrun. cbn [world_of] in Hrun.
  subst w'.
  destruct (decide (host ∈ error_mapping_table.*1)) as [Hm|Hm].
  - apply list_elem_of_fmap in Hm as [[h g'] [-> Hm]].
    pose proof translate_mapped as Hall. rewrite Forall_forall in Hall.
    rewrite (Hall (h, g') Hm). repeat split.
  - rewrite translate_unmapped; [repeat split|].
    apply Forall_forall. intros [h g'] Hhg ->. apply Hm.
    apply list_elem_of_fmap. exists (h, g'). auto.
Qed.

(** sys_socket up to the native socket() call. *)
Lemma sys_socket_opens (domain type af ty : Z) (w w1 : world) :
  socket_ensure_initialized w = Ret tt w1 →
  (domain, af) ∈ win32_af_table →
  (Z.land type LINUX_SOCK_TYPE_MASK, ty) ∈ win32_type_table →
  sys_socket domain type 0 w
  = (a ← native None (call_socket af ty 0);
     sock ← value_or INVALID_SOCKET a;
     if sock =? INVALID_SOCKET then
       e ← WSAGetLastError;
       log (log_warning "socket() failed, error code: %d" [e]);;
       e ← WSAGetLastError;
       translate_socket_error e
     else
       event_handle ← init_socket_event sock;
       if event_handle =? NULL then
         native_ None (call_closesocket sock);;
         log (log_error "init_socket_event() failed." []);;
         mret (- ENFILE)
       else
         let f := {| sock.ref := 1;
                     sock.socket := sock;
                     sock.event_handle := event_handle;
                     sock.flags := 0;
                     sock.events := 0;
                     sock.connect_error := 0 |} in
         let f := if nonzero (Z.land type O_NONBLOCK)
                  then sock.set_flags (Z.lor (sock.flags f) O_NONBLOCK) f
                  else f in
         fd ← vfs_store_file f (Z.land type O_CLOEXEC >? 0);
         when (fd <? 0) (vfs_release f);;
         mret fd) w1.
Proof.
  intros Hinit Haf Hty. unfold sys_socket. run Hinit.
  rewrite (win32_af_lookup _ _ Haf). cbv zeta.
  rewrite (win32_type_lookup _ _ Hty). reflexivity.
Qed.

Lemma calls_since_app (w w' : world) (items : list call) :
  (trace w').*1 = (trace w).*1 ++ items → calls_since w w' = items.
Proof.
  intros H. unfold calls_since, new_calls. rewrite fmap_drop, H.
  rewrite <- (length_fmap fst (trace w)). apply drop_app_length.
Qed.

(** init_socket_event, by what the host answers. *)
Lemma init_socket_event_no_event (sock e : Z) (rest : list reply) (w : world) :
  script w = Fail e :: rest →
  ∃ w',
    init_socket_event sock w = Ret NULL w' ∧
    (trace w').*1 = (trace w).*1 ++ [call_CreateEventW] ∧
    files w' = files w ∧ script w' = rest.
Proof.
  intros Hs. unfold init_socket_event.
  run (native_run None call_CreateEventW w (Fail e) rest Hs).
  eexists. split; [reflexivity|]. cbn. rewrite fmap_app. repeat split.
Qed.

Lemma init_socket_event_not_armed (sock h e : Z) (rest : list reply)
    (w : world) :
  script w = Ok h :: Fail e :: rest → h ≠ NULL →
  ∃ w',
    init_socket_event sock w = Ret NULL w' ∧
    (trace w').*1
    = (trace w).*1 ++
      [ call_CreateEventW;
        call_WSAEventSelect sock h
          (Z.lor (Z.lor (Z.lor FD_READ FD_WRITE) FD_ACCEPT) FD_CONNECT);
        call_CloseHandle h ] ∧
    files w' = files w ∧ script w' = rest.
Proof.
  intros Hs Hh. unfold init_socket_event.
  run (native_run None call_CreateEventW w (Ok h) _ Hs).
  cbn [value_or]. unfold mbind at 1, M_bind at 1. cbn [mret M_ret].
  rewrite (proj2 (Z.eqb_neq h NULL) Hh).
  match goal with
  | |- context [(native None ?c ≫= _) ?x] =>
      rewrite (run_bind _ _ _ _ _ (native_run None c x (Fail e) rest eq_refl))
  end.
  eexists. split; [reflexivity|]. cbn. rewrite !fmap_app, <- !app_assoc.
  repeat split.
Qed.

Lemma init_socket_event_armed (sock h sel : Z) (rest : list reply)
    (w : world) :
  script w = Ok h :: Ok sel :: rest → h ≠ NULL → sel ≠ SOCKET_ERROR →
  ∃ w',
    init_socket_event sock w = Ret h w' ∧
    (trace w').*1
    = (trace w).*1 ++
      [ call_CreateEventW;
        call_WSAEventSelect sock h
          (Z.lor (Z.lor (Z.lor FD_READ FD_WRITE) FD_ACCEPT) FD_CONNECT) ] ∧
    files w' = files w ∧ script w' = rest.
Proof.
  intros Hs Hh Hsel. unfold init_socket_event.
  run (native_run None call_CreateEventW w (Ok h) _ Hs).
  cbn [value_or]. unfold mbind at 1, M_bind at 1. cbn [mret M_ret].
  rewrite (proj2 (Z.eqb_neq h NULL) Hh).
  match goal with
  | |- context [(native None ?c ≫= _) ?x] =>
      rewrite (run_bind _ _ _ _ _ (native_run None c x (Ok sel) rest eq_refl))
  end.
  cbn [value_or]. unfold mbind at 1, M_bind at 1. cbn [mret M_ret].
  rewrite (proj2 (Z.eqb_neq sel SOCKET_ERROR) Hsel).
  eexists. split; [reflexivity|]. cbn. rewrite !fmap_app, <- !app_assoc.
  repeat split.
Qed.

(** X9.  sys_socket gives back what it took when it cannot finish.  With a
    supported domain and kind and protocol 0: when the native socket()
    fails, its translated error is returned and nothing else is called;
    when the event cannot be created, the native socket is closed and
    [-ENFILE] returned; when the event cannot be armed, the event handle
    and the native socket are both closed and [-ENFILE] returned.  The
    descriptor table is never touched on these paths. *)
Theorem sys_socket_releases_on_failure (domain type af ty sock : Z)
    (w w1 : world) :
  socket_ensure_initialized w = Ret tt w1 →
  (domain, af) ∈ win32_af_table →
  (Z.land type LINUX_SOCK_TYPE_MASK, ty) ∈ win32_type_table →
  sock ≠ INVALID_SOCKET →
  (∀ e rest,
     script w1 = Fail e :: rest →
     ∃ guest w',
       sys_socket domain type 0 w = Ret guest w' ∧
       returned (translate_socket_error e w) = Some guest ∧
       calls_since w1 w' = [call_socket af ty 0] ∧
       files w' = files w1) ∧
  (∀ e rest,
     script w1 = Ok sock :: Fail e :: rest →
     ∃ w',
       sys_socket domain type 0 w = Ret (- ENFILE) w' ∧
       calls_since w1 w'
       = [call_socket af ty 0; call_CreateEventW; call_closesocket sock] ∧
       files w' = files w1) ∧
  (∀ h e rest,
     script w1 = Ok sock :: Ok h :: Fail e :: rest →
     h ≠ NULL →
     ∃ w',
       sys_socket domain type 0 w = Ret (- ENFILE) w' ∧
       calls_since w1 w'
       = [ call_socket af ty 0; call_CreateEventW;
           call_WSAEventSelect sock h
             (Z.lor (Z.lor (Z.lor FD_READ FD_WRITE) FD_ACCEPT) FD_CONNECT);
           call_CloseHandle h; call_closesocket sock ] ∧
       files w' = files w1).
Proof.
  intros Hinit Haf Hty Hsock.
  rewrite (sys_socket_opens domain type af ty w w1 Hinit Haf Hty).
  split; [|split].
  - intros e rest Hs.
    run (native_run None (call_socket af ty 0) w1 (Fail e) rest Hs).
    cbn [value_or]. unfold mbind at 1, M_bind at 1. cbn [mret M_ret].
    cbn [Z.eqb INVALID_SOCKET Pos.eqb].
    unfold mbind at 1, M_bind at 1, WSAGetLastError, get.
    unfold mbind at 1, M_bind at 1, log, put.
    unfold mbind at 1, M_bind at 1. cbn [last_error set_klog set_last_error].
    destruct (translate_socket_error_value e) as [guest Hguest].
    match goal with
    | |- context [translate_socket_error e ?x] =>
        pose proof (Hguest x) as Hx;
        destruct (translate_socket_error e x) as [g w'| |] eqn:Hrun;
        try discriminate; injection Hx as ->;
        destruct (translate_socket_error_only_logs _ _ _ _ Hrun)
          as (Htr & Hfi & _)
    end.
    exists guest, w'. split; [reflexivity|]. split; [apply Hguest|].
    split; [|rewrite Hfi; reflexivity].
    apply calls_since_app. rewrite Htr. cbn. now rewrite fmap_app.
  - intros e rest Hs.
    run (native_run None (call_socket af ty 0) w1 (Ok sock) _ Hs).
    cbn [value_or]. unfold mbind at 1, M_bind at 1. cbn [mret M_ret].
    rewrite (proj2 (Z.eqb_neq sock INVALID_SOCKET) Hsock).
    match goal with
    | |- context [(init_socket_event sock ≫= _) ?x] =>
        destruct (init_socket_event_no_event sock e rest x eq_refl)
          as (w2 & Hrun & Htr & Hfi & Hsc)
    end.
    run Hrun. cbn [Z.eqb NULL].
    eexists. split; [reflexivity|]. split.
    + apply calls_since_app. cbn. rewrite fmap_app, Htr. cbn.
      rewrite fmap_app, <- !app_assoc. reflexivity.
    + cbn. rewrite Hfi. reflexivity.
  - intros h e rest Hs Hh.
    run (native_run None (call_socket af ty 0) w1 (Ok sock) _ Hs).
    cbn [value_or]. unfold mbind at 1, M_bind at 1. cbn [mret M_ret].
    rewrite (proj2 (Z.eqb_neq sock INVALID_SOCKET) Hsock).
    match goal with
    | |- context [(init_socket_event sock ≫= _) ?x] =>
        destruct (init_socket_event_not_armed sock h e rest x eq_refl Hh)
          as (w2 & Hrun & Htr & Hfi & Hsc)
    end.
    run Hrun. cbn [Z.eqb NULL].
    eexists. split; [reflexivity|]. split.
    + apply calls_since_app. cbn. rewrite fmap_app, Htr. cbn.
      rewrite fmap_app, <- !app_assoc. reflexivity.
    + cbn. rewrite Hfi. reflexivity.
Qed.

Lemma sys_socket_releases_on_failure_witness :
  let w := a_world (blank_file 0 0) [Ok 55; Ok 66; Fail 6] in
  ∃ w',
    sys_socket LINUX_AF_INET6 LINUX_SOCK_DGRAM 0 w = Ret (- ENFILE) w' ∧
    calls_since w w'
    = [ call_socket AF_INET6 SOCK_DGRAM 0; call_CreateEventW;
        call_WSAEventSelect 55 66 27; call_CloseHandle 66;
        call_closesocket 55 ] ∧
    files w' = files w.
Proof.
  intros w.
  destruct (sys_socket_releases_on_failure LINUX_AF_INET6 LINUX_SOCK_DGRAM
              AF_INET6 SOCK_DGRAM 55 w w eq_refl) as (_ & _ & Harm).
  - unfold win32_af_table. rewrite !elem_of_cons. tauto.
  - unfold win32_type_table. rewrite !elem_of_cons. tauto.
  - discriminate.
  - apply (Harm 66 6 []); [reflexivity | discriminate].
Defined.

Lemma vfs_store_file_run (sf : socket_file) (cloexec : bool) (w : world)
    (fd : Z) (rest : list reply) :
  script w = Ok fd :: rest →
  vfs_store_file sf cloexec w
  = Ret fd
      (let w1 := set_script rest
                   (set_trace
                      (trace w ++ [(call_vfs_store_file cloexec, None)]) w) in
       if 0 <=? fd then set_files (<[fd := SocketFile sf]> (files w1)) w1
       else w1).
Proof.
  intros Hs. unfold vfs_store_file.
  run (native_run None (call_vfs_store_file cloexec) w (Ok fd) rest Hs).
  cbn [value_or]. unfold mbind at 1, M_bind at 1. cbn [mret M_ret].
  destruct (0 <=? fd); reflexivity.
Qed.

(** X10.  sys_socket when every native call succeeds, by the answer of the
    descriptor table.  If the table gives a descriptor, it is returned and
    holds a socket file with the native socket and its event, one
    reference, an empty sticky mask, no pending connect error, and
    O_NONBLOCK in its flags exactly when the guest set it in [type]; the
    close-on-exec request handed to the table is the O_CLOEXEC bit of
    [type].  If the table refuses, its negative answer is returned and the
    native socket and the event are both closed. *)
Theorem sys_socket_registers (domain type af ty sock h sel fd : Z)
    (rest : list reply) (w w1 : world) :
  socket_ensure_initialized w = Ret tt w1 →
  (domain, af) ∈ win32_af_table →
  (Z.land type LINUX_SOCK_TYPE_MASK, ty) ∈ win32_type_table →
  sock ≠ INVALID_SOCKET → h ≠ NULL → sel ≠ SOCKET_ERROR →
  script w1 = Ok sock :: Ok h :: Ok sel :: Ok fd :: rest →
  let f := {| sock.ref := 1; sock.socket := sock; sock.event_handle := h;
              sock.flags := if nonzero (Z.land type O_NONBLOCK)
                            then O_NONBLOCK else 0;
              sock.events := 0; sock.connect_error := 0 |} in
  let opened := [ call_socket af ty 0; call_CreateEventW;
                  call_WSAEventSelect sock h
                    (Z.lor (Z.lor (Z.lor FD_READ FD_WRITE) FD_ACCEPT)
                       FD_CONNECT);
                  call_vfs_store_file (Z.land type O_CLOEXEC >? 0) ] in
  ∃ w',
    sys_socket domain type 0 w = Ret fd w' ∧
    script w' = rest ∧
    (0 ≤ fd →
       files w' = <[fd := SocketFile f]> (files w1) ∧
       calls_since w1 w' = opened) ∧
    (fd < 0 →
       files w' = files w1 ∧
       calls_since w1 w'
       = opened ++ [call_closesocket sock; call_CloseHandle h]).
Proof.
  intros Hinit Haf Hty Hsock Hh Hsel Hs f opened.
  rewrite (sys_socket_opens domain type af ty w w1 Hinit Haf Hty).
  run (native_run None (call_socket af ty 0) w1 (Ok sock) _ Hs).
  cbn [value_or]. unfold mbind at 1, M_bind at 1. cbn [mret M_ret].
  rewrite (proj2 (Z.eqb_neq sock INVALID_SOCKET) Hsock).
  match goal with
  | |- context [(init_socket_event sock ≫= _) ?x] =>
      destruct (init_socket_event_armed sock h sel (Ok fd :: rest) x eq_refl
                  Hh Hsel)
        as (w2 & Hrun & Htr & Hfi & Hsc)
  end.
  run Hrun. rewrite (proj2 (Z.eqb_neq h NULL) Hh). cbv zeta.
  assert (Hflags :
    (if nonzero (Z.land type O_NONBLOCK)
     then sock.set_flags
            (Z.lor (sock.flags
                      {| sock.ref := 1; sock.socket := sock;
                         sock.event_handle := h; sock.flags := 0;
                         sock.events := 0; sock.connect_error := 0 |})
               O_NONBLOCK)
            {| sock.ref := 1; sock.socket := sock; sock.event_handle := h;
               sock.flags := 0; sock.events := 0; sock.connect_error := 0 |}
     else {| sock.ref := 1; sock.socket := sock; sock.event_handle := h;
             sock.flags := 0; sock.events := 0; sock.connect_error := 0 |})
    = f) by (unfold f; destruct (nonzero _); reflexivity).
  rewrite Hflags. clear Hflags.
  run (vfs_store_file_run f (Z.land type O_CLOEXEC >? 0) w2 fd rest Hsc).
  destruct (Z.leb_spec 0 fd) as [Hfd|Hfd].
  - replace (fd <? 0) with false by (symmetry; apply Z.ltb_ge; lia).
    eexists. split; [reflexivity|]. split; [reflexivity|].
    split; [|intros; lia]. intros _. split.
    + cbn. now rewrite Hfi.
    + apply calls_since_app. cbn. rewrite fmap_app, Htr. cbn.
      rewrite fmap_app, <- !app_assoc. reflexivity.
  - replace (fd <? 0) with true by (symmetry; apply Z.ltb_lt; lia).
    eexists. split; [reflexivity|]. split; [reflexivity|].
    split; [intros; lia|]. intros _. split.
    + cbn. now rewrite Hfi.
    + apply calls_since_app. cbn. rewrite !fmap_app, Htr. cbn.
      rewrite fmap_app, <- !app_assoc. reflexivity.
Qed.

Lemma sys_socket_registers_witness :
  let w := a_world (blank_file 0 0) [Ok 55; Ok 66; Ok 0; Ok 7] in
  ∃ w',
    sys_socket LINUX_AF_INET (Z.lor LINUX_SOCK_STREAM O_NONBLOCK) 0 w
      = Ret 7 w' ∧
    files w' !! 7
    = Some (SocketFile
              {| sock.ref := 1; sock.socket := 55; sock.event_handle := 66;
                 sock.flags := O_NONBLOCK; sock.events := 0;
                 sock.connect_error := 0 |}).
Proof.
  intros w.
  destruct (sys_socket_registers LINUX_AF_INET
              (Z.lor LINUX_SOCK_STREAM O_NONBLOCK) AF_INET SOCK_STREAM
              55 66 0 7 [] w w eq_refl)
    as (w' & Hrun & _ & Hok & _).
  - unfold win32_af_table. rewrite !elem_of_cons. tauto.
  - unfold win32_type_table. rewrite !elem_of_cons. tauto.
  - discriminate.
  - discriminate.
  - discriminate.
  - reflexivity.
  - exists w'. split; [exact Hrun|].
    destruct Hok as [Hfiles _]; [lia|]. rewrite Hfiles.
    apply lookup_insert_eq.
Defined.

(** X11.  The networking subsystem is started once, and its failure is
    fatal.  After socket_ensure_initialized has returned, the flag is set
    and a further call does nothing at all (no second WSAStartup).  When
    the subsystem is down and WSAStartup answers with a non-zero code, the
    process exits with code 1, and so does any sys_socket call: it returns
    nothing. *)
Theorem socket_ensure_initialized_once (w : world) :
  (∀ w1, socket_ensure_initialized w = Ret tt w1 →
     nonzero (socket_inited w1) = true ∧
     socket_ensure_initialized w1 = Ret tt w1) ∧
  (∀ r rest,
     nonzero (socket_inited w) = false →
     script w = Ok r :: rest → r ≠ 0 →
     ∃ w',
       socket_ensure_initialized w = Exit 1 w' ∧
       calls_since w w' = [call_WSAStartup] ∧
       log_error "WSAStartup() failed, error code: %d" [r] ∈ klog w' ∧
       ∀ domain type protocol,
         sys_socket domain type protocol w = Exit 1 w').
Proof.
  split.
  - intros w1 Hrun.
    assert (Hinit : nonzero (socket_inited w1) = true).
    { unfold socket_ensure_initialized, mbind, M_bind, get in Hrun.
      destruct (nonzero (socket_inited w)) eqn:Hi.
      - now injection Hrun as <-.
      - destruct (native None call_WSAStartup w) as [a w2| |];
          try discriminate.
        destruct a as [v|err|ev]; cbn in Hrun; try discriminate.
        + destruct (nonzero v); cbn in Hrun; [discriminate|].
          now injection Hrun as <-.
        + destruct (nonzero err); cbn in Hrun; [discriminate|].
          now injection Hrun as <-. }
    split; [exact Hinit|].
    unfold socket_ensure_initialized, mbind, M_bind, get.
    now rewrite Hinit.
  - intros r rest Hdown Hs Hr.
    assert (Hrun : socket_ensure_initialized w
                   = Exit 1
                       (set_klog
                          (klog w ++
                             [log_error "WSAStartup() failed, error code: %d" [r]])
                          (set_script rest
                             (set_trace (trace w ++ [(call_WSAStartup, None)])
                                w)))).
    { unfold socket_ensure_initialized.
      unfold mbind at 1, M_bind at 1, get. rewrite Hdown.
      run (native_run None call_WSAStartup w (Ok r) rest Hs).
      unfold mbind at 1, M_bind at 1. cbn [mret M_ret].
      unfold nonzero. rewrite (proj2 (Z.eqb_neq r 0) Hr). reflexivity. }
    eexists. split; [exact Hrun|]. split; [|split].
    + apply calls_since_app. cbn. now rewrite fmap_app.
    + cbn. apply elem_of_app. right. constructor.
    + intros domain type protocol. unfold sys_socket.
      now rewrite (run_bind_exit _ _ _ _ _ Hrun).
Qed.

Lemma socket_ensure_initialized_once_witness :
  let down := set_socket_inited 0 (a_world (blank_file 0 0) [Ok 10091]) in
  let up := set_socket_inited 0 (a_world (blank_file 0 0) [Ok 0]) in
  (∃ w', sys_socket LINUX_AF_INET LINUX_SOCK_STREAM 0 down = Exit 1 w') ∧
  (∃ w1, socket_ensure_initialized up = Ret tt w1 ∧
         socket_ensure_initialized w1 = Ret tt w1).
Proof.
  intros down up. split.
  - destruct (proj2 (socket_ensure_initialized_once down) 10091 []
                eq_refl eq_refl) as (w' & _ & _ & _ & Hexit); [discriminate|].
    exists w'. apply Hexit.
  - eexists. split; [reflexivity|].
    apply (proj1 (socket_ensure_initialized_once up) _ eq_refl).
Defined.

(** ** The system call entry points *)










(** ** connect, continued *)

Lemma get_sockfd_with_file (f : Z) (sf : socket_file) (w : world) :
  get_sockfd f (with_file f sf w) = Ret (0, f) (with_file f sf w).
Proof.
  unfold get_sockfd, vfs_get, get, mbind, M_bind.
  now rewrite files_with_file.
Qed.

(** sys_connect up to the answer of the native connect. *)
Lemma sys_connect_calls (sockfd addr addrlen : Z) (sf : socket_file)
    (w : world) (a : reply) (rest : list reply) :
  mem_readable w addr sizeof_sockaddr = true →
  files w !! sockfd = Some (SocketFile sf) →
  script w = a :: rest →
  let w1 := set_script rest
              (set_trace
                 (trace w ++ [(call_connect (sock.socket sf) addr addrlen,
                               Some (sock.events sf))]) w) in
  sys_connect sockfd addr addrlen w
  = (c ← value_or SOCKET_ERROR a;
     if c =? SOCKET_ERROR then
       err ← WSAGetLastError;
       if negb (err =? WSAEWOULDBLOCK) then
         log (log_warning "connect() failed, error code: %d" [err]);;
         translate_socket_error err
       else if Z.land (sock.flags sf) O_NONBLOCK >? 0 then
         mret (- EINPROGRESS)
       else
         socket_wait_event sockfd FD_CONNECT 0;;
         WSAGetLastError
     else mret 0)
      (with_file sockfd sf
         match a with
         | Fail err => set_last_error err w1
         | _ => w1
         end).
Proof.
  intros Hmem Hf Hs w1.
  rewrite <- (with_file_id _ _ _ Hf) at 1. unfold sys_connect.
  unfold mbind at 1, M_bind at 1, mm_check_read, get.
  cbn [mem_readable with_file set_files]. rewrite Hmem. cbn [negb].
  run (get_sockfd_with_file sockfd sf w). cbn [nonzero Z.eqb negb].
  run (deref_with_file sockfd sf w).
  unfold mbind at 1, M_bind at 1. rewrite native_with_file. cbv zeta.
  rewrite Hs. destruct a; reflexivity.
Qed.

(** A wait for the connect class that finds the notification at its first
    look reports and claims the completion. *)
Lemma socket_wait_event_connected (f flags : Z) (sf : socket_file)
    (w : world) (ev : WSANETWORKEVENTS) (rest : list reply) :
  script w = Events ev :: rest →
  Z.testbit (lNetworkEvents ev) 4 = true →
  socket_wait_event f FD_CONNECT flags (with_file f sf w)
  = Ret 0 (with_file f (claim_connect FD_CONNECT (absorb ev sf))
             (set_last_error (sock.connect_error (absorb ev sf))
                (enumerated sf rest w))).
Proof.
  intros Hs Hev. unfold socket_wait_event, unbounded.
  cbn [socket_wait_event_loop].
  pose proof (socket_update_events_with_file f sf w FD_CONNECT ev rest Hs)
    as Hup.
  assert (Hbit : Z.testbit (sock.events (absorb ev sf)) 4 = true).
  { rewrite testbit_absorb, Hev by lia. apply orb_true_r. }
  assert (Hrep : reports FD_CONNECT (absorb ev sf) = true)
    by (rewrite reports_testbit, Hbit; reflexivity).
  rewrite Hrep in Hup. run Hup.
  change FD_CONNECT with (2 ^ 4) at 1.
  now rewrite nonzero_land_bit, Hbit by lia.
Qed.

(** X15.  sys_connect on a socket file, by the answer of the native
    connect.  Success: 0.  A failure other than WSAEWOULDBLOCK: the
    translated guest code.  WSAEWOULDBLOCK on a non-blocking socket:
    [-EINPROGRESS] at once, the native connect being the only call.
    WSAEWOULDBLOCK on a blocking socket, followed by a connect notification
    without error: 0, and the completion is consumed (the connect bit of
    the sticky mask is clear afterwards). *)
Theorem sys_connect_answers (sockfd addr addrlen : Z) (sf : socket_file)
    (w : world) :
  mem_readable w addr sizeof_sockaddr = true →
  files w !! sockfd = Some (SocketFile sf) →
  let made := call_connect (sock.socket sf) addr addrlen in
  (∀ v rest,
     script w = Ok v :: rest → v ≠ SOCKET_ERROR →
     ∃ w', sys_connect sockfd addr addrlen w = Ret 0 w' ∧
           calls_since w w' = [made] ∧ files w' = files w) ∧
  (∀ err rest,
     script w = Fail err :: rest → err ≠ WSAEWOULDBLOCK →
     ∃ guest w',
       sys_connect sockfd addr addrlen w = Ret guest w' ∧
       returned (translate_socket_error err w) = Some guest ∧
       calls_since w w' = [made] ∧ files w' = files w) ∧
  (∀ rest,
     script w = Fail WSAEWOULDBLOCK :: rest →
     (Z.land (sock.flags sf) O_NONBLOCK >? 0) = true →
     ∃ w', sys_connect sockfd addr addrlen w = Ret (- EINPROGRESS) w' ∧
           calls_since w w' = [made] ∧ files w' = files w ∧
           script w' = rest) ∧
  (∀ ev rest,
     script w = Fail WSAEWOULDBLOCK :: Events ev :: rest →
     (Z.land (sock.flags sf) O_NONBLOCK >? 0) = false →
     Z.testbit (lNetworkEvents ev) 4 = true →
     nth (Z.to_nat FD_CONNECT_BIT) (iErrorCode ev) 0 = 0 →
     ∃ w' e,
       sys_connect sockfd addr addrlen w = Ret 0 w' ∧
       calls_since w w'
       = [made; call_WSAEnumNetworkEvents (sock.socket sf)
                  (sock.event_handle sf)] ∧
       sticky sockfd w' = Some e ∧ Z.testbit e 4 = false ∧
       script w' = rest).
Proof.
  intros Hmem Hf made.
  assert (Hfiles : ∀ s x, files x = files w →
                          files (with_file sockfd s x) !! sockfd
                          = Some (SocketFile s))
    by (intros; apply files_with_file).
  split; [|split; [|split]].
  - intros v rest Hs Hv.
    rewrite (sys_connect_calls sockfd addr addrlen sf w _ _ Hmem Hf Hs).
    cbn [value_or]. unfold mbind at 1, M_bind at 1. cbn [mret M_ret].
    rewrite (proj2 (Z.eqb_neq v SOCKET_ERROR) Hv).
    eexists. split; [reflexivity|]. split.
    + apply calls_since_app. cbn. now rewrite fmap_app.
    + unfold with_file. cbn. now apply insert_id.
  - intros err rest Hs Herr.
    rewrite (sys_connect_calls sockfd addr addrlen sf w _ _ Hmem Hf Hs).
    cbn [value_or]. unfold mbind at 1, M_bind at 1. cbn [mret M_ret].
    cbn [Z.eqb SOCKET_ERROR Pos.eqb].
    unfold mbind at 1, M_bind at 1, WSAGetLastError, get.
    cbn [last_error with_file set_files set_last_error].
    rewrite (proj2 (Z.eqb_neq err WSAEWOULDBLOCK) Herr). cbn [negb].
    unfold mbind at 1, M_bind at 1, log, put.
    destruct (translate_socket_error_value err) as [guest Hguest].
    match goal with
    | |- context [translate_socket_error err ?x] => set (wx := x)
    end.
    pose proof (Hguest wx) as Hx.
    destruct (translate_socket_error err wx) as [g w'| |] eqn:Hrun;
      cbn in Hx; try discriminate.
    injection Hx as ->.
    destruct (translate_socket_error_only_logs _ _ _ _ Hrun)
      as (Htr & Hfi & _).
    exists guest, w'. split; [reflexivity|]. split; [apply Hguest|]. split.
    + apply calls_since_app. rewrite Htr. cbn. now rewrite fmap_app.
    + rewrite Hfi. cbn. now apply insert_id.
  - intros rest Hs Hnb.
    rewrite (sys_connect_calls sockfd addr addrlen sf w _ _ Hmem Hf Hs).
    cbn [value_or]. unfold mbind at 1, M_bind at 1. cbn [mret M_ret].
    cbn [Z.eqb SOCKET_ERROR Pos.eqb].
    unfold mbind at 1, M_bind at 1, WSAGetLastError, get.
    cbn [last_error with_file set_files set_last_error].
    cbn [Z.eqb WSAEWOULDBLOCK Pos.eqb negb]. rewrite Hnb.
    eexists. split; [reflexivity|]. split; [|split; [|reflexivity]].
    + apply calls_since_app. cbn. now rewrite fmap_app.
    + cbn. now apply insert_id.
  - intros ev rest Hs Hblock Hev Hok.
    rewrite (sys_connect_calls sockfd addr addrlen sf w _ _ Hmem Hf Hs).
    cbn [value_or]. unfold mbind at 1, M_bind at 1. cbn [mret M_ret].
    cbn [Z.eqb SOCKET_ERROR Pos.eqb].
    unfold mbind at 1, M_bind at 1, WSAGetLastError, get.
    cbn [last_error with_file set_files set_last_error].
    cbn [Z.eqb WSAEWOULDBLOCK Pos.eqb negb]. rewrite Hblock.
    match goal with
    | |- context [(socket_wait_event _ _ _ ≫= _) (with_file _ _ ?x)] =>
        pose proof (socket_wait_event_connected sockfd 0 sf x ev rest
                      eq_refl Hev) as Hwait
    end.
    assert (Hbit : Z.testbit (sock.events (absorb ev sf)) 4 = true).
    { rewrite testbit_absorb, Hev by lia. apply orb_true_r. }
    assert (Hrep : reports FD_CONNECT (absorb ev sf) = true)
      by (rewrite reports_testbit, Hbit; reflexivity).
    assert (Herr0 : sock.connect_error (absorb ev sf) = 0).
    { rewrite connect_error_absorb. change FD_CONNECT with (2 ^ 4).
      now rewrite nonzero_land_bit, Hev by lia. }
    rewrite Herr0 in Hwait. run Hwait.
    exists (with_file sockfd (claim_connect FD_CONNECT (absorb ev sf))
              (set_last_error 0
                 (enumerated sf rest
                    (set_last_error WSAEWOULDBLOCK
                       (set_script (Events ev :: rest)
                          (set_trace
                             (trace w ++
                                [(call_connect (sock.socket sf) addr addrlen,
                                  Some (sock.events sf))]) w)))))),
           (sock.events (claim_connect FD_CONNECT (absorb ev sf))).
    split; [reflexivity|]. split; [|split; [apply sticky_with_file|split]].
    + apply calls_since_app. cbn. rewrite !fmap_app. cbn.
      now rewrite <- app_assoc.
    + rewrite testbit_claim_connect, Hrep, Hbit by lia. reflexivity.
    + reflexivity.
Qed.

Lemma sys_connect_answers_witness :
  (∃ w', sys_connect 3 1000 16
           (a_world (blank_file O_NONBLOCK 0) [Fail WSAEWOULDBLOCK])
         = Ret (- EINPROGRESS) w') ∧
  (∃ w', sys_connect 3 1000 16
           (a_world (blank_file 0 0) [Fail WSAECONNREFUSED])
         = Ret (- ECONNREFUSED) w') ∧
  (∃ w', sys_connect 3 1000 16
           (a_world (blank_file 0 0)
              [Fail WSAEWOULDBLOCK; net_events FD_CONNECT 0])
         = Ret 0 w').
Proof.
  split; [|split].
  - destruct (sys_connect_answers 3 1000 16 (blank_file O_NONBLOCK 0)
                (a_world (blank_file O_NONBLOCK 0) [Fail WSAEWOULDBLOCK])
                eq_refl eq_refl) as (_ & _ & Hnb & _).
    destruct (Hnb [] eq_refl eq_refl) as (w' & Hrun & _). eauto.
  - destruct (sys_connect_answers 3 1000 16 (blank_file 0 0)
                (a_world (blank_file 0 0) [Fail WSAECONNREFUSED])
                eq_refl eq_refl) as (_ & Hfail & _).
    destruct (Hfail WSAECONNREFUSED [] eq_refl) as (g & w' & Hrun & Hg & _);
      [discriminate|].
    exists w'. rewrite Hrun. injection Hg as <-. reflexivity.
  - destruct (sys_connect_answers 3 1000 16 (blank_file 0 0)
                (a_world (blank_file 0 0)
                   [Fail WSAEWOULDBLOCK; net_events FD_CONNECT 0])
                eq_refl eq_refl) as (_ & _ & _ & Hblock).
    destruct (Hblock {| lNetworkEvents := FD_CONNECT;
                        iErrorCode := [0; 0; 0; 0; 0] |} []
                eq_refl eq_refl eq_refl eq_refl) as (w' & e & Hrun & _).
    eauto.
Defined.

(** ** Receiving, continued *)

(** socket_recvfrom is its loop, entered after the complaint about the
    flags, if any, is logged. *)
Lemma socket_recvfrom_enters (f buf len flags src_addr addrlen : Z)
    (sf : socket_file) (w : world) :
  files w !! f = Some (SocketFile sf) →
  ∃ w0, script w0 = script w ∧ trace w0 = trace w ∧
        socket_recvfrom f buf len flags src_addr addrlen w
        = socket_recvfrom_loop (S (length (script w))) f buf len flags
            src_addr addrlen (with_file f sf w0).
Proof.
  intros Hf.
  assert (Hw : socket_recvfrom f buf len flags src_addr addrlen w
               = socket_recvfrom f buf len flags src_addr addrlen
                   (with_file f sf w))
    by now rewrite (with_file_id _ _ _ Hf).
  rewrite Hw. clear Hw. unfold socket_recvfrom.
  set (c := nonzero (Z.land flags (Z.lnot _))).
  set (entry := log_error _ [flags]).
  run (when_log_with_file c entry f sf w).
  destruct (script_logged c entry w) as [Hs0 Ht0].
  eexists. split; [exact Hs0|]. split; [exact Ht0|].
  unfold unbounded. cbn [script with_file set_files]. now rewrite Hs0.
Qed.

(** One turn of the loop of socket_recvfrom on a read-ready socket, up to
    the answer of the native recvfrom. *)
Lemma socket_recvfrom_loop_turn (turns : nat)
    (f buf len flags src_addr addrlen : Z) (sf : socket_file) (w : world)
    (ev : WSANETWORKEVENTS) (a : reply) (rest : list reply) :
  script w = Events ev :: a :: rest →
  Z.testbit (sock.events sf) 0 || Z.testbit (lNetworkEvents ev) 0 = true →
  let sf1 := if negb (nonzero (Z.land flags LINUX_MSG_PEEK))
             then clear_events FD_READ (absorb ev sf) else absorb ev sf in
  let w1 := set_script rest
              (set_trace
                 (trace (enumerated sf (a :: rest) w) ++
                    [(call_recvfrom (sock.socket sf) buf len flags src_addr
                        addrlen,
                      Some (sock.events sf1))])
                 (enumerated sf (a :: rest) w)) in
  socket_recvfrom_loop (S turns) f buf len flags src_addr addrlen
    (with_file f sf w)
  = match a with
    | Ok n =>
        if negb (n =? SOCKET_ERROR) then Ret n (with_file f sf1 w1)
        else
          (if negb (last_error w =? WSAEWOULDBLOCK) then
             log (log_warning "recvfrom() failed, error code: %d"
                    [last_error w]);;
             translate_socket_error (last_error w)
           else
             socket_recvfrom_loop turns f buf len flags src_addr addrlen)
            (with_file f sf1 w1)
    | Fail err =>
        (if negb (err =? WSAEWOULDBLOCK) then
           log (log_warning "recvfrom() failed, error code: %d" [err]);;
           translate_socket_error err
         else
           socket_recvfrom_loop turns f buf len flags src_addr addrlen)
          (with_file f sf1 (set_last_error err w1))
    | Events _ => Stuck (with_file f sf1 w1)
    end.
Proof.
  intros Hs Hbit sf1 w1. cbn [socket_recvfrom_loop].
  rewrite <- read_ready_absorb in Hbit.
  run (socket_wait_event_ready f FD_READ flags sf w ev (a :: rest)
         reports_FD_READ Hs Hbit).
  cbn [Z.eqb negb].
  run (when_modify_with_file (negb (nonzero (Z.land flags LINUX_MSG_PEEK))) f
         (clear_events FD_READ) (absorb ev sf)
         (enumerated sf (a :: rest) w)).
  fold sf1.
  run (deref_with_file f sf1 (enumerated sf (a :: rest) w)).
  unfold mbind at 1, M_bind at 1. rewrite native_with_file. cbv zeta.
  cbn [script enumerated set_script set_trace].
  assert (Hso : sock.socket sf1 = sock.socket sf).
  { unfold sf1. destruct (negb _); cbn; apply handles_absorb. }
  rewrite Hso.
  destruct a as [n|err|ev']; cbn [value_or].
  - unfold mbind at 1, M_bind at 1. cbn [mret M_ret].
    destruct (negb (n =? SOCKET_ERROR)); reflexivity.
  - unfold mbind at 1, M_bind at 1. cbn [mret M_ret].
    reflexivity.
  - reflexivity.
Qed.

(** X16.  How socket_recvfrom fails.  On a socket that must not block and
    has nothing to read (the read-ready bit is clear and the host notifies
    nothing), the call returns [-EWOULDBLOCK] after one readiness update:
    the native recvfrom is not called.  On a read-ready socket whose native
    recvfrom fails with anything but WSAEWOULDBLOCK, the call returns the
    translated guest code after that one transfer. *)
Theorem socket_recvfrom_failures (f buf len flags src_addr addrlen : Z)
    (sf : socket_file) (w : world) :
  files w !! f = Some (SocketFile sf) →
  let looked := call_WSAEnumNetworkEvents (sock.socket sf)
                  (sock.event_handle sf) in
  (∀ ev rest,
     script w = Events ev :: rest →
     nonzero (Z.land (sock.flags sf) O_NONBLOCK)
       || nonzero (Z.land flags LINUX_MSG_DONTWAIT) = true →
     Z.testbit (sock.events sf) 0 || Z.testbit (lNetworkEvents ev) 0 = false →
     ∃ w', socket_recvfrom f buf len flags src_addr addrlen w
           = Ret (- EWOULDBLOCK) w' ∧
           script w' = rest ∧ calls_since w w' = [looked]) ∧
  (∀ ev err rest,
     script w = Events ev :: Fail err :: rest →
     Z.testbit (sock.events sf) 0 || Z.testbit (lNetworkEvents ev) 0 = true →
     err ≠ WSAEWOULDBLOCK →
     ∃ guest w',
       socket_recvfrom f buf len flags src_addr addrlen w = Ret guest w' ∧
       returned (translate_socket_error err w) = Some guest ∧
       calls_since w w'
       = [looked;
          call_recvfrom (sock.socket sf) buf len flags src_addr addrlen]).
Proof.
  intros Hf looked.
  destruct (socket_recvfrom_enters f buf len flags src_addr addrlen sf w Hf)
    as (w0 & Hs0 & Ht0 & ->).
  split.
  - intros ev rest Hs Hnb Hbit. rewrite <- read_ready_absorb in Hbit.
    rewrite Hs in Hs0. cbn [socket_recvfrom_loop].
    run (socket_wait_event_busy f FD_READ flags sf w0 ev rest
           reports_FD_READ Hs0 Hbit Hnb).
    cbn [Z.eqb negb EWOULDBLOCK Z.opp].
    eexists. split; [reflexivity|]. split; [reflexivity|].
    apply calls_since_app. cbn. now rewrite Ht0, fmap_app.
  - intros ev err rest Hs Hbit Herr. rewrite Hs in Hs0.
    rewrite (socket_recvfrom_loop_turn _ f buf len flags src_addr addrlen sf
               w0 ev (Fail err) rest Hs0 Hbit).
    rewrite (proj2 (Z.eqb_neq err WSAEWOULDBLOCK) Herr). cbn [negb].
    unfold mbind at 1, M_bind at 1, log, put.
    destruct (translate_socket_error_value err) as [guest Hguest].
    match goal with
    | |- context [translate_socket_error err ?x] => set (wx := x)
    end.
    pose proof (Hguest wx) as Hx.
    destruct (translate_socket_error err wx) as [g w'| |] eqn:Hrun;
      cbn in Hx; try discriminate.
    injection Hx as ->.
    destruct (translate_socket_error_only_logs _ _ _ _ Hrun) as (Htr & _).
    exists guest, w'. split; [reflexivity|]. split; [apply Hguest|].
    apply calls_since_app. rewrite Htr. cbn. rewrite Ht0, !fmap_app. cbn.
    now rewrite <- app_assoc.
Qed.

Lemma socket_recvfrom_failures_witness :
  (∃ w', socket_recvfrom 3 7000 64 0 0 0
           (a_world (blank_file O_NONBLOCK 0) [net_events 0 0])
         = Ret (- EWOULDBLOCK) w') ∧
  (∃ w', socket_recvfrom 3 7000 64 0 0 0
           (a_world (blank_file 0 FD_READ)
              [net_events 0 0; Fail WSAECONNRESET])
         = Ret (- ECONNRESET) w').
Proof.
  split.
  - destruct (socket_recvfrom_failures 3 7000 64 0 0 0
                (blank_file O_NONBLOCK 0)
                (a_world (blank_file O_NONBLOCK 0) [net_events 0 0])
                eq_refl) as [Hbusy _].
    destruct (Hbusy {| lNetworkEvents := 0; iErrorCode := [0; 0; 0; 0; 0] |}
                [] eq_refl eq_refl eq_refl) as (w' & Hrun & _).
    eauto.
  - destruct (socket_recvfrom_failures 3 7000 64 0 0 0 (blank_file 0 FD_READ)
                (a_world (blank_file 0 FD_READ)
                   [net_events 0 0; Fail WSAECONNRESET])
                eq_refl) as [_ Hfail].
    destruct (Hfail {| lNetworkEvents := 0; iErrorCode := [0; 0; 0; 0; 0] |}
                WSAECONNRESET [] eq_refl eq_refl)
      as (g & w' & Hrun & Hg & _); [discriminate|].
    exists w'. rewrite Hrun. injection Hg as <-. reflexivity.
Defined.

(** X17.  A receive that the host refuses with WSAEWOULDBLOCK although the
    socket looked read-ready.  A plain receive has cleared the read-ready
    bit before the transfer, so on a socket that must not block and with no
    new notification the retry ends in [-EWOULDBLOCK] with the bit clear.
    A peek (LINUX_MSG_PEEK) leaves the bit set, so its retry goes to the
    native recvfrom again without the host having notified anything, and
    without waiting, on blocking and non-blocking sockets alike. *)
Theorem socket_recvfrom_would_block (f buf len flags src_addr addrlen : Z)
    (sf : socket_file) (w : world) (ev1 ev2 : WSANETWORKEVENTS) :
  files w !! f = Some (SocketFile sf) →
  Z.testbit (sock.events sf) 0 || Z.testbit (lNetworkEvents ev1) 0 = true →
  let looked := call_WSAEnumNetworkEvents (sock.socket sf)
                  (sock.event_handle sf) in
  let transfer := call_recvfrom (sock.socket sf) buf len flags src_addr
                    addrlen in
  (∀ rest,
     script w = Events ev1 :: Fail WSAEWOULDBLOCK :: Events ev2 :: rest →
     nonzero (Z.land flags LINUX_MSG_PEEK) = false →
     nonzero (Z.land (sock.flags sf) O_NONBLOCK)
       || nonzero (Z.land flags LINUX_MSG_DONTWAIT) = true →
     Z.testbit (lNetworkEvents ev2) 0 = false →
     ∃ w', socket_recvfrom f buf len flags src_addr addrlen w
           = Ret (- EWOULDBLOCK) w' ∧
           calls_since w w' = [looked; transfer; looked] ∧
           read_ready f w' = false) ∧
  (∀ n rest,
     script w = Events ev1 :: Fail WSAEWOULDBLOCK :: Events ev2 :: Ok n :: rest →
     nonzero (Z.land flags LINUX_MSG_PEEK) = true →
     n ≠ SOCKET_ERROR →
     ∃ w', socket_recvfrom f buf len flags src_addr addrlen w = Ret n w' ∧
           calls_since w w' = [looked; transfer; looked; transfer] ∧
           read_ready f w' = true).
Proof.
  intros Hf Hbit looked transfer.
  destruct (socket_recvfrom_enters f buf len flags src_addr addrlen sf w Hf)
    as (w0 & Hs0 & Ht0 & ->).
  split.
  - intros rest Hs Hplain Hnb Hquiet. rewrite Hs in Hs0. rewrite Hs.
    cbn [length].
    rewrite (socket_recvfrom_loop_turn _ f buf len flags src_addr addrlen sf
               w0 ev1 (Fail WSAEWOULDBLOCK) (Events ev2 :: rest) Hs0 Hbit).
    cbn [Z.eqb Pos.eqb negb WSAEWOULDBLOCK]. rewrite Hplain. cbn [negb].
    set (sf2 := clear_events FD_READ (absorb ev1 sf)).
    match goal with
    | |- context [socket_recvfrom_loop _ _ _ _ _ _ _ (with_file f sf2 ?x)] =>
        set (w2 := x)
    end.
    cbn [socket_recvfrom_loop].
    assert (Hclear : Z.testbit (sock.events (absorb ev2 sf2)) 0 = false).
    { rewrite testbit_absorb by lia. unfold sf2.
      change FD_READ with (2 ^ 0). rewrite testbit_clear_events by lia.
      rewrite Hquiet. cbn. now rewrite andb_false_r. }
    assert (Hbusy : nonzero (Z.land (sock.events (absorb ev2 sf2)) FD_READ)
                    = false).
    { change FD_READ with (2 ^ 0). now rewrite nonzero_land_bit by lia. }
    assert (Hnb2 : nonzero (Z.land (sock.flags sf2) O_NONBLOCK)
                   || nonzero (Z.land flags LINUX_MSG_DONTWAIT) = true).
    { replace (sock.flags sf2) with (sock.flags sf); [exact Hnb|].
      unfold sf2, clear_events. cbn. now rewrite flags_absorb. }
    run (socket_wait_event_busy f FD_READ flags sf2 w2 ev2 rest
           reports_FD_READ eq_refl Hbusy Hnb2).
    cbn [Z.eqb negb EWOULDBLOCK Z.opp].
    eexists. split; [reflexivity|]. split.
    + apply calls_since_app. unfold w2. cbn. rewrite Ht0, !fmap_app. cbn.
      rewrite <- !app_assoc. cbn.
      destruct (handles_absorb ev1 sf) as [-> ->]. reflexivity.
    + rewrite read_ready_with_file. exact Hclear.
  - intros n rest Hs Hpeek Hn. rewrite Hs in Hs0. rewrite Hs.
    cbn [length].
    rewrite (socket_recvfrom_loop_turn _ f buf len flags src_addr addrlen sf
               w0 ev1 (Fail WSAEWOULDBLOCK) (Events ev2 :: Ok n :: rest)
               Hs0 Hbit).
    cbn [Z.eqb Pos.eqb negb WSAEWOULDBLOCK]. rewrite Hpeek. cbn [negb].
    match goal with
    | |- context [socket_recvfrom_loop _ _ _ _ _ _ _ (with_file f _ ?x)] =>
        set (w2 := x)
    end.
    assert (Hbit2 : Z.testbit (sock.events (absorb ev1 sf)) 0
                    || Z.testbit (lNetworkEvents ev2) 0 = true).
    { rewrite testbit_absorb by lia. cbn [bool_decide decide_rel].
      rewrite andb_true_r, Hbit. reflexivity. }
    rewrite (socket_recvfrom_loop_turn _ f buf len flags src_addr addrlen
               (absorb ev1 sf) w2 ev2 (Ok n) rest eq_refl Hbit2).
    rewrite Hpeek. cbn [negb].
    rewrite (proj2 (Z.eqb_neq n SOCKET_ERROR) Hn). cbn [negb].
    eexists. split; [reflexivity|]. split.
    + apply calls_since_app. unfold w2. cbn. rewrite Ht0, !fmap_app. cbn.
      rewrite <- !app_assoc. cbn.
      destruct (handles_absorb ev1 sf) as [-> ->]. reflexivity.
    + rewrite read_ready_with_file, testbit_absorb by lia.
      cbn [bool_decide decide_rel]. rewrite andb_true_r.
      apply orb_true_iff. left. rewrite testbit_absorb by lia.
      cbn [bool_decide decide_rel]. now rewrite andb_true_r.
Qed.

Lemma socket_recvfrom_would_block_witness :
  (∃ w', socket_recvfrom 3 7000 64 0 0 0
           (a_world (blank_file O_NONBLOCK FD_READ)
              [net_events 0 0; Fail WSAEWOULDBLOCK; net_events 0 0])
         = Ret (- EWOULDBLOCK) w' ∧ read_ready 3 w' = false) ∧
  (∃ w', socket_recvfrom 3 7000 64 LINUX_MSG_PEEK 0 0
           (a_world (blank_file 0 FD_READ)
              [net_events 0 0; Fail WSAEWOULDBLOCK; net_events 0 0; Ok 5])
         = Ret 5 w' ∧ read_ready 3 w' = true).
Proof.
  split.
  - destruct (socket_recvfrom_would_block 3 7000 64 0 0 0
                (blank_file O_NONBLOCK FD_READ)
                (a_world (blank_file O_NONBLOCK FD_READ)
                   [net_events 0 0; Fail WSAEWOULDBLOCK; net_events 0 0])
                {| lNetworkEvents := 0; iErrorCode := [0; 0; 0; 0; 0] |}
                {| lNetworkEvents := 0; iErrorCode := [0; 0; 0; 0; 0] |}
                eq_refl eq_refl) as [Hplain _].
    destruct (Hplain [] eq_refl eq_refl eq_refl eq_refl)
      as (w' & Hrun & _ & Hready).
    exists w'. split; [exact Hrun | exact Hready].
  - destruct (socket_recvfrom_would_block 3 7000 64 LINUX_MSG_PEEK 0 0
                (blank_file 0 FD_READ)
                (a_world (blank_file 0 FD_READ)
                   [net_events 0 0; Fail WSAEWOULDBLOCK; net_events 0 0; Ok 5])
                {| lNetworkEvents := 0; iErrorCode := [0; 0; 0; 0; 0] |}
                {| lNetworkEvents := 0; iErrorCode := [0; 0; 0; 0; 0] |}
                eq_refl eq_refl) as [_ Hpeek].
    destruct (Hpeek 5 [] eq_refl eq_refl) as (w' & Hrun & _ & Hready);
      [discriminate|].
    exists w'. split; [exact Hrun | exact Hready].
Defined.

(** ** The dispatcher *)

Lemma nth_take_eq (k : nat) (l l' : list Z) :
  take k l = take k l' →
  ∀ i, (i < k)%nat → nth i l 0 = nth i l' 0.
Proof.
  intros H i Hi.
  rewrite <- (take_drop k l), <- (take_drop k l'), H.
  destruct (decide (i < length (take k l'))%nat) as [Hlt|Hge].
  - now rewrite !app_nth1.
  - assert (Hlen : length (take k l) = length (take k l')) by now rewrite H.
    rewrite !length_take in Hlen. rewrite length_take in Hge.
    assert (Hl : (length l ≤ i)%nat) by lia.
    assert (Hl' : (length l' ≤ i)%nat) by lia.
    rewrite <- H at 1. rewrite !take_drop.
    now rewrite !nth_overflow.
Qed.

(** X18.  What sys_socketcall turns down.  A call number below 1 or above
    SYS_SENDMMSG gives [-EINVAL] and nothing is touched; an argument block
    that cannot be read over the length the table gives for the call gives
    [-EFAULT] and nothing is touched; and the call numbers of the range
    that have no case (2, 4, 5, 8, 13, 14, 15, 17, 18, 19) give [-EINVAL]
    with one error logged and nothing else done, whatever the arguments. *)
Theorem sys_socketcall_rejects (int_at : Z → Z) (msghdr_at : Z → msghdr)
    (mmsghdr_at : Z → nat → mmsghdr)
    (sys_getsockname sys_getpeername : Z → Z → Z → M Z)
    (call args : Z) (args_at : list Z) (w : world) :
  let run := sys_socketcall int_at msghdr_at mmsghdr_at sys_getsockname
               sys_getpeername call args args_at w in
  (call < 1 ∨ SYS_SENDMMSG < call → run = Ret (- EINVAL, None) w) ∧
  (1 ≤ call ≤ SYS_SENDMMSG →
   mem_readable w args (nth (Z.to_nat call) nargs 0) = false →
   run = Ret (- EFAULT, None) w) ∧
  (call ∈ [2; 4; 5; 8; 13; 14; 15; 17; 18; 19] →
   mem_readable w args (nth (Z.to_nat call) nargs 0) = true →
   run = Ret (- EINVAL, None)
           (set_klog
              (klog w ++ [log_error "Unimplemented socketcall: %d" [call]])
              w)).
Proof.
  intros run. subst run. unfold SYS_SENDMMSG. split; [|split].
  - intros Hout. unfold sys_socketcall. unfold SYS_SENDMMSG.
    assert ((call <? 1) || (call >? 20) = true) as ->;
      [|reflexivity].
    apply orb_true_iff. rewrite Z.ltb_lt, Z.gtb_gt. lia.
  - intros Hin Hmem. unfold sys_socketcall. unfold SYS_SENDMMSG.
    assert ((call <? 1) || (call >? 20) = false) as ->.
    { apply orb_false_iff. rewrite Z.ltb_ge, Z.gtb_ltb, Z.ltb_ge. lia. }
    unfold mbind at 1, M_bind at 1, mm_check_read, get. now rewrite Hmem.
  - intros Hcall Hmem.
    rewrite !elem_of_cons, elem_of_nil in Hcall.
    unfold sys_socketcall, mbind at 1, M_bind at 1, mm_check_read, get.
    unfold SYS_SENDMMSG.
    destruct Hcall as [->|[->|[->|[->|[->|[->|[->|[->|[->|[->|[]]]]]]]]]]];
      cbn [Z.ltb Z.gtb Z.compare Pos.compare Pos.compare_cont orb];
      rewrite Hmem; reflexivity.
Qed.

Lemma sys_socketcall_rejects_witness :
  let w := unreadable_at 9000 (a_world (blank_file 0 0) []) in
  let go := sys_socketcall (λ _, 0) (λ _, msg_hdr (a_msg 0 0)) (λ _ _, a_msg 0 0)
              (λ _ _ _, mret 0) (λ _ _ _, mret 0) in
  go 0 8000 [] w = Ret (- EINVAL, None) w ∧
  go 21 8000 [] w = Ret (- EINVAL, None) w ∧
  go SYS_SEND 9000 [3; 5064; 5; 0] w = Ret (- EFAULT, None) w ∧
  returned (go 5 8000 [3; 0; 0] w) = Some (- EINVAL, None).
Proof.
  intros w go. split; [|split; [|split]].
  - apply (proj1 (sys_socketcall_rejects (λ _, 0) (λ _, msg_hdr (a_msg 0 0))
                    (λ _ _, a_msg 0 0) (λ _ _ _, mret 0) (λ _ _ _, mret 0)
                    0 8000 [] w)).
    left. reflexivity.
  - apply (proj1 (sys_socketcall_rejects (λ _, 0) (λ _, msg_hdr (a_msg 0 0))
                    (λ _ _, a_msg 0 0) (λ _ _ _, mret 0) (λ _ _ _, mret 0)
                    21 8000 [] w)).
    right. reflexivity.
  - apply (proj1 (proj2 (sys_socketcall_rejects (λ _, 0) (λ _, msg_hdr (a_msg 0 0))
                    (λ _ _, a_msg 0 0) (λ _ _ _, mret 0) (λ _ _ _, mret 0)
                    SYS_SEND 9000 [3; 5064; 5; 0] w))).
    + split; discriminate.
    + reflexivity.
  - unfold go.
    rewrite (proj2 (proj2 (sys_socketcall_rejects (λ _, 0)
                    (λ _, msg_hdr (a_msg 0 0))
                    (λ _ _, a_msg 0 0) (λ _ _ _, mret 0) (λ _ _ _, mret 0)
                    5 8000 [3; 0; 0] w))).
    + reflexivity.
    + do 2 right. left.
    + reflexivity.
Defined.

(** X19.  sys_socketcall reads no argument word it has not validated.  For
    every accepted call number the table index is in bounds and the entry
    is a whole number of words that fits the table's [unsigned char]; and
    what the call does depends only on the words inside the validated
    length: two argument blocks that agree on that many words give the same
    run, whatever lies behind them. *)
Theorem sys_socketcall_reads_validated_words (int_at : Z → Z)
    (msghdr_at : Z → msghdr) (mmsghdr_at : Z → nat → mmsghdr)
    (sys_getsockname sys_getpeername : Z → Z → Z → M Z)
    (call args : Z) (args_at args_at' : list Z) (w : world) :
  1 ≤ call ≤ SYS_SENDMMSG →
  let validated := nth (Z.to_nat call) nargs 0 in
  ((Z.to_nat call < length nargs)%nat ∧
   0 ≤ validated < 256 ∧ validated mod 4 = 0) ∧
  (take (Z.to_nat (validated / 4)) args_at
   = take (Z.to_nat (validated / 4)) args_at' →
   sys_socketcall int_at msghdr_at mmsghdr_at sys_getsockname sys_getpeername
     call args args_at w
   = sys_socketcall int_at msghdr_at mmsghdr_at sys_getsockname
       sys_getpeername call args args_at' w).
Proof.
  intros Hin validated. subst validated. unfold SYS_SENDMMSG in Hin.
  assert (Hcall : call ∈ [1; 2; 3; 4; 5; 6; 7; 8; 9; 10; 11; 12; 13; 14; 15;
                          16; 17; 18; 19; 20]).
  { rewrite !elem_of_cons, elem_of_nil. lia. }
  clear Hin. rewrite !elem_of_cons, elem_of_nil in Hcall.
  repeat (destruct Hcall as [->|Hcall]); [..|destruct Hcall];
    (split; [vm_compute; repeat split; congruence || lia|]);
    intros Htake;
    match type of Htake with
    | take ?k _ = _ =>
        let k' := eval vm_compute in k in change k with k' in Htake
    end;
    pose proof (nth_take_eq _ _ _ Htake) as Hnth;
    unfold sys_socketcall, SYS_SOCKET, SYS_CONNECT, SYS_GETSOCKNAME,
      SYS_GETPEERNAME, SYS_SEND, SYS_RECV, SYS_SENDTO, SYS_RECVFROM,
      SYS_SENDMSG, SYS_SENDMMSG;
    cbn [Z.eqb Pos.eqb Z.ltb Z.gtb Z.compare Pos.compare Pos.compare_cont
         orb];
    change (Z.to_nat 0) with 0%nat; change (Z.to_nat 1) with 1%nat;
    change (Z.to_nat 2) with 2%nat; change (Z.to_nat 3) with 3%nat;
    change (Z.to_nat 4) with 4%nat; change (Z.to_nat 5) with 5%nat;
    rewrite ?(Hnth 0%nat), ?(Hnth 1%nat), ?(Hnth 2%nat), ?(Hnth 3%nat),
      ?(Hnth 4%nat), ?(Hnth 5%nat) by lia;
    reflexivity.
Qed.

Lemma sys_socketcall_reads_validated_words_witness :
  let go := sys_socketcall (λ _, 0) (λ _, msg_hdr (a_msg 0 0)) (λ _ _, a_msg 0 0)
              (λ _ _ _, mret 0) (λ _ _ _, mret 0) in
  let w := a_world (blank_file 0 FD_WRITE) [net_events 0 0; Ok 5] in
  go SYS_SEND 8000 [3; 5064; 5; 0; 77; 78] w
  = go SYS_SEND 8000 [3; 5064; 5; 0] w.
Proof.
  intros go w.
  apply (proj2 (sys_socketcall_reads_validated_words (λ _, 0)
                  (λ _, msg_hdr (a_msg 0 0)) (λ _ _, a_msg 0 0) (λ _ _ _, mret 0)
                  (λ _ _ _, mret 0) SYS_SEND 8000 [3; 5064; 5; 0; 77; 78]
                  [3; 5064; 5; 0] w ltac:(split; discriminate))).
  reflexivity.
Defined.

(** ** The entry points and the file operations *)




(** ** The error translator, continued *)

Lemma error_mapping_table_negative :
  Forall (λ entry : Z * Z, entry.2 < 0) error_mapping_table.
Proof. repeat constructor. Qed.

(** X21.  A translated error is never taken for a success or a byte count:
    for every host code, in or out of the table, the guest code that
    translate_socket_error returns is strictly negative and does not depend
    on the world; the host's "no error" (0) is itself translated to
    [-EIO]. *)
Theorem translate_socket_error_negative (host : Z) :
  ∃ guest,
    (∀ w, returned (translate_socket_error host w) = Some guest) ∧
    guest < 0 ∧ (host = 0 → guest = - EIO).
Proof.
  destruct (decide (host ∈ error_mapping_table.*1)) as [Hm|Hm].
  - apply list_elem_of_fmap in Hm as [[h g] [-> Hm]].
    pose proof translate_mapped as Hall. rewrite Forall_forall in Hall.
    pose proof error_mapping_table_negative as Hneg.
    rewrite Forall_forall in Hneg.
    exists g. split; [|split].
    + intros w. now rewrite (Hall (h, g) Hm).
    + exact (Hneg (h, g) Hm).
    + cbn. intros ->. exfalso. revert Hm. unfold error_mapping_table.
      rewrite !elem_of_cons, elem_of_nil. intros Hm.
      repeat (destruct Hm as [Hm|Hm]; [discriminate|]). exact Hm.
  - exists (- EIO). split; [|split; [reflexivity|reflexivity]].
    intros w. rewrite translate_unmapped; [reflexivity|].
    apply Forall_forall. intros [h g] Hhg ->. apply Hm.
    apply list_elem_of_fmap. exists (h, g). auto.
Qed.

Lemma translate_socket_error_negative_witness :
  ∃ guest,
    returned (translate_socket_error 0 (a_world (blank_file 0 0) []))
    = Some guest ∧ guest = - EIO.
Proof.
  destruct (translate_socket_error_negative 0) as (g & Hrun & _ & Hzero).
  exists g. split; [apply Hrun | apply Hzero; reflexivity].
Defined.
